(** * VaultDAO dashboard: proposal lifecycle, timelock and threshold rules

    A shallow embedding of the proposal logic of
    [frontend/src/app/dashboard/Proposals.tsx].  The file holds two versions
    of the [Proposals] component: the dashboard component with the timelock
    helpers and the contract-backed handlers (embedded at the top level) and
    an older list component with a mock reject handler (embedded in
    [Module ListView]).

    Conventions.
    - A TypeScript [number] that counts ledgers, approvals or proposals is an
      integer of [Z]; it may be negative, as the type allows.  NaN, infinities
      and fractions are outside the model.
    - An optional field ([unlockLedger?: number]) and a nullable value
      ([string | null]) are [option]s.
    - A handler is a state transformer over the component's [useState] cells,
      which also appends the calls it makes to outside collaborators (the
      contract hook, [notify], [console.log]) to a log.  An [await] is a
      single step: the collaborator's outcome is an input of the model and no
      other handler runs in between. *)

From Stdlib Require Import ZArith Bool List String Lia DecimalString Relations.
Import ListNotations.

Local Open Scope string_scope.
Local Open Scope list_scope.
Local Open Scope Z_scope.

(** ** JavaScript operators used by the component *)

Module Js.

(** [!x] for [x : number | undefined]: [undefined] and [0] are falsy. *)
Definition not_number (x : option Z) : bool :=
  match x with
  | None => true
  | Some n => n =? 0
  end.

(** [x === k] for [x : number | undefined]. *)
Definition strict_eq_number (x : option Z) (k : Z) : bool :=
  match x with
  | None => false
  | Some n => n =? k
  end.

(** [!s] for [s : string | null | undefined]: [null] and the empty string
    are falsy. *)
Definition not_string (s : option string) : bool :=
  match s with
  | None => true
  | Some v => String.eqb v EmptyString
  end.

(** [x ?? d]. *)
Definition nullish {A : Type} (x : option A) (d : A) : A :=
  match x with
  | None => d
  | Some v => v
  end.

(** [s || d] for [s : string | undefined]. *)
Definition or_string (s : option string) (d : string) : string :=
  if not_string s then d else nullish s d.

(** The value of an optional number once a guard has excluded [undefined]
    (arithmetic on [undefined] is outside the model and never reached). *)
Definition number_of (x : option Z) : Z := nullish x 0.

(** [`${n}`] for an integer [n]. *)
Definition show (n : Z) : string := NilZero.string_of_int (Z.to_int n).

End Js.

(** ** Data model (dashboard component) *)

(** [status: 'Pending' | 'Approved' | 'Executed' | 'Rejected' | 'Expired'] *)
Inductive Status : Type :=
| Pending
| Approved
| Executed
| Rejected
| Expired.

Definition Status_eqb (a b : Status) : bool :=
  match a, b with
  | Pending, Pending
  | Approved, Approved
  | Executed, Executed
  | Rejected, Rejected
  | Expired, Expired => true
  | _, _ => false
  end.

(** [interface Proposal] *)
Record Proposal : Type := mkProposal {
  id : Z;
  proposer : string;
  recipient : string;
  amount : string;
  token : string;
  memo : string;
  status : Status;
  approvals : Z;
  threshold : Z;
  createdAt : string;
  (** Unlock ledger for timelocked proposals (0 = no timelock). *)
  unlockLedger : option Z;
  (** Current network ledger sequence for timelock calculation. *)
  currentLedger : option Z
}.

(** [{ ...p, status: s }] *)
Definition setStatus (p : Proposal) (s : Status) : Proposal :=
  {| id := id p; proposer := proposer p; recipient := recipient p;
     amount := amount p; token := token p; memo := memo p;
     status := s;
     approvals := approvals p; threshold := threshold p;
     createdAt := createdAt p;
     unlockLedger := unlockLedger p; currentLedger := currentLedger p |}.

(** The proposal [p] as observed at ledger [b]: [{ ...p, currentLedger: b }].
    The helpers read the current ledger from the proposal record, so this is
    how a block height reaches them. *)
Definition atLedger (p : Proposal) (b : Z) : Proposal :=
  {| id := id p; proposer := proposer p; recipient := recipient p;
     amount := amount p; token := token p; memo := memo p;
     status := status p;
     approvals := approvals p; threshold := threshold p;
     createdAt := createdAt p;
     unlockLedger := unlockLedger p; currentLedger := Some b |}.

(** [const mockProposals] *)
Definition mockProposals : list Proposal :=
  [ {| id := 1; proposer := "GABC...XYZ1"; recipient := "GDEF...ABC2";
       amount := "1000"; token := "USDC"; memo := "Marketing budget";
       status := Pending; approvals := 1; threshold := 3;
       createdAt := "2024-02-15";
       unlockLedger := None; currentLedger := None |};
    {| id := 2; proposer := "GABC...XYZ1"; recipient := "GHIJ...DEF3";
       amount := "500"; token := "XLM"; memo := "Development costs";
       status := Approved; approvals := 3; threshold := 3;
       createdAt := "2024-02-14";
       unlockLedger := Some 0; currentLedger := Some 1000 |};
    {| id := 3; proposer := "GABC...XYZ1"; recipient := "GKLM...GHI4";
       amount := "5000"; token := "XLM"; memo := "Q1 payroll";
       status := Approved; approvals := 3; threshold := 3;
       createdAt := "2024-02-13";
       unlockLedger := Some 1500; currentLedger := Some 1200 |} ].

(** ** Timelock helpers *)

(** [getLedgersRemaining]:
    [if (!proposal.unlockLedger || proposal.unlockLedger === 0) return 0;
     const current = proposal.currentLedger ?? 0;
     return Math.max(0, proposal.unlockLedger - current);] *)
Definition getLedgersRemaining (proposal : Proposal) : Z :=
  if Js.not_number (unlockLedger proposal)
     || Js.strict_eq_number (unlockLedger proposal) 0
  then 0
  else
    let current := Js.nullish (currentLedger proposal) 0 in
    Z.max 0 (Js.number_of (unlockLedger proposal) - current).

(** [isTimelockExpired]: [getLedgersRemaining(proposal) === 0] *)
Definition isTimelockExpired (proposal : Proposal) : bool :=
  getLedgersRemaining proposal =? 0.

(** [canExecuteProposal]:
    [proposal.status === 'Approved' &&
     proposal.approvals >= proposal.threshold &&
     isTimelockExpired(proposal)] *)
Definition canExecuteProposal (proposal : Proposal) : bool :=
  Status_eqb (status proposal) Approved
  && (approvals proposal >=? threshold proposal)
  && isTimelockExpired proposal.

(** ** What the hooks hand to the component *)

(** [const userRole = 'Admin'; // or 'Treasurer' or 'None'] *)
Inductive UserRole : Type :=
| Admin
| Treasurer
| NoRole.

Definition UserRole_eqb (a b : UserRole) : bool :=
  match a, b with
  | Admin, Admin
  | Treasurer, Treasurer
  | NoRole, NoRole => true
  | _, _ => false
  end.

(** The role the source hard-codes ("Mock user role - in production, fetch
    from contract"). *)
Definition mockUserRole : UserRole := Admin.

(** [useWallet()] gives [address] and [isConnected], [useVaultContract()]
    gives [loading]; [userRole] is the component's constant, kept as a field
    so that the rules can be stated for every role. *)
Record Env : Type := mkEnv {
  isConnected : bool;
  address : option string;
  userRole : UserRole;
  loading : bool
}.

(** ** Reject permission *)

(** [canRejectProposal]:
    [if (!isConnected || !address) return true; // demo mode
     return proposal.proposer === address || userRole === 'Admin';] *)
Definition canRejectProposal (env : Env) (proposal : Proposal) : bool :=
  if negb (isConnected env) || Js.not_string (address env) then true
  else
    String.eqb (proposer proposal) (Js.nullish (address env) EmptyString)
    || UserRole_eqb (userRole env) Admin.

(** ** Collaborators and their outcomes *)

(** [type ToastLevel] (keys of [TOAST_LEVEL_STYLES]) *)
Inductive ToastLevel : Type :=
| success
| error
| info.

(** A value caught by [catch (error: unknown)]: an instance of [Error] with
    its [message], or any other thrown value, here a thrown string. *)
Inductive Thrown : Type :=
| ErrorInstance (message : string)
| NonError (value : string).

(** What the collaborator itself reported when it failed. *)
Definition thrownText (e : Thrown) : string :=
  match e with
  | ErrorInstance message => message
  | NonError value => value
  end.

(** The outcome of awaiting [rejectProposal(id)] or [executeProposal(id)]. *)
Inductive TxResult : Type :=
| Fulfilled (txHash : string)
| Throws (e : Thrown).

(** [useVaultContract()]: the submission collaborator. *)
Record Contract : Type := mkContract {
  rejectProposal : Z -> TxResult;
  executeProposal : Z -> TxResult
}.

(** Calls that leave the component, in the order they are made. *)
Inductive Effect : Type :=
| CallRejectProposal (proposalId : Z)
| CallExecuteProposal (proposalId : Z)
| Notify (eventType : string) (message : string) (level : ToastLevel)
| ConsoleLog (label : string) (arg : option string).

(** ** Component state *)

(** The [useState] cells of the component. *)
Record Ui : Type := mkUi {
  proposals : list Proposal;
  selectedProposal : option Z;
  showRejectModal : bool;
  executingId : option Z
}.

Record World : Type := mkWorld {
  ui : Ui;
  effects : list Effect
}.

(** [useState<Proposal[]>(mockProposals)], [useState(null)],
    [useState(false)], [useState(null)] *)
Definition initialUi : Ui :=
  {| proposals := mockProposals; selectedProposal := None;
     showRejectModal := false; executingId := None |}.

Definition initialWorld : World := {| ui := initialUi; effects := [] |}.

(** ** Handler monad: state of the cells plus the log of outside calls *)

Definition Handler (A : Type) : Type := World -> A * World.

Definition ret {A : Type} (a : A) : Handler A := fun w => (a, w).

Definition bind {A B : Type} (m : Handler A) (k : A -> Handler B) : Handler B :=
  fun w => let (a, w') := m w in k a w'.

Definition exec {A : Type} (m : Handler A) (w : World) : World := snd (m w).

Declare Scope handler_scope.
Delimit Scope handler_scope with handler.
Notation "x <- m ;; k" := (bind m (fun x => k))
  (at level 61, m at next level, right associativity) : handler_scope.
Notation "m ;; k" := (bind m (fun _ => k))
  (at level 61, right associativity) : handler_scope.

Definition modifyUi (f : Ui -> Ui) : Handler unit :=
  fun w => (tt, {| ui := f (ui w); effects := effects w |}).

Definition emit (e : Effect) : Handler unit :=
  fun w => (tt, {| ui := ui w; effects := effects w ++ [e] |}).

Definition getSelectedProposal : Handler (option Z) :=
  fun w => (selectedProposal (ui w), w).

(** [setProposals(prev => f(prev))] *)
Definition setProposals (f : list Proposal -> list Proposal) : Handler unit :=
  modifyUi (fun u =>
    {| proposals := f (proposals u); selectedProposal := selectedProposal u;
       showRejectModal := showRejectModal u; executingId := executingId u |}).

Definition setSelectedProposal (v : option Z) : Handler unit :=
  modifyUi (fun u =>
    {| proposals := proposals u; selectedProposal := v;
       showRejectModal := showRejectModal u; executingId := executingId u |}).

Definition setShowRejectModal (v : bool) : Handler unit :=
  modifyUi (fun u =>
    {| proposals := proposals u; selectedProposal := selectedProposal u;
       showRejectModal := v; executingId := executingId u |}).

Definition setExecutingId (v : option Z) : Handler unit :=
  modifyUi (fun u =>
    {| proposals := proposals u; selectedProposal := selectedProposal u;
       showRejectModal := showRejectModal u; executingId := v |}).

(** [notify(eventType, message, level)] *)
Definition notify (eventType message : string) (level : ToastLevel) : Handler unit :=
  emit (Notify eventType message level).

(** [console.log(label, arg)] *)
Definition consoleLog (label : string) (arg : option string) : Handler unit :=
  emit (ConsoleLog label arg).

(** [await rejectProposal(proposalId)] *)
Definition awaitRejectProposal (contract : Contract) (proposalId : Z) : Handler TxResult :=
  fun w => (rejectProposal contract proposalId,
            {| ui := ui w; effects := effects w ++ [CallRejectProposal proposalId] |}).

(** [await executeProposal(proposalId)] *)
Definition awaitExecuteProposal (contract : Contract) (proposalId : Z) : Handler TxResult :=
  fun w => (executeProposal contract proposalId,
            {| ui := ui w; effects := effects w ++ [CallExecuteProposal proposalId] |}).

(** [prev.map(p => p.id === target ? { ...p, status: s } : p)] *)
Definition markStatus (target : Z) (s : Status) (prev : list Proposal) : list Proposal :=
  map (fun p => if id p =? target then setStatus p s else p) prev.

(** [error instanceof Error ? error.message : fallback] *)
Definition errorMessage (e : Thrown) (fallback : string) : string :=
  match e with
  | ErrorInstance message => message
  | NonError _ => fallback
  end.

Local Open Scope handler_scope.

(** ** Reject handlers *)

(** [handleRejectClick] *)
Definition handleRejectClick (proposalId : Z) : Handler unit :=
  setSelectedProposal (Some proposalId) ;;
  setShowRejectModal true.

(** [handleRejectConfirm]: early return when nothing is selected, then
    [try { await rejectProposal; setProposals; notify success; console.log x2 }
     catch { notify error } finally { close the modal, clear the selection }] *)
Definition handleRejectConfirm (contract : Contract) (reason : option string) : Handler unit :=
  selected <- getSelectedProposal ;;
  match selected with
  | None => ret tt
  | Some selectedId =>
      outcome <- awaitRejectProposal contract selectedId ;;
      match outcome with
      | Fulfilled txHash =>
          setProposals (markStatus selectedId Rejected) ;;
          notify "proposal_rejected"
                 ("Proposal #" ++ Js.show selectedId ++ " rejected successfully")%string
                 success ;;
          consoleLog "Rejection reason:" reason ;;
          consoleLog "Transaction hash:" (Some txHash)
      | Throws e =>
          notify "proposal_rejected" (errorMessage e "Failed to reject proposal") error
      end ;;
      setShowRejectModal false ;;
      setSelectedProposal None
  end.

(** [handleRejectCancel] *)
Definition handleRejectCancel : Handler unit :=
  setShowRejectModal false ;;
  setSelectedProposal None.

(** ** Execute handler *)

(** [handleExecuteClick]:
    [setExecutingId(proposalId);
     try { await executeProposal; setProposals; notify success; console.log }
     catch { notify error } finally { setExecutingId(null) }] *)
Definition handleExecuteClick (contract : Contract) (proposalId : Z) : Handler unit :=
  setExecutingId (Some proposalId) ;;
  outcome <- awaitExecuteProposal contract proposalId ;;
  match outcome with
  | Fulfilled txHash =>
      setProposals (markStatus proposalId Executed) ;;
      notify "proposal_executed"
             ("Proposal #" ++ Js.show proposalId
                ++ " executed — funds transferred successfully")%string
             success ;;
      consoleLog "Execution tx hash:" (Some txHash)
  | Throws e =>
      notify "proposal_executed" (errorMessage e "Failed to execute proposal") error
  end ;;
  setExecutingId None.

Local Close Scope handler_scope.

(** ** The view: which actions a proposal card offers *)

(** The Reject [<button>]: [disabled={loading}] and its text. *)
Record RejectButton : Type := mkRejectButton {
  rejectDisabled : bool;
  rejectLabel : string
}.

(** The Execute [<button>]: [disabled], [title] and its text. *)
Record ExecuteButton : Type := mkExecuteButton {
  executeDisabled : bool;
  executeTitle : string;
  executeLabel : string
}.

(** What the JSX of one proposal renders, as far as the lifecycle goes. *)
Record Card : Type := mkCard {
  (** the countdown banner with the ledgers left, when shown *)
  timelockBanner : option Z;
  (** the Approve button (it has no [onClick]) *)
  approveButton : bool;
  rejectButton : option RejectButton;
  executeButton : option ExecuteButton;
  (** "This proposal is timelocked for large transfers." *)
  timelockNote : bool
}.

(** [executingId === proposal.id] and [selectedProposal === proposal.id] *)
Definition isId (cell : option Z) (k : Z) : bool :=
  match cell with
  | None => false
  | Some v => v =? k
  end.

(** The body of [proposals.map((proposal) => { ... })]. *)
Definition renderProposal (env : Env) (u : Ui) (proposal : Proposal) : Card :=
  let ledgersLeft := getLedgersRemaining proposal in
  let timelocked := ledgersLeft >? 0 in
  let isExecuting := isId (executingId u) (id proposal) && loading env in
  {| timelockBanner :=
       if Status_eqb (status proposal) Approved && timelocked
       then Some ledgersLeft else None;
     approveButton := Status_eqb (status proposal) Pending;
     rejectButton :=
       if Status_eqb (status proposal) Pending && canRejectProposal env proposal
       then Some {| rejectDisabled := loading env;
                    rejectLabel :=
                      if loading env && isId (selectedProposal u) (id proposal)
                      then "Rejecting..." else "Reject" |}
       else None;
     executeButton :=
       if Status_eqb (status proposal) Approved
       then Some {| executeDisabled := negb (canExecuteProposal proposal) || isExecuting;
                    executeTitle :=
                      if timelocked
                      then ("Timelocked — wait " ++ Js.show ledgersLeft
                              ++ " more ledgers")%string
                      else "Execute this proposal to transfer funds";
                    executeLabel :=
                      if isExecuting then "Executing…"
                      else if timelocked then "Execute (Locked)"
                      else "Execute" |}
       else None;
     timelockNote := Status_eqb (status proposal) Approved && timelocked |}.

(** ** The component as a transition system

    A step is one user action the rendered view allows, followed by the
    handler it is wired to.  The environment and the collaborator may differ
    from step to step. *)
Inductive step : World -> World -> Prop :=
| step_rejectClick (env : Env) (w : World) (p : Proposal) (b : RejectButton) :
    In p (proposals (ui w)) ->
    rejectButton (renderProposal env (ui w) p) = Some b ->
    rejectDisabled b = false ->
    step w (exec (handleRejectClick (id p)) w)
| step_rejectConfirm (contract : Contract) (reason : option string) (w : World) :
    showRejectModal (ui w) = true ->
    step w (exec (handleRejectConfirm contract reason) w)
| step_rejectCancel (w : World) :
    showRejectModal (ui w) = true ->
    step w (exec handleRejectCancel w)
| step_executeClick (env : Env) (contract : Contract) (w : World)
                    (p : Proposal) (b : ExecuteButton) :
    In p (proposals (ui w)) ->
    executeButton (renderProposal env (ui w) p) = Some b ->
    executeDisabled b = false ->
    step w (exec (handleExecuteClick contract (id p)) w).

(** Any number of user actions. *)
Definition steps : World -> World -> Prop := clos_refl_trans_1n World step.

(** Proposal ids are pairwise distinct, and a proposal picked for rejection
    is still pending. *)
Definition wellFormed (w : World) : Prop :=
  NoDup (map id (proposals (ui w)))
  /\ forall i q, selectedProposal (ui w) = Some i ->
                 In q (proposals (ui w)) -> id q = i -> status q = Pending.

(** How one user action may change a proposal: not at all, from pending to
    rejected, or from executable to executed. *)
Definition lifecycle (p p' : Proposal) : Prop :=
  p' = p
  \/ (status p = Pending /\ p' = setStatus p Rejected)
  \/ (canExecuteProposal p = true /\ p' = setStatus p Executed).

(** A proposal that is neither pending nor approved keeps its record. *)
Definition settled (p p' : Proposal) : Prop :=
  status p <> Pending -> status p <> Approved -> p' = p.

(** ** The list component (first version in the file) *)

Module ListView.

(** [interface Proposal] of the list component: string ids and a free-form
    status string. *)
Record Proposal : Type := mkProposal {
  id : string;
  title : string;
  description : string;
  status : string;
  creator : string;
  recipient : string;
  createdAt : string;
  approvals : Z;
  amount : option string
}.

(** [{ ...p, status: s }] *)
Definition setStatus (p : Proposal) (s : string) : Proposal :=
  {| id := id p; title := title p; description := description p;
     status := s;
     creator := creator p; recipient := recipient p;
     createdAt := createdAt p; approvals := approvals p;
     amount := amount p |}.

(** The cells the reject flow touches. *)
Record Ui : Type := mkUi {
  proposals : list Proposal;
  showRejectModal : bool;
  rejectingId : option string
}.

(** [handleOpenReject]: [setRejectingId(id); setShowRejectModal(true)] *)
Definition handleOpenReject (proposalId : string) (u : Ui) : Ui :=
  {| proposals := proposals u; showRejectModal := true;
     rejectingId := Some proposalId |}.

(** [handleRejectConfirm]:
    [if (!rejectingId) return;
     const finalReason = reason || "No reason provided";
     console.log(...);
     setProposals(prev => prev.map(p =>
       p.id === rejectingId ? { ...p, status: 'Rejected' } : p));
     setShowRejectModal(false); setRejectingId(null);]
    The result is the new cells and the line written to the console. *)
Definition handleRejectConfirm (reason : option string) (u : Ui) : Ui * list string :=
  if Js.not_string (rejectingId u) then (u, [])
  else
    let target := Js.nullish (rejectingId u) EmptyString in
    let finalReason := Js.or_string reason "No reason provided" in
    ({| proposals :=
          map (fun p => if String.eqb (id p) target
                        then setStatus p "Rejected" else p)
              (proposals u);
        showRejectModal := false;
        rejectingId := None |},
     [("Rejecting " ++ target ++ " for: " ++ finalReason)%string]).

(** [{prop.status === 'Pending' && (<button ...>Reject</button>)}] *)
Definition rejectButtonRendered (prop : Proposal) : bool :=
  String.eqb (status prop) "Pending".

End ListView.

(** ** Block-height refresh *)

Module Ledger.

(** Modelled from the spec: the operation [refreshBlockHeight] and the
    ledger cell it updates are not in the sources at hand (there the current
    ledger is a field of each proposal, read from mock data).  The spec:
    "Updates the ledger's notion of [currentBlock].  Must be monotonically
    non-decreasing from the ledger's perspective; a lower value from a
    misbehaving feed is rejected (no-op) rather than applied", and
    [StaleBlockHeight] is "rejected, logged, not propagated as a
    user-facing error". *)
Record Ledger : Type := mkLedger {
  currentBlock : Z;
  (** the rejected feed values, latest first *)
  staleBlockHeights : list Z
}.

(** Modelled from the spec: [refreshBlockHeight(newBlock) -> void], absent
    from the sources; a value below the stored one is logged and dropped,
    any other value is stored. *)
Definition refreshBlockHeight (newBlock : Z) (l : Ledger) : Ledger :=
  if newBlock <? currentBlock l
  then {| currentBlock := currentBlock l;
          staleBlockHeights := newBlock :: staleBlockHeights l |}
  else {| currentBlock := newBlock;
          staleBlockHeights := staleBlockHeights l |}.

(** The ledger after a whole feed of block heights, oldest first. *)
Definition refreshAll (feed : list Z) (l : Ledger) : Ledger :=
  fold_left (fun acc newBlock => refreshBlockHeight newBlock acc) feed l.

End Ledger.

(** ** Sample values used by the examples below *)

Definition blankProposal : Proposal :=
  {| id := 0; proposer := EmptyString; recipient := EmptyString;
     amount := EmptyString; token := EmptyString; memo := EmptyString;
     status := Pending; approvals := 0; threshold := 0;
     createdAt := EmptyString;
     unlockLedger := None; currentLedger := None |}.

(** The three mock proposals: pending with one approval of three; approved
    with no timelock; approved and locked until ledger 1500, seen at 1200. *)
Definition proposal1 : Proposal := nth 0 mockProposals blankProposal.
Definition proposal2 : Proposal := nth 1 mockProposals blankProposal.
Definition proposal3 : Proposal := nth 2 mockProposals blankProposal.

(** The third mock proposal without a current ledger. *)
Definition proposal3NoLedger : Proposal :=
  {| id := 3; proposer := "GABC...XYZ1"; recipient := "GKLM...GHI4";
     amount := "5000"; token := "XLM"; memo := "Q1 payroll";
     status := Approved; approvals := 3; threshold := 3;
     createdAt := "2024-02-13";
     unlockLedger := Some 1500; currentLedger := None |}.

(** An approved proposal whose unlock ledger is a negative number and whose
    current ledger is absent. *)
Definition negativeUnlock : Proposal :=
  {| id := 4; proposer := "GABC...XYZ1"; recipient := "GKLM...GHI4";
     amount := "5000"; token := "XLM"; memo := "Q1 payroll";
     status := Approved; approvals := 3; threshold := 3;
     createdAt := "2024-02-13";
     unlockLedger := Some (-1); currentLedger := None |}.

(** The second mock proposal with one approval only (threshold 3, no
    timelock). *)
Definition underThreshold : Proposal :=
  {| id := 2; proposer := "GABC...XYZ1"; recipient := "GHIJ...DEF3";
     amount := "500"; token := "XLM"; memo := "Development costs";
     status := Approved; approvals := 1; threshold := 3;
     createdAt := "2024-02-14";
     unlockLedger := Some 0; currentLedger := Some 1000 |}.

(** A collaborator whose calls all succeed. *)
Definition alwaysFulfils : Contract :=
  {| rejectProposal := fun _ => Fulfilled "tx-1";
     executeProposal := fun _ => Fulfilled "tx-1" |}.

(** A collaborator that throws an [Error]. *)
Definition throwsError : Contract :=
  {| rejectProposal := fun _ => Throws (ErrorInstance "Transaction simulation failed");
     executeProposal := fun _ => Throws (ErrorInstance "Transaction simulation failed") |}.

(** A collaborator that throws a string, not an [Error]. *)
Definition throwsString : Contract :=
  {| rejectProposal := fun _ => Throws (NonError "User declined access");
     executeProposal := fun _ => Throws (NonError "User declined access") |}.

(** The second mock proposal after its execution. *)
Definition executedProposal : Proposal := setStatus proposal2 Executed.

(** The confirmation dialog open on an executed proposal. *)
Definition executedSelected : World :=
  {| ui := {| proposals := [executedProposal; proposal3];
              selectedProposal := Some 2;
              showRejectModal := true; executingId := None |};
     effects := [] |}.

(** The confirmation dialog open on the first (pending) mock proposal. *)
Definition pendingSelected : World :=
  {| ui := {| proposals := mockProposals;
              selectedProposal := Some 1;
              showRejectModal := true; executingId := None |};
     effects := [] |}.

(** An executed proposal next to an executable one, nothing selected. *)
Definition executedAndExecutable : World :=
  {| ui := {| proposals := [setStatus proposal3 Executed; proposal2];
              selectedProposal := None;
              showRejectModal := false; executingId := None |};
     effects := [] |}.

(** A connected wallet that belongs to the proposer of the mock proposals,
    without the admin role. *)
Definition connectedProposer : Env :=
  {| isConnected := true; address := Some "GABC...XYZ1";
     userRole := NoRole; loading := false |}.

(** A connected wallet of somebody else, without the admin role. *)
Definition connectedStranger : Env :=
  {| isConnected := true; address := Some "GZZZ...0000";
     userRole := NoRole; loading := false |}.

(** No wallet connected, no admin role. *)
Definition disconnected : Env :=
  {| isConnected := false; address := None;
     userRole := NoRole; loading := false |}.

(** The list component with an executed proposal picked for rejection. *)
Definition listExecuted : ListView.Proposal :=
  {| ListView.id := "1"; ListView.title := "Liquidity Pool Expansion";
     ListView.description := "Adding 100 ETH to LP";
     ListView.status := "Executed"; ListView.creator := "0x123";
     ListView.recipient := "0xabc"; ListView.createdAt := "2026-02-21";
     ListView.approvals := 1; ListView.amount := Some "100" |}.

Definition listExecutedSelected : ListView.Ui :=
  {| ListView.proposals := [listExecuted];
     ListView.showRejectModal := true;
     ListView.rejectingId := Some "1" |}.

From Stdlib Require Import Ascii DecimalPos DecimalZ.

(** ** The countdown of a timelocked proposal *)

(** [const SECONDS_PER_LEDGER = 5] ("~5 seconds per ledger on Stellar") *)
Definition SECONDS_PER_LEDGER : Z := 5.

Module TimelockCountdown.

(** [const totalSeconds = ledgersRemaining * SECONDS_PER_LEDGER], the initial
    value of the [secondsLeft] cell. *)
Definition totalSeconds (ledgersRemaining : Z) : Z :=
  ledgersRemaining * SECONDS_PER_LEDGER.

(** The effect's guard: [if (secondsLeft <= 0) return;], otherwise an
    interval of 60 s is armed. *)
Definition intervalArmed (secondsLeft : Z) : bool :=
  negb (secondsLeft <=? 0).

(** The interval's update: [setSecondsLeft(s => Math.max(0, s - 60))]. *)
Definition tick (s : Z) : Z := Z.max 0 (s - 60).

(** One minute of wall-clock time: the interval fires if it is armed. *)
Definition afterMinute (secondsLeft : Z) : Z :=
  if intervalArmed secondsLeft then tick secondsLeft else secondsLeft.

(** [n] minutes. *)
Definition afterMinutes (n : nat) (secondsLeft : Z) : Z :=
  Nat.iter n afterMinute secondsLeft.

(** [Math.floor(secondsLeft / 3600)] *)
Definition hours (secondsLeft : Z) : Z := secondsLeft / 3600.

(** [Math.floor((secondsLeft % 3600) / 60)]; [%] keeps the sign of the
    dividend. *)
Definition minutes (secondsLeft : Z) : Z := Z.rem secondsLeft 3600 / 60.

(** [hours > 0 ? `Unlocks in ${hours}h ${minutes}m`
     : minutes > 0 ? `Unlocks in ${minutes}m` : 'Unlocking soon…'] *)
Definition label (secondsLeft : Z) : string :=
  if hours secondsLeft >? 0
  then ("Unlocks in " ++ Js.show (hours secondsLeft) ++ "h "
          ++ Js.show (minutes secondsLeft) ++ "m")%string
  else if minutes secondsLeft >? 0
  then ("Unlocks in " ++ Js.show (minutes secondsLeft) ++ "m")%string
  else "Unlocking soon…".

End TimelockCountdown.

(** ** The list component: filters and the new-proposal form *)

Module ListFilter.

(** [s.includes(sub)]: [sub] occurs in [s] as a contiguous run. *)
Fixpoint includes (s sub : string) : bool :=
  String.prefix sub s
  || match s with
     | EmptyString => false
     | String _ rest => includes rest sub
     end.

(** [FilterState], with the shape of the initial [activeFilters]. *)
Record FilterState : Type := mkFilterState {
  search : string;
  statuses : list string;
  dateRange : string * string;
  amountRange : string * string;
  sortBy : string
}.

(** The initial [activeFilters]. *)
Definition initialFilters : FilterState :=
  {| search := EmptyString; statuses := [];
     dateRange := (EmptyString, EmptyString);
     amountRange := (EmptyString, EmptyString);
     sortBy := "newest" |}.

Section WithToLowerCase.

(** [String.prototype.toLowerCase], a built-in taken as given. *)
Variable toLowerCase : string -> string.

(** The predicate of [proposals.filter(p => ...)]:
    [matchesSearch = title.toLowerCase().includes(search.toLowerCase())
                     || recipient.toLowerCase().includes(search.toLowerCase())],
    [matchesStatus = statuses.length === 0 || statuses.includes(p.status)]. *)
Definition matches (activeFilters : FilterState) (p : ListView.Proposal) : bool :=
  let matchesSearch :=
    includes (toLowerCase (ListView.title p)) (toLowerCase (search activeFilters))
    || includes (toLowerCase (ListView.recipient p))
                (toLowerCase (search activeFilters)) in
  let matchesStatus :=
    (List.length (statuses activeFilters) =? 0)%nat
    || existsb (String.eqb (ListView.status p)) (statuses activeFilters) in
  matchesSearch && matchesStatus.

(** [filteredProposals] *)
Definition filteredProposals (activeFilters : FilterState)
           (proposals : list ListView.Proposal) : list ListView.Proposal :=
  filter (matches activeFilters) proposals.

End WithToLowerCase.

End ListFilter.

Module ListForm.

(** [NewProposalFormData], with the shape of the initial [newProposalForm]. *)
Record NewProposalFormData : Type := mkForm {
  recipient : string;
  token : string;
  amount : string;
  memo : string
}.

(** [keyof NewProposalFormData] *)
Inductive Field : Type :=
| FRecipient
| FToken
| FAmount
| FMemo.

(** [form[field]] *)
Definition get (form : NewProposalFormData) (field : Field) : string :=
  match field with
  | FRecipient => recipient form
  | FToken => token form
  | FAmount => amount form
  | FMemo => memo form
  end.

(** The fields of a [ProposalTemplate] that [applyTemplate] reads. *)
Record ProposalTemplate : Type := mkTemplate {
  name : string;
  templateRecipient : string;
  templateToken : option string;
  templateAmount : string;
  templateMemo : string
}.

(** The cells around the form. *)
Record Cells : Type := mkCells {
  newProposalForm : NewProposalFormData;
  selectedTemplateName : option string;
  showTemplateSelector : bool;
  showNewProposalModal : bool;
  loading : bool
}.

(** [useState] initial values. *)
Definition initialCells : Cells :=
  {| newProposalForm :=
       {| recipient := EmptyString; token := EmptyString;
          amount := EmptyString; memo := EmptyString |};
     selectedTemplateName := None;
     showTemplateSelector := false;
     showNewProposalModal := false;
     loading := false |}.

(** [{ ...prev, [field]: value }] *)
Definition setField (prev : NewProposalFormData) (field : Field) (value : string)
  : NewProposalFormData :=
  match field with
  | FRecipient => {| recipient := value; token := token prev;
                     amount := amount prev; memo := memo prev |}
  | FToken => {| recipient := recipient prev; token := value;
                 amount := amount prev; memo := memo prev |}
  | FAmount => {| recipient := recipient prev; token := token prev;
                  amount := value; memo := memo prev |}
  | FMemo => {| recipient := recipient prev; token := token prev;
                amount := amount prev; memo := value |}
  end.

(** [handleFormChange]: [setNewProposalForm(prev => ({ ...prev, [field]: value }))] *)
Definition handleFormChange (field : Field) (value : string) (c : Cells) : Cells :=
  {| newProposalForm := setField (newProposalForm c) field value;
     selectedTemplateName := selectedTemplateName c;
     showTemplateSelector := showTemplateSelector c;
     showNewProposalModal := showNewProposalModal c;
     loading := loading c |}.

(** [applyTemplate]: the form is replaced by the template's fields, with
    [template.token || "NATIVE"]; the template's name is recorded and the
    selector closed. *)
Definition applyTemplate (template : ProposalTemplate) (c : Cells) : Cells :=
  {| newProposalForm :=
       {| recipient := templateRecipient template;
          token := Js.or_string (templateToken template) "NATIVE";
          amount := templateAmount template;
          memo := templateMemo template |};
     selectedTemplateName := Some (name template);
     showTemplateSelector := false;
     showNewProposalModal := showNewProposalModal c;
     loading := loading c |}.

(** [handleCreateProposal]: [setLoading(true); /* API logic... */
    setLoading(false); setShowNewProposalModal(false)] *)
Definition handleCreateProposal (c : Cells) : Cells :=
  {| newProposalForm := newProposalForm c;
     selectedTemplateName := selectedTemplateName c;
     showTemplateSelector := showTemplateSelector c;
     showNewProposalModal := false;
     loading := false |}.

End ListForm.

(** ** The list component as a transition system *)

Module ListSteps.

(** The dialog's [onCancel={() => setShowRejectModal(false)}]: the dialog is
    closed, [rejectingId] is kept. *)
Definition cancelReject (u : ListView.Ui) : ListView.Ui :=
  {| ListView.proposals := ListView.proposals u;
     ListView.showRejectModal := false;
     ListView.rejectingId := ListView.rejectingId u |}.

(** A step is one user action the rendered list allows, followed by its
    handler: a click on the Reject button of a proposal (rendered for the
    shown proposals, which are proposals of the list, when the status is
    'Pending'), or Confirm or Cancel in the open dialog. *)
Inductive step : ListView.Ui -> ListView.Ui -> Prop :=
| step_openReject (u : ListView.Ui) (p : ListView.Proposal) :
    In p (ListView.proposals u) ->
    ListView.rejectButtonRendered p = true ->
    step u (ListView.handleOpenReject (ListView.id p) u)
| step_confirm (reason : option string) (u : ListView.Ui) :
    ListView.showRejectModal u = true ->
    step u (fst (ListView.handleRejectConfirm reason u))
| step_cancel (u : ListView.Ui) :
    ListView.showRejectModal u = true ->
    step u (cancelReject u).

(** Any number of user actions. *)
Definition steps : ListView.Ui -> ListView.Ui -> Prop :=
  clos_refl_trans_1n ListView.Ui step.

(** Proposal ids are pairwise distinct, and while the dialog is open the
    proposal picked for rejection is pending. *)
Definition wellFormed (u : ListView.Ui) : Prop :=
  NoDup (map ListView.id (ListView.proposals u))
  /\ (ListView.showRejectModal u = true ->
      forall i q, ListView.rejectingId u = Some i ->
                  In q (ListView.proposals u) -> ListView.id q = i ->
                  ListView.status q = "Pending").

(** A proposal that is not pending keeps its record. *)
Definition settled (p p' : ListView.Proposal) : Prop :=
  ListView.status p <> "Pending" -> p' = p.

End ListSteps.

(** ** Export of the analytics as CSV ([utils/exportAnalytics.ts]) *)

Module ExportAnalytics.

(** The four characters of the tested class: double quote, comma, LF, CR. *)
Definition dquote : ascii := ascii_of_nat 34.
Definition comma : ascii := ","%char.
Definition lf : ascii := ascii_of_nat 10.
Definition cr : ascii := ascii_of_nat 13.

Definition isSpecial (c : ascii) : bool :=
  Ascii.eqb c dquote || Ascii.eqb c comma || Ascii.eqb c lf || Ascii.eqb c cr.

(** [regexp.test(s)] for the class of the four characters. *)
Fixpoint test (s : string) : bool :=
  match s with
  | EmptyString => false
  | String c rest => isSpecial c || test rest
  end.

(** [s.replace(...)] with the global flag: every double quote is written
    twice. *)
Fixpoint replaceQuotes (s : string) : string :=
  match s with
  | EmptyString => EmptyString
  | String c rest =>
      if Ascii.eqb c dquote
      then String dquote (String dquote (replaceQuotes rest))
      else String c (replaceQuotes rest)
  end.

(** [escapeCsvCell], on the string [s = String(value)]: a cell with one of
    the four characters is put between double quotes, with its own double
    quotes doubled; any other cell is returned as it is. *)
Definition escapeCsvCell (s : string) : string :=
  if test s
  then String dquote (replaceQuotes s ++ String dquote EmptyString)
  else s.

(** The separator of [join('\r\n')]. *)
Definition crlf : string := String cr (String lf EmptyString).

(** [row.map(escapeCsvCell).join(',')] *)
Definition formatRow (row : list string) : string :=
  String.concat (String comma EmptyString) (map escapeCsvCell row).

(** [rows.map((row) => row.map(escapeCsvCell).join(',')).join('\r\n')] *)
Definition formatCsv (rows : list (list string)) : string :=
  String.concat crlf (map formatRow rows).

Section WithNumbers.

(** JavaScript numbers and [String(n)], taken as given; [zero] is the
    literal [0]. *)
Variable number : Type.
Variable numberToString : number -> string.
Variable zero : number.

(** [interface LocalProposalTrend] *)
Record LocalProposalTrend : Type := mkTrend {
  date : string;
  created : number;
  approved : number;
  executed : number
}.

(** [interface LocalSpendingByToken] *)
Record LocalSpendingByToken : Type := mkSpending {
  name : string;
  value : number;
  count : option number
}.

(** The fields of [AggregatedAnalytics] that the export reads. *)
Record AggregatedAnalytics : Type := mkAnalytics {
  proposalTrends : list LocalProposalTrend;
  spendingByToken : list LocalSpendingByToken;
  approvalRate : number;
  averageApprovalTimeHours : number;
  mostActiveSigner : string;
  topRecipient : string;
  totalVolume : number;
  pendingCount : number
}.

(** [[p.date, String(p.created), String(p.approved), String(p.executed)]] *)
Definition trendRow (p : LocalProposalTrend) : list string :=
  [ date p; numberToString (created p); numberToString (approved p);
    numberToString (executed p) ].

(** [[s.name, String(s.value), String(s.count ?? 0)]] *)
Definition spendingRow (s : LocalSpendingByToken) : list string :=
  [ name s; numberToString (value s);
    numberToString (Js.nullish (count s) zero) ].

(** The [rows] array once every [push] is done. *)
Definition rowsOf (analytics : AggregatedAnalytics) : list (list string) :=
  [ ["Proposal trends"; EmptyString];
    ["Date"; "Created"; "Approved"; "Executed"] ]
  ++ map trendRow (proposalTrends analytics)
  ++ [ [];
       ["Spending by token"; EmptyString];
       ["Token"; "Value"; "Count"] ]
  ++ map spendingRow (spendingByToken analytics)
  ++ [ [];
       ["Stats"; EmptyString];
       ["Approval rate (%)"; numberToString (approvalRate analytics)];
       ["Average approval time (hours)";
        numberToString (averageApprovalTimeHours analytics)];
       ["Most active signer"; mostActiveSigner analytics];
       ["Top recipient"; topRecipient analytics];
       ["Total volume"; numberToString (totalVolume analytics)];
       ["Pending proposals"; numberToString (pendingCount analytics)] ].

(** What the hidden anchor downloads: the [Blob] and the file name. *)
Record Download : Type := mkDownload {
  fileName : string;
  mimeType : string;
  content : string
}.

(** [exportAnalyticsToCsv(analytics, filename = 'vault-analytics.csv')] *)
Definition exportAnalyticsToCsv (analytics : AggregatedAnalytics)
           (filename : option string) : Download :=
  {| fileName := Js.nullish filename "vault-analytics.csv";
     mimeType := "text/csv;charset=utf-8";
     content := formatCsv (rowsOf analytics) |}.

End WithNumbers.

End ExportAnalytics.

(** ** A reader for CSV text

    Not part of the sources: the usual reader of comma-separated values
    (cells split at commas, rows at CR LF, a cell that opens with a double
    quote runs to the closing one, with a doubled quote standing for one).
    It is what the exported text is meant for, and serves to state that the
    export can be read back. *)

Module CsvReader.

Inductive Mode : Type :=
| Start      (* at the first character of a cell *)
| Bare       (* inside an unquoted cell *)
| Quoted     (* inside a quoted cell *)
| QuoteSeen  (* after a double quote inside a quoted cell *)
| AfterCR.   (* after a CR that ends a row *)

Definition snoc (s : string) (c : ascii) : string :=
  (s ++ String c EmptyString)%string.

(** [read m cell row s]: the rows read from [s], with [cell] the characters
    of the current cell and [row] the finished cells of the current row. *)
Fixpoint read (m : Mode) (cell : string) (row : list string) (s : string)
  : list (list string) :=
  match s with
  | EmptyString => [row ++ [cell]]
  | String c rest =>
      match m with
      | Quoted =>
          if Ascii.eqb c ExportAnalytics.dquote
          then read QuoteSeen cell row rest
          else read Quoted (snoc cell c) row rest
      | AfterCR =>
          if Ascii.eqb c ExportAnalytics.lf
          then (row ++ [cell]) :: read Start EmptyString [] rest
          else read Bare (snoc (snoc cell ExportAnalytics.cr) c) row rest
      | _ =>
          if Ascii.eqb c ExportAnalytics.dquote
          then match m with
               | Start => read Quoted cell row rest
               | QuoteSeen => read Quoted (snoc cell c) row rest
               | _ => read Bare (snoc cell c) row rest
               end
          else if Ascii.eqb c ExportAnalytics.comma
          then read Start EmptyString (row ++ [cell]) rest
          else if Ascii.eqb c ExportAnalytics.cr
          then read AfterCR cell row rest
          else read Bare (snoc cell c) row rest
      end
  end.

(** The rows of a CSV text. *)
Definition readCsv (s : string) : list (list string) :=
  read Start EmptyString [] s.

(** A row without cells is written as an empty line, which reads as a row
    of one empty cell. *)
Definition asRead (row : list string) : list string :=
  match row with
  | [] => [EmptyString]
  | _ => row
  end.

(** Where a cell may end: at the end of the text, at a comma or at a CR. *)
Definition atBoundary (k : string) : Prop :=
  k = EmptyString
  \/ (exists k', k = String ExportAnalytics.comma k')
  \/ (exists k', k = String ExportAnalytics.cr k').

End CsvReader.

(** ** The toast provider ([ToastProvider], among the unnamed sources) *)

Module Toasts.

(** [interface ToastItem] *)
Record ToastItem : Type := mkToast {
  id : string;
  message : string;
  level : ToastLevel
}.

(** The [toasts] cell, the module-level [toastIdCounter], the map held by
    [dismissTimersRef] (toast id to timer handle), and the timers set with
    [setTimeout] that have not fired yet, oldest first, each with its handle
    and the toast id its callback dismisses. *)
Record State : Type := mkState {
  toasts : list ToastItem;
  toastIdCounter : Z;
  dismissTimers : list (string * Z);
  pending : list (Z * string);
  nextTimer : Z
}.

(** [useState([])], [let toastIdCounter = 0], [useRef(new Map())]; timer
    handles start at 1. *)
Definition initial : State :=
  {| toasts := []; toastIdCounter := 0; dismissTimers := [];
     pending := []; nextTimer := 1 |}.

(** [`toast-${n}`] *)
Definition toastId (n : Z) : string := ("toast-" ++ Js.show n)%string.

(** [dismissTimersRef.current.get(id)] *)
Fixpoint getTimer (timers : list (string * Z)) (key : string) : option Z :=
  match timers with
  | [] => None
  | (k, h) :: rest => if String.eqb k key then Some h else getTimer rest key
  end.

(** [clearTimeout(timer)] *)
Definition clearTimeout (timer : Z) (p : list (Z * string)) : list (Z * string) :=
  filter (fun entry => negb (fst entry =? timer)) p.

(** [dismissToast]:
    [const timer = dismissTimersRef.current.get(id);
     if (timer) clearTimeout(timer);
     setToasts((prev) => prev.filter((t) => t.id !== id));] *)
Definition dismissToast (toast : string) (st : State) : State :=
  {| toasts := filter (fun t => negb (String.eqb (id t) toast)) (toasts st);
     toastIdCounter := toastIdCounter st;
     dismissTimers := dismissTimers st;
     pending :=
       (if Js.not_number (getTimer (dismissTimers st) toast) then pending st
        else clearTimeout (Js.number_of (getTimer (dismissTimers st) toast))
                          (pending st));
     nextTimer := nextTimer st |}.

(** [showToast(message, level = 'info')]:
    [const id = `toast-${++toastIdCounter}`;
     setToasts((prev) => [...prev, { id, message, level }]);
     setTimeout(() => dismissToast(id), 5000);] *)
Definition showToast (msg : string) (lvl : option ToastLevel) (st : State) : State :=
  let counter := toastIdCounter st + 1 in
  {| toasts := toasts st ++ [ {| id := toastId counter; message := msg;
                                 level := Js.nullish lvl info |} ];
     toastIdCounter := counter;
     dismissTimers := dismissTimers st;
     pending := pending st ++ [(nextTimer st, toastId counter)];
     nextTimer := nextTimer st + 1 |}.

(** [notify(_eventType, message, level = 'info')]:
    [const prefs = Notifications.loadNotificationPreferences();
     if (prefs.frequency === 'off') return;
     showToast(message, level);]
    The stored preference is read at every call; [frequency] is what is
    read. *)
Definition notify (frequency : string) (eventType msg : string)
           (lvl : option ToastLevel) (st : State) : State :=
  if String.eqb frequency "off" then st else showToast msg lvl st.

(** [sendTestNotification]: [showToast('Test notification', 'info')] *)
Definition sendTestNotification (st : State) : State :=
  showToast "Test notification" (Some info) st.

(** The oldest timer fires (all are set for 5000 ms, so they fire in the
    order they were set): its callback [dismissToast(id)] runs. *)
Definition timerFires (st : State) : State :=
  match pending st with
  | [] => st
  | (_, toast) :: rest =>
      dismissToast toast
        {| toasts := toasts st; toastIdCounter := toastIdCounter st;
           dismissTimers := dismissTimers st; pending := rest;
           nextTimer := nextTimer st |}
  end.

(** What can happen to the provider: one of the two functions it hands out
    is called, or a timer fires. *)
Inductive Event : Type :=
| CallNotify (frequency eventType msg : string) (lvl : option ToastLevel)
| CallSendTestNotification
| TimerFires.

Definition run (e : Event) (st : State) : State :=
  match e with
  | CallNotify frequency eventType msg lvl => notify frequency eventType msg lvl st
  | CallSendTestNotification => sendTestNotification st
  | TimerFires => timerFires st
  end.

(** The state after a sequence of events, oldest first. *)
Definition runAll (events : list Event) (st : State) : State :=
  fold_left (fun acc e => run e acc) events st.


(** The numbers of the toasts on screen: increasing, positive, none above
    the counter. *)
Fixpoint numbered (low : Z) (ns : list Z) (high : Z) : Prop :=
  match ns with
  | [] => low <= high
  | n :: rest => low < n /\ numbered n rest high
  end.

(** What holds of every state the provider reaches: no timer handle is ever
    stored, the toast ids are numbered as above, and the toasts on screen are
    exactly the toasts of the timers still to fire, in the same order. *)
Definition invariant (st : State) : Prop :=
  dismissTimers st = []
  /\ (exists ns, map id (toasts st) = map toastId ns
                 /\ numbered 0 ns (toastIdCounter st))
  /\ map id (toasts st) = map snd (pending st).

End Toasts.

(** ** The wallet provider ([WalletProvider], among the unnamed sources) *)

Module Wallet.

(** What leaves the provider besides its cells. *)
Inductive Out : Type :=
| ConsoleError (text : string)
| WindowOpen (url target : string).

(** The cells [isInstalled], [connected], [address], [network] and [toast],
    the two refs, the entry [wallet_connected] of [localStorage], and the
    log of outside calls. *)
Record State : Type := mkState {
  isInstalled : bool;
  connected : bool;
  address : option string;
  network : option string;
  addressRef : option string;
  networkRef : option string;
  toast : option (string * string);
  walletConnected : option string;
  log : list Out
}.

(** The initial cells; [stored] is what [localStorage] holds from earlier
    sessions. *)
Definition initial (stored : option string) : State :=
  {| isInstalled := false; connected := false; address := None;
     network := None; addressRef := None; networkRef := None;
     toast := None; walletConnected := stored; log := [] |}.

(** The outcome of awaiting a call of the Freighter API. *)
Inductive Outcome (A : Type) : Type :=
| Returns (a : A)
| Fails.
Arguments Returns {A} a.
Arguments Fails {A}.

(** What the Freighter API answers during one run of a handler (each
    function is called at most once per run): [isConnected()],
    [isAllowed()], [setAllowed()], the [publicKey] of [getUserInfo()] (absent
    when there is no user info or no key) and [getNetwork()]. *)
Record Freighter : Type := mkFreighter {
  isConnected : Outcome bool;
  isAllowed : Outcome bool;
  setAllowed : Outcome bool;
  getUserInfo : Outcome (option string);
  getNetwork : Outcome (option string)
}.

(** [a !== b] on [string | null]. *)
Definition differs (a b : option string) : bool :=
  match a, b with
  | None, None => false
  | Some x, Some y => negb (String.eqb x y)
  | _, _ => true
  end.

Definition setInstalled (v : bool) (st : State) : State :=
  {| isInstalled := v; connected := connected st; address := address st;
     network := network st; addressRef := addressRef st;
     networkRef := networkRef st; toast := toast st;
     walletConnected := walletConnected st; log := log st |}.

Definition out (o : Out) (st : State) : State :=
  {| isInstalled := isInstalled st; connected := connected st;
     address := address st; network := network st;
     addressRef := addressRef st; networkRef := networkRef st;
     toast := toast st; walletConnected := walletConnected st;
     log := log st ++ [o] |}.

(** [showToast(message, type)]: [setToast({ message, type })] *)
Definition showToast (text type : string) (st : State) : State :=
  {| isInstalled := isInstalled st; connected := connected st;
     address := address st; network := network st;
     addressRef := addressRef st; networkRef := networkRef st;
     toast := Some (text, type);
     walletConnected := walletConnected st; log := log st |}.

(** [clearToast]: [setToast(null)] *)
Definition clearToast (st : State) : State :=
  {| isInstalled := isInstalled st; connected := connected st;
     address := address st; network := network st;
     addressRef := addressRef st; networkRef := networkRef st;
     toast := None;
     walletConnected := walletConnected st; log := log st |}.

(** [setNetwork(n); networkRef.current = n] *)
Definition setNetworkBoth (n : option string) (st : State) : State :=
  {| isInstalled := isInstalled st; connected := connected st;
     address := address st; network := n;
     addressRef := addressRef st; networkRef := n;
     toast := toast st;
     walletConnected := walletConnected st; log := log st |}.

(** [setAddress(pk); addressRef.current = pk; setConnected(true)] *)
Definition setConnectedAs (pk : string) (st : State) : State :=
  {| isInstalled := isInstalled st; connected := true;
     address := Some pk; network := network st;
     addressRef := Some pk; networkRef := networkRef st;
     toast := toast st;
     walletConnected := walletConnected st; log := log st |}.

(** [setAddress(null); addressRef.current = null; setConnected(false);
     localStorage.removeItem("wallet_connected")] *)
Definition dropConnection (st : State) : State :=
  {| isInstalled := isInstalled st; connected := false;
     address := None; network := network st;
     addressRef := None; networkRef := networkRef st;
     toast := toast st;
     walletConnected := None; log := log st |}.

(** [localStorage.setItem("wallet_connected", "true")] *)
Definition storeConnected (st : State) : State :=
  {| isInstalled := isInstalled st; connected := connected st;
     address := address st; network := network st;
     addressRef := addressRef st; networkRef := networkRef st;
     toast := toast st;
     walletConnected := Some "true"; log := log st |}.

(** [checkInstallation]:
    [try { const installed = await isConnected();
           setIsInstalled(!!installed); return !!installed; }
     catch { console.error("Installation check failed"); return false; }] *)
Definition checkInstallation (fr : Freighter) (st : State) : bool * State :=
  match isConnected fr with
  | Returns installed => (installed, setInstalled installed st)
  | Fails => (false, out (ConsoleError "Installation check failed") st)
  end.

(** [validateNetwork].  The callback closes over the cell [connected]; the
    value it sees, [seenConnected], is the one of the render that made the
    callback, not one set since.
    [try { const currentNetwork = await getNetwork();
           if (currentNetwork !== networkRef.current) {
             setNetwork(currentNetwork); networkRef.current = currentNetwork;
             if (currentNetwork && currentNetwork !== "TESTNET" && connected)
               showToast("Please switch to Stellar Testnet in Freighter", "warning");
           }
           return currentNetwork; }
     catch { return null; }] *)
Definition validateNetwork (seenConnected : bool) (fr : Freighter) (st : State)
  : option string * State :=
  match getNetwork fr with
  | Returns currentNetwork =>
      if differs currentNetwork (networkRef st)
      then
        let st1 := setNetworkBoth currentNetwork st in
        (currentNetwork,
         if negb (Js.not_string currentNetwork)
            && differs currentNetwork (Some "TESTNET")
            && seenConnected
         then showToast "Please switch to Stellar Testnet in Freighter" "warning" st1
         else st1)
      else (currentNetwork, st)
  | Fails => (None, st)
  end.

(** [updateWalletState]:
    [try { const allowed = await isAllowed();
           if (allowed) {
             const userInfo = await getUserInfo();
             if (userInfo?.publicKey) {
               if (userInfo.publicKey !== addressRef.current) {
                 setAddress(...); addressRef.current = ...; setConnected(true);
               }
               await validateNetwork();
               return true;
             }
           }
           setAddress(null); addressRef.current = null; setConnected(false);
           localStorage.removeItem("wallet_connected"); }
     catch { console.error("Failed to update wallet state"); }
     return false;] *)
Definition updateWalletState (seenConnected : bool) (fr : Freighter) (st : State)
  : bool * State :=
  let failed := (false, out (ConsoleError "Failed to update wallet state") st) in
  match isAllowed fr with
  | Fails => failed
  | Returns false => (false, dropConnection st)
  | Returns true =>
      match getUserInfo fr with
      | Fails => failed
      | Returns publicKey =>
          if Js.not_string publicKey then (false, dropConnection st)
          else
            let pk := Js.nullish publicKey EmptyString in
            let st1 := if differs (Some pk) (addressRef st)
                       then setConnectedAs pk st else st in
            (true, snd (validateNetwork seenConnected fr st1))
      end
  end.

(** The effect's [init]:
    [if (await checkInstallation()
         && localStorage.getItem("wallet_connected") === "true")
       await updateWalletState();] *)
Definition init (fr : Freighter) (st : State) : State :=
  let (installed, st1) := checkInstallation fr st in
  if installed && negb (differs (walletConnected st1) (Some "true"))
  then snd (updateWalletState (connected st) fr st1)
  else st1.

(** The interval's callback, every 3000 ms:
    [if (await isConnected()) await updateWalletState();]
    A failing [isConnected()] rejects the callback's promise and changes
    nothing. *)
Definition poll (fr : Freighter) (st : State) : State :=
  match isConnected fr with
  | Returns true => snd (updateWalletState (connected st) fr st)
  | Returns false => st
  | Fails => st
  end.

(** [connect]:
    [if (!isInstalled && !(await checkInstallation())) {
       showToast("Freighter wallet not found.", "error");
       window.open("https://www.freighter.app/", "_blank"); return; }
     try { if (await setAllowed()) { if (await updateWalletState()) {
             localStorage.setItem("wallet_connected", "true");
             showToast("Wallet connected!", "success"); } } }
     catch { showToast("Connection failed", "error"); }] *)
Definition connect (fr : Freighter) (st : State) : State :=
  let (found, st1) :=
    if isInstalled st then (true, st) else checkInstallation fr st in
  if negb found
  then out (WindowOpen "https://www.freighter.app/" "_blank")
           (showToast "Freighter wallet not found." "error" st1)
  else
    match setAllowed fr with
    | Fails => showToast "Connection failed" "error" st1
    | Returns false => st1
    | Returns true =>
        let (updated, st2) := updateWalletState (connected st) fr st1 in
        if updated
        then showToast "Wallet connected!" "success" (storeConnected st2)
        else st2
    end.

(** [disconnect] *)
Definition disconnect (st : State) : State :=
  {| isInstalled := isInstalled st; connected := false;
     address := None; network := None;
     addressRef := None; networkRef := None;
     toast := Some ("Wallet disconnected", "info");
     walletConnected := None; log := log st |}.

(** What can happen to the provider. *)
Inductive Event : Type :=
| Init (fr : Freighter)
| Poll (fr : Freighter)
| Connect (fr : Freighter)
| Disconnect
| ClearToast.

Definition run (e : Event) (st : State) : State :=
  match e with
  | Init fr => init fr st
  | Poll fr => poll fr st
  | Connect fr => connect fr st
  | Disconnect => disconnect st
  | ClearToast => clearToast st
  end.

Definition runAll (events : list Event) (st : State) : State :=
  fold_left (fun acc e => run e acc) events st.

(** The cells agree with each other: the refs mirror their cells, and the
    wallet counts as connected exactly when it has an address, which is then
    not empty. *)
Definition consistent (st : State) : Prop :=
  addressRef st = address st
  /\ networkRef st = network st
  /\ (connected st = true ->
      exists pk, address st = Some pk /\ pk <> EmptyString)
  /\ (connected st = false -> address st = None).

(** What the dashboard reads from [useWallet()]. *)
Definition envOf (st : State) (role : UserRole) (busy : bool) : Env :=
  mkEnv (connected st) (address st) role busy.

End Wallet.

(** ** The balance card of the overview ([Overview], third component of
    [Proposals.tsx]) *)

Module Overview.

(** The cells [balance], [balanceLoading], [balanceError] and [lastUpdated]
    (a [Date], here a time stamp in milliseconds). *)
Record State : Type := mkState {
  balance : string;
  balanceLoading : bool;
  balanceError : option string;
  lastUpdated : option Z
}.

(** [useState('0')], [useState(false)], [useState(null)], [useState(null)] *)
Definition initial : State :=
  {| balance := "0"; balanceLoading := false;
     balanceError := None; lastUpdated := None |}.

(** The outcome of [await getVaultBalance()]. *)
Inductive Fetch : Type :=
| Fetched (balanceInStroops : string)
| FetchFails.

(** [fetchBalance] up to the [await]:
    [setBalanceLoading(true); setBalanceError(null);] *)
Definition fetchBalanceStart (st : State) : State :=
  {| balance := balance st; balanceLoading := true;
     balanceError := None; lastUpdated := lastUpdated st |}.

(** [fetchBalance] from the [await] on:
    [try { setBalance(balanceInStroops); setLastUpdated(new Date()); }
     catch { console.error(...); setBalanceError('Failed to load balance'); }
     finally { setBalanceLoading(false); }] *)
Definition fetchBalanceSettle (outcome : Fetch) (now : Z) (st : State) : State :=
  match outcome with
  | Fetched balanceInStroops =>
      {| balance := balanceInStroops; balanceLoading := false;
         balanceError := balanceError st; lastUpdated := Some now |}
  | FetchFails =>
      {| balance := balance st; balanceLoading := false;
         balanceError := Some "Failed to load balance";
         lastUpdated := lastUpdated st |}
  end.

(** [fetchBalance] is asynchronous and can be started again before an
    earlier run has settled (the effect on mount, the Refresh button and the
    Retry link all call it).  What happens to the cells is therefore a
    sequence of starts and settlements in any order. *)
Inductive Event : Type :=
| Starts
| Settles (outcome : Fetch) (now : Z).

Definition run (e : Event) (st : State) : State :=
  match e with
  | Starts => fetchBalanceStart st
  | Settles outcome now => fetchBalanceSettle outcome now st
  end.

(** The cells after a sequence of events, oldest first. *)
Definition runAll (events : list Event) (st : State) : State :=
  fold_left (fun acc e => run e acc) events st.

(** What the card shows in place of the amount:
    [balanceError ? error text and Retry
     : balanceLoading ? spinner : formatTokenAmount(balance)]. *)
Inductive Shown : Type :=
| ShowError (text : string)
| ShowSpinner
| ShowAmount (balanceInStroops : string).

Definition shown (st : State) : Shown :=
  match balanceError st with
  | Some text => ShowError text
  | None => if balanceLoading st then ShowSpinner else ShowAmount (balance st)
  end.

(** The last successful settlement of a sequence, if any: its amount and
    its time. *)
Fixpoint lastFetched (events : list Event) (found : option (string * Z))
  : option (string * Z) :=
  match events with
  | [] => found
  | Settles (Fetched b) t :: rest => lastFetched rest (Some (b, t))
  | _ :: rest => lastFetched rest found
  end.

(** Whether a run has failed since the last start. *)
Fixpoint failedSinceStart (events : list Event) (failed : bool) : bool :=
  match events with
  | [] => failed
  | Starts :: rest => failedSinceStart rest false
  | Settles FetchFails _ :: rest => failedSinceStart rest true
  | Settles (Fetched _) _ :: rest => failedSinceStart rest failed
  end.

End Overview.

(** ** Further sample values *)

(** Lower case for the letters A to Z, every other character kept. *)
Definition asciiLower (c : ascii) : ascii :=
  let n := nat_of_ascii c in
  if ((65 <=? n) && (n <=? 90))%nat then ascii_of_nat (n + 32) else c.

Fixpoint lowerAscii (s : string) : string :=
  match s with
  | EmptyString => EmptyString
  | String c rest => String (asciiLower c) (lowerAscii rest)
  end.

(** The mock proposal of the list component. *)
Definition listPending : ListView.Proposal :=
  {| ListView.id := "1"; ListView.title := "Liquidity Pool Expansion";
     ListView.description := "Adding 100 ETH to LP";
     ListView.status := "Pending"; ListView.creator := "0x123";
     ListView.recipient := "0xabc"; ListView.createdAt := "2026-02-21";
     ListView.approvals := 1; ListView.amount := Some "100" |}.

Definition listPendingSelected : ListView.Ui :=
  {| ListView.proposals := [listPending];
     ListView.showRejectModal := true;
     ListView.rejectingId := Some "1" |}.

(** The filter a user sets to see pending proposals only. *)
Definition pendingOnly : ListFilter.FilterState :=
  {| ListFilter.search := EmptyString; ListFilter.statuses := ["Pending"];
     ListFilter.dateRange := (EmptyString, EmptyString);
     ListFilter.amountRange := (EmptyString, EmptyString);
     ListFilter.sortBy := "newest" |}.

(** The list component showing an executed proposal (id 2) and a pending one
    (id 1), the dialog closed. *)
Definition listExecutedAndPending : ListView.Ui :=
  {| ListView.proposals :=
       [ {| ListView.id := "2"; ListView.title := "Validator payout";
            ListView.description := "Monthly payout";
            ListView.status := "Executed"; ListView.creator := "0x123";
            ListView.recipient := "0xdef"; ListView.createdAt := "2026-02-20";
            ListView.approvals := 3; ListView.amount := Some "40" |};
         listPending ];
     ListView.showRejectModal := false;
     ListView.rejectingId := None |}.

(** ** Timelock and threshold: properties *)

Lemma Status_eqb_eq (a b : Status) : Status_eqb a b = true <-> a = b.
Proof. destruct a, b; simpl; split; congruence. Qed.

Lemma Status_eqb_refl (a : Status) : Status_eqb a a = true.
Proof. now apply Status_eqb_eq. Qed.

Lemma Status_eqb_neq (a b : Status) : a <> b -> Status_eqb a b = false.
Proof.
  intros Hne. destruct (Status_eqb a b) eqn:E; [|reflexivity].
  apply Status_eqb_eq in E. contradiction.
Qed.

(** The guard and the arithmetic of [getLedgersRemaining], case by case. *)
Lemma getLedgersRemaining_cases (p : Proposal) :
  getLedgersRemaining p =
    match unlockLedger p with
    | None => 0
    | Some u =>
        if u =? 0 then 0
        else Z.max 0 (u - match currentLedger p with Some c => c | None => 0 end)
    end.
Proof.
  unfold getLedgersRemaining, Js.not_number, Js.strict_eq_number,
    Js.number_of, Js.nullish.
  destruct (unlockLedger p) as [u|]; [|reflexivity].
  destruct (u =? 0); reflexivity.
Qed.

Lemma getLedgersRemaining_nonneg (p : Proposal) : 0 <= getLedgersRemaining p.
Proof.
  rewrite getLedgersRemaining_cases.
  destruct (unlockLedger p) as [u|]; [|lia].
  destruct (u =? 0); lia.
Qed.

Lemma canExecuteProposal_true (p : Proposal) :
  canExecuteProposal p = true <->
  status p = Approved /\ approvals p >= threshold p /\ isTimelockExpired p = true.
Proof.
  unfold canExecuteProposal.
  rewrite !andb_true_iff, Status_eqb_eq, Z.geb_le. intuition lia.
Qed.

(** C1. [canExecuteProposal], for a proposal seen at block height [b], is
    true exactly when the status is Approved, the approvals reach the
    threshold and the timelock has expired; with fewer approvals than the
    threshold it is false at every block height. *)
Theorem canExecuteProposal_iff (p : Proposal) (b : Z) :
  (canExecuteProposal (atLedger p b) = true <->
     status p = Approved /\ approvals p >= threshold p
     /\ isTimelockExpired (atLedger p b) = true)
  /\ (approvals p < threshold p -> canExecuteProposal (atLedger p b) = false).
Proof.
  split.
  - apply (canExecuteProposal_true (atLedger p b)).
  - intros Hlt.
    destruct (canExecuteProposal (atLedger p b)) eqn:E; [|reflexivity].
    apply canExecuteProposal_true in E. simpl in E. lia.
Qed.

Lemma canExecuteProposal_iff_witness :
  approvals proposal1 < threshold proposal1
  /\ canExecuteProposal (atLedger proposal1 1000) = false.
Proof.
  split.
  - vm_compute. reflexivity.
  - apply (proj2 (canExecuteProposal_iff proposal1 1000)). vm_compute. reflexivity.
Defined.

(** C2. For a proposal seen at block height [b], [getLedgersRemaining] is
    [max(0, unlockLedger - b)] when the unlock ledger is non-zero and [0] when
    it is zero or absent; the result depends on nothing but these two
    fields. *)
Theorem getLedgersRemaining_spec (p : Proposal) (b : Z) :
  (forall u, unlockLedger p = Some u -> u <> 0 ->
             getLedgersRemaining (atLedger p b) = Z.max 0 (u - b))
  /\ (unlockLedger p = Some 0 \/ unlockLedger p = None ->
      getLedgersRemaining (atLedger p b) = 0)
  /\ (forall q, unlockLedger q = unlockLedger p -> currentLedger q = Some b ->
                getLedgersRemaining q = getLedgersRemaining (atLedger p b)).
Proof.
  repeat split.
  - intros u Hu Hnz. rewrite getLedgersRemaining_cases. simpl. rewrite Hu.
    destruct (Z.eqb_spec u 0); [contradiction|reflexivity].
  - intros [H0|Hnone]; rewrite getLedgersRemaining_cases; simpl.
    + rewrite H0. reflexivity.
    + rewrite Hnone. reflexivity.
  - intros q Hu Hc. rewrite !getLedgersRemaining_cases. simpl.
    rewrite Hu, Hc. reflexivity.
Qed.

Lemma getLedgersRemaining_spec_witness :
  unlockLedger proposal3 = Some 1500 /\ 1500 <> 0
  /\ getLedgersRemaining (atLedger proposal3 1200) = Z.max 0 (1500 - 1200).
Proof.
  split; [reflexivity|]. split; [lia|].
  apply (proj1 (getLedgersRemaining_spec proposal3 1200) 1500); [reflexivity|lia].
Defined.

(** C3. [isTimelockExpired] is the test [getLedgersRemaining = 0]; a proposal
    whose unlock ledger is 0 is timelock-expired at every block height. *)
Theorem isTimelockExpired_spec (p : Proposal) (b : Z) :
  isTimelockExpired (atLedger p b) = (getLedgersRemaining (atLedger p b) =? 0)
  /\ (unlockLedger p = Some 0 -> isTimelockExpired (atLedger p b) = true).
Proof.
  split; [reflexivity|].
  intros H0. unfold isTimelockExpired.
  rewrite getLedgersRemaining_cases. simpl. rewrite H0. reflexivity.
Qed.

Lemma isTimelockExpired_spec_witness :
  unlockLedger proposal2 = Some 0
  /\ isTimelockExpired (atLedger proposal2 7) = true.
Proof.
  split; [reflexivity|].
  apply (proj2 (isTimelockExpired_spec proposal2 7)). reflexivity.
Defined.

(** C4. [getLedgersRemaining] does not grow when the block height grows, and
    it is never negative. *)
Theorem getLedgersRemaining_antitone (p : Proposal) (b1 b2 : Z) :
  b1 <= b2 ->
  getLedgersRemaining (atLedger p b2) <= getLedgersRemaining (atLedger p b1)
  /\ 0 <= getLedgersRemaining (atLedger p b1)
  /\ 0 <= getLedgersRemaining (atLedger p b2).
Proof.
  intros Hle. split; [|split; apply getLedgersRemaining_nonneg].
  rewrite !getLedgersRemaining_cases. simpl.
  destruct (unlockLedger p) as [u|]; [|lia].
  destruct (u =? 0); lia.
Qed.

Lemma getLedgersRemaining_antitone_witness :
  1200 <= 1400
  /\ getLedgersRemaining (atLedger proposal3 1400)
     <= getLedgersRemaining (atLedger proposal3 1200).
Proof.
  split; [lia|].
  apply (getLedgersRemaining_antitone proposal3 1200 1400). lia.
Defined.

(** Outside the range of ledger sequences the floor of [Math.max] shows:
    for a negative unlock ledger and no current ledger the remaining count is
    0 and the timelock counts as expired. *)
Example negative_unlock_is_floored :
  getLedgersRemaining negativeUnlock = 0
  /\ isTimelockExpired negativeUnlock = true.
Proof. split; reflexivity. Qed.

(** C10. For a proposal whose unlock ledger is a non-zero ledger sequence
    (ledger sequences are not negative) and whose current ledger is absent,
    the current ledger counts as 0: the remaining count is the unlock ledger
    itself, the timelock is not expired and the proposal cannot be
    executed. *)
Theorem absent_currentLedger_keeps_lock (p : Proposal) (u : Z) :
  unlockLedger p = Some u -> 0 <= u -> u <> 0 -> currentLedger p = None ->
  getLedgersRemaining p = u
  /\ isTimelockExpired p = false
  /\ canExecuteProposal p = false.
Proof.
  intros Hu Hnonneg Hnz Hc.
  assert (Hlr : getLedgersRemaining p = u).
  { rewrite getLedgersRemaining_cases, Hu, Hc.
    destruct (Z.eqb_spec u 0); lia. }
  assert (Hexp : isTimelockExpired p = false).
  { unfold isTimelockExpired. rewrite Hlr. now apply Z.eqb_neq. }
  repeat split; trivial.
  unfold canExecuteProposal. rewrite Hexp. apply andb_false_r.
Qed.

Lemma absent_currentLedger_keeps_lock_witness :
  unlockLedger proposal3NoLedger = Some 1500 /\ 0 <= 1500 /\ 1500 <> 0
  /\ currentLedger proposal3NoLedger = None
  /\ getLedgersRemaining proposal3NoLedger = 1500
  /\ isTimelockExpired proposal3NoLedger = false
  /\ canExecuteProposal proposal3NoLedger = false.
Proof.
  split; [reflexivity|]. split; [lia|]. split; [lia|]. split; [reflexivity|].
  apply (absent_currentLedger_keeps_lock proposal3NoLedger 1500);
    [reflexivity|lia|lia|reflexivity].
Defined.

(** ** Reject permission: properties *)

Lemma UserRole_eqb_eq (a b : UserRole) : UserRole_eqb a b = true <-> a = b.
Proof. destruct a, b; simpl; split; congruence. Qed.

Lemma not_string_true (s : option string) :
  Js.not_string s = true <-> s = None \/ s = Some EmptyString.
Proof.
  destruct s as [v|]; simpl.
  - rewrite String.eqb_eq. split.
    + intros ->. now right.
    + intros [H|H]; congruence.
  - split; auto.
Qed.

Lemma canRejectProposal_true (env : Env) (p : Proposal) :
  canRejectProposal env p = true <->
  isConnected env = false \/ address env = None \/ address env = Some EmptyString
  \/ address env = Some (proposer p) \/ userRole env = Admin.
Proof.
  unfold canRejectProposal.
  destruct (isConnected env); simpl.
  2: { split; auto. }
  destruct (Js.not_string (address env)) eqn:Hfalsy.
  - apply not_string_true in Hfalsy. split; [|reflexivity].
    intros _. destruct Hfalsy; auto.
  - destruct (address env) as [a|] eqn:Ha; [|discriminate].
    simpl in *. rewrite orb_true_iff, String.eqb_eq, UserRole_eqb_eq.
    split.
    + intros [->|H]; auto.
    + intros [H|[H|[H|[H|H]]]]; try discriminate; auto.
      * inversion H; subst. rewrite String.eqb_refl in Hfalsy. discriminate.
      * inversion H; subst. auto.
Qed.

Lemma rejectButton_rendered (env : Env) (u : Ui) (p : Proposal) :
  rejectButton (renderProposal env u p) <> None <->
  status p = Pending /\ canRejectProposal env p = true.
Proof.
  unfold renderProposal; simpl.
  rewrite <- (Status_eqb_eq (status p) Pending), <- andb_true_iff.
  destruct (Status_eqb (status p) Pending && canRejectProposal env p);
    split; try congruence; intros H; discriminate.
Qed.

(** C5, as stated, fails: [canRejectProposal] does not look at the status, so
    it answers true for an executed proposal when the connected wallet is the
    proposer's. *)
Lemma canRejectProposal_ignores_status :
  ~ (forall env p,
       canRejectProposal env p = true <->
       status p = Pending
       /\ (address env = Some (proposer p) \/ userRole env = Admin)).
Proof.
  intros H.
  destruct (proj1 (H connectedProposer executedProposal)) as [Hst _];
    [reflexivity|discriminate Hst].
Qed.

(** The demo-mode guard: with no wallet connected everybody may reject. *)
Example canRejectProposal_demo_mode :
  canRejectProposal disconnected proposal1 = true.
Proof. reflexivity. Qed.

(** C5, amended. [canRejectProposal] is true exactly when no wallet is
    connected or the wallet has no address (demo mode), or the wallet's
    address is the proposer, or the user role is Admin; it does not depend on
    the status.  The Reject button is rendered exactly when the status is
    Pending and [canRejectProposal] holds, so through the view only pending
    proposals are rejectable. *)
Theorem canRejectProposal_iff (env : Env) (u : Ui) (p : Proposal) :
  (canRejectProposal env p = true <->
     isConnected env = false \/ address env = None
     \/ address env = Some EmptyString
     \/ address env = Some (proposer p) \/ userRole env = Admin)
  /\ (forall s, canRejectProposal env (setStatus p s) = canRejectProposal env p)
  /\ (rejectButton (renderProposal env u p) <> None <->
        status p = Pending /\ canRejectProposal env p = true).
Proof.
  split; [apply canRejectProposal_true|].
  split; [reflexivity|apply rejectButton_rendered].
Qed.

Lemma canRejectProposal_iff_witness :
  (address connectedProposer = Some (proposer proposal1)
   /\ status proposal1 = Pending)
  /\ rejectButton (renderProposal connectedProposer initialUi proposal1) <> None.
Proof.
  split; [split; reflexivity|].
  assert (Hc : canRejectProposal connectedProposer proposal1 = true).
  { apply (proj1 (canRejectProposal_iff connectedProposer initialUi proposal1)).
    right. right. right. left. reflexivity. }
  apply (proj2 (proj2 (canRejectProposal_iff connectedProposer initialUi proposal1))).
  split; [reflexivity|exact Hc].
Defined.

(** ** Handlers: what a run leaves behind *)

Ltac run_handler :=
  unfold exec, handleRejectConfirm, handleRejectCancel, handleRejectClick,
    handleExecuteClick, bind, ret, getSelectedProposal, awaitRejectProposal,
    awaitExecuteProposal, setProposals, setSelectedProposal,
    setShowRejectModal, setExecutingId, notify, consoleLog, emit, modifyUi;
  simpl.

Lemma handleRejectClick_run (i : Z) (w : World) :
  exec (handleRejectClick i) w =
  {| ui := {| proposals := proposals (ui w); selectedProposal := Some i;
              showRejectModal := true; executingId := executingId (ui w) |};
     effects := effects w |}.
Proof. reflexivity. Qed.

Lemma handleRejectCancel_run (w : World) :
  exec handleRejectCancel w =
  {| ui := {| proposals := proposals (ui w); selectedProposal := None;
              showRejectModal := false; executingId := executingId (ui w) |};
     effects := effects w |}.
Proof. reflexivity. Qed.

Lemma handleRejectConfirm_nothing_selected
      (contract : Contract) (reason : option string) (w : World) :
  selectedProposal (ui w) = None ->
  exec (handleRejectConfirm contract reason) w = w.
Proof. intros Hsel. run_handler. rewrite Hsel. reflexivity. Qed.

Lemma handleRejectConfirm_fulfilled
      (contract : Contract) (reason : option string) (w : World)
      (i : Z) (txHash : string) :
  selectedProposal (ui w) = Some i ->
  rejectProposal contract i = Fulfilled txHash ->
  exec (handleRejectConfirm contract reason) w =
  {| ui := {| proposals := markStatus i Rejected (proposals (ui w));
              selectedProposal := None;
              showRejectModal := false; executingId := executingId (ui w) |};
     effects := effects w ++
       [ CallRejectProposal i;
         Notify "proposal_rejected"
                ("Proposal #" ++ Js.show i ++ " rejected successfully")%string
                success;
         ConsoleLog "Rejection reason:" reason;
         ConsoleLog "Transaction hash:" (Some txHash) ] |}.
Proof.
  intros Hsel Hok. run_handler. rewrite Hsel, Hok. simpl.
  rewrite <- !app_assoc. reflexivity.
Qed.

Lemma handleRejectConfirm_throws
      (contract : Contract) (reason : option string) (w : World)
      (i : Z) (e : Thrown) :
  selectedProposal (ui w) = Some i ->
  rejectProposal contract i = Throws e ->
  exec (handleRejectConfirm contract reason) w =
  {| ui := {| proposals := proposals (ui w);
              selectedProposal := None;
              showRejectModal := false; executingId := executingId (ui w) |};
     effects := effects w ++
       [ CallRejectProposal i;
         Notify "proposal_rejected"
                (errorMessage e "Failed to reject proposal") error ] |}.
Proof.
  intros Hsel Hko. run_handler. rewrite Hsel, Hko. simpl.
  rewrite <- !app_assoc. reflexivity.
Qed.

Lemma handleExecuteClick_fulfilled
      (contract : Contract) (w : World) (i : Z) (txHash : string) :
  executeProposal contract i = Fulfilled txHash ->
  exec (handleExecuteClick contract i) w =
  {| ui := {| proposals := markStatus i Executed (proposals (ui w));
              selectedProposal := selectedProposal (ui w);
              showRejectModal := showRejectModal (ui w);
              executingId := None |};
     effects := effects w ++
       [ CallExecuteProposal i;
         Notify "proposal_executed"
                ("Proposal #" ++ Js.show i
                   ++ " executed — funds transferred successfully")%string
                success;
         ConsoleLog "Execution tx hash:" (Some txHash) ] |}.
Proof.
  intros Hok. run_handler. rewrite Hok. simpl.
  rewrite <- !app_assoc. reflexivity.
Qed.

Lemma handleExecuteClick_throws
      (contract : Contract) (w : World) (i : Z) (e : Thrown) :
  executeProposal contract i = Throws e ->
  exec (handleExecuteClick contract i) w =
  {| ui := {| proposals := proposals (ui w);
              selectedProposal := selectedProposal (ui w);
              showRejectModal := showRejectModal (ui w);
              executingId := None |};
     effects := effects w ++
       [ CallExecuteProposal i;
         Notify "proposal_executed"
                (errorMessage e "Failed to execute proposal") error ] |}.
Proof.
  intros Hko. run_handler. rewrite Hko. simpl.
  rewrite <- !app_assoc. reflexivity.
Qed.

(** ** Failing submissions *)

(** C7, as stated, fails on its second half: when the collaborator throws a
    value that is not an [Error], here the string "User declined access", the
    text it threw reaches nobody; [notify] gets the fixed fallback text. *)
Lemma thrown_text_is_not_always_surfaced :
  ~ (forall contract reason w i e,
       selectedProposal (ui w) = Some i ->
       rejectProposal contract i = Throws e ->
       proposals (ui (exec (handleRejectConfirm contract reason) w))
         = proposals (ui w)
       /\ In (Notify "proposal_rejected" (thrownText e) error)
             (effects (exec (handleRejectConfirm contract reason) w))).
Proof.
  intros H.
  destruct (H throwsString None pendingSelected 1 (NonError "User declined access"))
    as [_ Hin]; [reflexivity|reflexivity|].
  vm_compute in Hin.
  destruct Hin as [Hin|[Hin|[]]]; discriminate Hin.
Qed.

(** C7, amended. When the collaborator throws during a reject or an execute,
    the list of proposals is the same after the handler as before it, and the
    handler makes exactly one [notify] call at level error: with the thrown
    [Error]'s message, verbatim, when the thrown value is an [Error], and with
    the fixed text "Failed to reject proposal" or "Failed to execute proposal"
    otherwise. *)
Theorem failed_submission_keeps_proposals
        (contract : Contract) (reason : option string) (w : World)
        (i : Z) (e : Thrown) :
  (selectedProposal (ui w) = Some i ->
   rejectProposal contract i = Throws e ->
   proposals (ui (exec (handleRejectConfirm contract reason) w))
     = proposals (ui w)
   /\ effects (exec (handleRejectConfirm contract reason) w)
      = effects w ++
        [ CallRejectProposal i;
          Notify "proposal_rejected"
                 match e with
                 | ErrorInstance message => message
                 | NonError _ => "Failed to reject proposal"
                 end error ])
  /\ (executeProposal contract i = Throws e ->
      proposals (ui (exec (handleExecuteClick contract i) w))
        = proposals (ui w)
      /\ effects (exec (handleExecuteClick contract i) w)
         = effects w ++
           [ CallExecuteProposal i;
             Notify "proposal_executed"
                    match e with
                    | ErrorInstance message => message
                    | NonError _ => "Failed to execute proposal"
                    end error ]).
Proof.
  split.
  - intros Hsel Hko.
    rewrite (handleRejectConfirm_throws contract reason w i e Hsel Hko).
    split; reflexivity.
  - intros Hko.
    rewrite (handleExecuteClick_throws contract w i e Hko).
    split; reflexivity.
Qed.

Lemma failed_submission_keeps_proposals_witness :
  (selectedProposal (ui pendingSelected) = Some 1
   /\ rejectProposal throwsError 1
      = Throws (ErrorInstance "Transaction simulation failed"))
  /\ proposals (ui (exec (handleRejectConfirm throwsError None) pendingSelected))
     = mockProposals
  /\ effects (exec (handleRejectConfirm throwsError None) pendingSelected)
     = [ CallRejectProposal 1;
         Notify "proposal_rejected" "Transaction simulation failed" error ].
Proof.
  split; [split; reflexivity|].
  apply (proj1 (failed_submission_keeps_proposals
                  throwsError None pendingSelected 1
                  (ErrorInstance "Transaction simulation failed")));
    reflexivity.
Defined.

(** ** The transition system: what user actions can do to a proposal *)

Lemma markStatus_ids (i : Z) (s : Status) (l : list Proposal) :
  map id (markStatus i s l) = map id l.
Proof.
  unfold markStatus. rewrite map_map. apply map_ext.
  intros p. destruct (id p =? i); reflexivity.
Qed.

Lemma markStatus_In (i : Z) (s : Status) (l : list Proposal) (q' : Proposal) :
  In q' (markStatus i s l) ->
  exists q, In q l /\ id q' = id q
            /\ ((id q = i /\ q' = setStatus q s) \/ (id q <> i /\ q' = q)).
Proof.
  unfold markStatus. rewrite in_map_iff. intros [q [Hq Hin]].
  exists q. split; [exact Hin|].
  destruct (Z.eqb_spec (id q) i); subst q'; simpl; auto.
Qed.

Lemma distinct_ids (l : list Proposal) (p q : Proposal) :
  NoDup (map id l) -> In p l -> In q l -> id p = id q -> p = q.
Proof.
  induction l as [|x l IH]; simpl; [contradiction|].
  intros Hnd [Hp|Hp] [Hq|Hq] Hid; inversion Hnd as [|? ? Hnotin Hnd']; subst.
  - reflexivity.
  - exfalso. apply Hnotin. rewrite Hid. now apply in_map.
  - exfalso. apply Hnotin. rewrite <- Hid. now apply in_map.
  - now apply IH.
Qed.

Lemma Forall2_map_self {A : Type} (R : A -> A -> Prop) (f : A -> A) (l : list A) :
  (forall x, In x l -> R x (f x)) -> Forall2 R l (map f l).
Proof.
  induction l as [|x l IH]; simpl; intros H; constructor.
  - apply H. now left.
  - apply IH. intros y Hy. apply H. now right.
Qed.

Lemma Forall2_same {A : Type} (R : A -> A -> Prop) (l : list A) :
  (forall x, In x l -> R x x) -> Forall2 R l l.
Proof.
  intros H. rewrite <- (map_id l) at 2. now apply Forall2_map_self.
Qed.

Lemma Forall2_chain {A : Type} (R : A -> A -> Prop) (l1 l2 l3 : list A) :
  (forall x y z, R x y -> R y z -> R x z) ->
  Forall2 R l1 l2 -> Forall2 R l2 l3 -> Forall2 R l1 l3.
Proof.
  intros Htrans H12. revert l3.
  induction H12 as [|x y l1 l2 Hxy _ IH]; intros l3 H23;
    inversion H23; subst; constructor; eauto.
Qed.

Lemma lifecycle_keep (l : list Proposal) : Forall2 lifecycle l l.
Proof. apply Forall2_same. intros p _. now left. Qed.

(** An enabled Execute button sits on an approved, executable proposal. *)
Lemma executeButton_enabled (env : Env) (u : Ui) (p : Proposal) (b : ExecuteButton) :
  executeButton (renderProposal env u p) = Some b ->
  executeDisabled b = false ->
  status p = Approved /\ canExecuteProposal p = true.
Proof.
  unfold renderProposal; simpl.
  destruct (Status_eqb (status p) Approved) eqn:Hst; [|discriminate].
  intros Hb Hen. inversion Hb; subst b; clear Hb. simpl in Hen.
  apply orb_false_iff in Hen. destruct Hen as [Hcan _].
  apply negb_false_iff in Hcan.
  split; [now apply Status_eqb_eq|exact Hcan].
Qed.

(** A rendered Reject button sits on a pending proposal. *)
Lemma rejectButton_pending (env : Env) (u : Ui) (p : Proposal) (b : RejectButton) :
  rejectButton (renderProposal env u p) = Some b -> status p = Pending.
Proof.
  intros Hb.
  apply (rejectButton_rendered env u p). rewrite Hb. discriminate.
Qed.

(** One user action keeps the state well formed and moves every proposal
    along its lifecycle. *)
Lemma step_lifecycle (w w' : World) :
  wellFormed w -> step w w' ->
  wellFormed w' /\ Forall2 lifecycle (proposals (ui w)) (proposals (ui w')).
Proof.
  intros [Hnd Hsel] Hstep.
  destruct Hstep as [env w p b Hin Hb Hen
                    | contract reason w Hopen
                    | w Hopen
                    | env contract w p b Hin Hb Hen].
  - (* Reject clicked *)
    rewrite handleRejectClick_run; simpl.
    split; [|apply lifecycle_keep].
    split; [exact Hnd|]. simpl.
    intros i q Hi Hq Hid. injection Hi as Hi. rewrite <- Hi in Hid.
    rewrite (distinct_ids _ q p Hnd Hq Hin Hid).
    now apply (rejectButton_pending env (ui w) p b).
  - (* rejection confirmed *)
    destruct (selectedProposal (ui w)) as [i|] eqn:Hs.
    2: { rewrite handleRejectConfirm_nothing_selected by exact Hs.
         split; [|apply lifecycle_keep].
         split; [exact Hnd|]. rewrite Hs. discriminate. }
    destruct (rejectProposal contract i) as [txHash|e] eqn:Hr.
    + rewrite (handleRejectConfirm_fulfilled contract reason w i txHash Hs Hr).
      simpl. split.
      * split; simpl; [now rewrite markStatus_ids|discriminate].
      * unfold markStatus. apply Forall2_map_self. intros q Hq.
        destruct (Z.eqb_spec (id q) i) as [Hid|Hid]; [|now left].
        right. left. split; [|reflexivity]. now apply (Hsel i q).
    + rewrite (handleRejectConfirm_throws contract reason w i e Hs Hr).
      simpl. split; [|apply lifecycle_keep].
      split; simpl; [exact Hnd|discriminate].
  - (* rejection cancelled *)
    rewrite handleRejectCancel_run; simpl.
    split; [|apply lifecycle_keep].
    split; simpl; [exact Hnd|discriminate].
  - (* Execute clicked *)
    destruct (executeButton_enabled env (ui w) p b Hb Hen) as [Hst Hcan].
    destruct (executeProposal contract (id p)) as [txHash|e] eqn:Hr.
    + rewrite (handleExecuteClick_fulfilled contract w (id p) txHash Hr).
      simpl. split.
      * split; simpl; [now rewrite markStatus_ids|].
        intros i q' Hi Hq' Hid.
        destruct (markStatus_In _ _ _ _ Hq') as [q [Hq [Hidq Hcase]]].
        destruct Hcase as [[Hsame _]|[_ ->]].
        -- exfalso.
           assert (q = p) by now apply (distinct_ids _ q p Hnd).
           subst q.
           assert (status p = Pending) by (apply (Hsel i p); congruence).
           congruence.
        -- now apply (Hsel i q).
      * unfold markStatus. apply Forall2_map_self. intros q Hq.
        destruct (Z.eqb_spec (id q) (id p)) as [Hid|Hid]; [|now left].
        assert (q = p) by now apply (distinct_ids _ q p Hnd).
        subst q. right. right. now split.
    + rewrite (handleExecuteClick_throws contract w (id p) e Hr).
      simpl. split; [|apply lifecycle_keep].
      split; [exact Hnd|exact Hsel].
Qed.

Lemma lifecycle_settled (p p' : Proposal) : lifecycle p p' -> settled p p'.
Proof.
  intros [H|[[Hst _]|[Hcan _]]] Hnp Hna.
  - exact H.
  - contradiction.
  - apply canExecuteProposal_true in Hcan. destruct Hcan as [Hst _].
    contradiction.
Qed.

Lemma steps_settled (w w' : World) :
  wellFormed w -> steps w w' ->
  wellFormed w' /\ Forall2 settled (proposals (ui w)) (proposals (ui w')).
Proof.
  intros Hwf Hsteps. induction Hsteps as [w|w w1 w2 Hstep _ IH].
  - split; [exact Hwf|]. apply Forall2_same. intros p _ _ _. reflexivity.
  - destruct (step_lifecycle w w1 Hwf Hstep) as [Hwf1 H1].
    destruct (IH Hwf1) as [Hwf2 H2]. split; [exact Hwf2|].
    apply (Forall2_chain settled _ (proposals (ui w1))).
    + intros x y z Hxy Hyz Hnp Hna.
      assert (y = x) by now apply Hxy. subst y. now apply Hyz.
    + eapply Forall2_impl; [|exact H1]. apply lifecycle_settled.
    + exact H2.
Qed.

(** ** Rejecting an executed proposal *)

Lemma listView_handleRejectConfirm_run
      (reason : option string) (u : ListView.Ui) (i : string) :
  ListView.rejectingId u = Some i -> i <> EmptyString ->
  ListView.proposals (fst (ListView.handleRejectConfirm reason u))
  = map (fun p => if String.eqb (ListView.id p) i
                  then ListView.setStatus p "Rejected" else p)
        (ListView.proposals u).
Proof.
  intros Hi Hne. unfold ListView.handleRejectConfirm.
  rewrite Hi. simpl.
  destruct (String.eqb_spec i EmptyString) as [He|_]; [contradiction|].
  reflexivity.
Qed.

Lemma listView_handleRejectConfirm_state
      (reason : option string) (u : ListView.Ui) (i : string) :
  ListView.rejectingId u = Some i -> i <> EmptyString ->
  fst (ListView.handleRejectConfirm reason u)
  = {| ListView.proposals :=
         map (fun p => if String.eqb (ListView.id p) i
                       then ListView.setStatus p "Rejected" else p)
             (ListView.proposals u);
       ListView.showRejectModal := false;
       ListView.rejectingId := None |}.
Proof.
  intros Hi Hne. unfold ListView.handleRejectConfirm.
  rewrite Hi. simpl.
  destruct (String.eqb_spec i EmptyString) as [He|_]; [contradiction|].
  reflexivity.
Qed.

Lemma listView_handleRejectConfirm_nothing
      (reason : option string) (u : ListView.Ui) :
  Js.not_string (ListView.rejectingId u) = true ->
  ListView.handleRejectConfirm reason u = (u, []).
Proof.
  intros H. unfold ListView.handleRejectConfirm. now rewrite H.
Qed.

Lemma distinct_keys {A B : Type} (key : A -> B) (l : list A) (x y : A) :
  NoDup (map key l) -> In x l -> In y l -> key x = key y -> x = y.
Proof.
  induction l as [|a l IH]; simpl; [contradiction|].
  intros Hnd Hx Hy Hk. apply NoDup_cons_iff in Hnd.
  destruct Hnd as [Hnotin Hnd].
  destruct Hx as [Hx|Hx], Hy as [Hy|Hy].
  - congruence.
  - exfalso. apply Hnotin. subst a. rewrite Hk. now apply in_map.
  - exfalso. apply Hnotin. subst a. rewrite <- Hk. now apply in_map.
  - now apply IH.
Qed.

(** One user action on the list keeps the state well formed and changes
    pending proposals only. *)
Lemma list_step_settled (u u' : ListView.Ui) :
  ListSteps.wellFormed u -> ListSteps.step u u' ->
  ListSteps.wellFormed u'
  /\ Forall2 ListSteps.settled (ListView.proposals u) (ListView.proposals u').
Proof.
  assert (Hkeep : forall l, Forall2 ListSteps.settled l l).
  { intros l. apply Forall2_same. intros p _ _. reflexivity. }
  intros [Hnd Hsel] Hstep.
  destruct Hstep as [u p Hin Hbtn | reason u Hopen | u Hopen].
  - simpl. split; [|apply Hkeep]. split; [exact Hnd|]. simpl.
    intros _ i q Hi Hq Hid. injection Hi as Hi. rewrite <- Hi in Hid.
    rewrite (distinct_keys ListView.id _ q p Hnd Hq Hin Hid).
    unfold ListView.rejectButtonRendered in Hbtn.
    now apply String.eqb_eq in Hbtn.
  - destruct (Js.not_string (ListView.rejectingId u)) eqn:Hfalsy.
    + rewrite (listView_handleRejectConfirm_nothing reason u Hfalsy). simpl.
      split; [now split|apply Hkeep].
    + destruct (ListView.rejectingId u) as [i|] eqn:Hi; [|discriminate].
      assert (Hne : i <> EmptyString).
      { intros ->. discriminate Hfalsy. }
      rewrite (listView_handleRejectConfirm_state reason u i Hi Hne). simpl.
      split.
      * split; simpl; [|discriminate].
        rewrite map_map.
        replace (map (fun x => ListView.id
                                 (if String.eqb (ListView.id x) i
                                  then ListView.setStatus x "Rejected" else x))
                     (ListView.proposals u))
          with (map ListView.id (ListView.proposals u)); [exact Hnd|].
        apply map_ext. intros x.
        destruct (String.eqb (ListView.id x) i); reflexivity.
      * apply Forall2_map_self. intros q Hq.
        destruct (String.eqb_spec (ListView.id q) i) as [Hid|_];
          [|intros _; reflexivity].
        intros Hnp. exfalso. apply Hnp. now apply (Hsel Hopen i q).
  - simpl. split; [|apply Hkeep]. split; [exact Hnd|]. simpl. discriminate.
Qed.

Lemma list_steps_settled (u u' : ListView.Ui) :
  ListSteps.wellFormed u -> ListSteps.steps u u' ->
  ListSteps.wellFormed u'
  /\ Forall2 ListSteps.settled (ListView.proposals u) (ListView.proposals u').
Proof.
  intros Hwf Hsteps. induction Hsteps as [u|u u1 u2 Hstep _ IH].
  - split; [exact Hwf|]. apply Forall2_same. intros p _ _. reflexivity.
  - destruct (list_step_settled u u1 Hwf Hstep) as [Hwf1 H1].
    destruct (IH Hwf1) as [Hwf2 H2]. split; [exact Hwf2|].
    apply (Forall2_chain ListSteps.settled _ (ListView.proposals u1));
      [|exact H1|exact H2].
    intros x y z Hxy Hyz Hnp.
    assert (y = x) by now apply Hxy. subst y. now apply Hyz.
Qed.

(** C6, as stated, fails: neither [handleRejectConfirm] checks the status.
    With an executed proposal selected and a collaborator that succeeds, the
    dashboard handler submits the rejection, marks the proposal Rejected and
    reports success; the list component's handler marks it Rejected outright.
    No Forbidden error exists. *)
Lemma reject_of_executed_goes_through :
  status executedProposal = Executed
  /\ map status
         (proposals (ui (exec (handleRejectConfirm alwaysFulfils None)
                              executedSelected)))
     = [Rejected; Approved]
  /\ effects (exec (handleRejectConfirm alwaysFulfils None) executedSelected)
     = [ CallRejectProposal 2;
         Notify "proposal_rejected" "Proposal #2 rejected successfully" success;
         ConsoleLog "Rejection reason:" None;
         ConsoleLog "Transaction hash:" (Some "tx-1") ]
  /\ ListView.status listExecuted = "Executed"
  /\ map ListView.status
         (ListView.proposals
            (fst (ListView.handleRejectConfirm None listExecutedSelected)))
     = ["Rejected"].
Proof. repeat split; vm_compute; reflexivity. Qed.

(** C6, amended. Rejecting an executed proposal is ruled out by the view, not
    by the handler: both components render the Reject button for pending
    proposals only, so in either component, from a well-formed state (ids
    pairwise distinct and the proposal picked for rejection pending), no
    sequence of user actions changes an executed proposal.  The handlers
    themselves check no status and know no Forbidden error: run with an
    executed proposal selected, the dashboard handler leaves the proposals
    unchanged when the collaborator throws and marks the proposal Rejected
    when the collaborator succeeds, and the list component's handler marks it
    Rejected. *)
Theorem reject_of_executed_is_ruled_out_by_the_view :
  (forall env u p,
      status p = Executed -> rejectButton (renderProposal env u p) = None)
  /\ (forall p,
         ListView.status p = "Executed" -> ListView.rejectButtonRendered p = false)
  /\ (forall w w',
         wellFormed w -> steps w w' ->
         Forall2 (fun p p' => status p = Executed -> p' = p)
                 (proposals (ui w)) (proposals (ui w')))
  /\ (forall contract reason w i,
         selectedProposal (ui w) = Some i ->
         proposals (ui (exec (handleRejectConfirm contract reason) w))
         = match rejectProposal contract i with
           | Fulfilled _ => markStatus i Rejected (proposals (ui w))
           | Throws _ => proposals (ui w)
           end)
  /\ (forall reason u i,
         ListView.rejectingId u = Some i -> i <> EmptyString ->
         ListView.proposals (fst (ListView.handleRejectConfirm reason u))
         = map (fun p => if String.eqb (ListView.id p) i
                         then ListView.setStatus p "Rejected" else p)
               (ListView.proposals u))
  /\ (forall u u',
         ListSteps.wellFormed u -> ListSteps.steps u u' ->
         Forall2 (fun p p' => ListView.status p = "Executed" -> p' = p)
                 (ListView.proposals u) (ListView.proposals u')).
Proof.
  split; [|split; [|split; [|split; [|split]]]].
  - intros env u p Hst.
    destruct (rejectButton (renderProposal env u p)) as [b|] eqn:Hb;
      [|reflexivity].
    apply rejectButton_pending in Hb. congruence.
  - intros p Hst. unfold ListView.rejectButtonRendered. rewrite Hst.
    reflexivity.
  - intros w w' Hwf Hsteps.
    destruct (steps_settled w w' Hwf Hsteps) as [_ H].
    eapply Forall2_impl; [|exact H].
    intros p p' Hs Hex. apply Hs; congruence.
  - intros contract reason w i Hsel.
    destruct (rejectProposal contract i) as [txHash|e] eqn:Hr.
    + now rewrite (handleRejectConfirm_fulfilled contract reason w i txHash).
    + now rewrite (handleRejectConfirm_throws contract reason w i e).
  - apply listView_handleRejectConfirm_run.
  - intros u u' Hwf Hsteps.
    destruct (list_steps_settled u u' Hwf Hsteps) as [_ H].
    eapply Forall2_impl; [|exact H].
    intros p p' Hs Hex. apply Hs. rewrite Hex. discriminate.
Qed.

Lemma reject_of_executed_is_ruled_out_by_the_view_witness :
  (wellFormed executedAndExecutable
   /\ steps executedAndExecutable
            (exec (handleExecuteClick alwaysFulfils 2) executedAndExecutable))
  /\ Forall2 (fun p p' => status p = Executed -> p' = p)
             (proposals (ui executedAndExecutable))
             (proposals (ui (exec (handleExecuteClick alwaysFulfils 2)
                                  executedAndExecutable)))
  /\ (ListSteps.wellFormed listExecutedAndPending
      /\ ListSteps.steps listExecutedAndPending
            (fst (ListView.handleRejectConfirm None
                    (ListView.handleOpenReject "1" listExecutedAndPending))))
  /\ Forall2 (fun p p' => ListView.status p = "Executed" -> p' = p)
             (ListView.proposals listExecutedAndPending)
             (ListView.proposals
                (fst (ListView.handleRejectConfirm None
                        (ListView.handleOpenReject "1" listExecutedAndPending)))).
Proof.
  assert (Hwf : wellFormed executedAndExecutable).
  { split.
    - simpl. repeat constructor; simpl; intuition discriminate.
    - intros i q Hsel. discriminate Hsel. }
  assert (Hsteps : steps executedAndExecutable
                     (exec (handleExecuteClick alwaysFulfils 2)
                           executedAndExecutable)).
  { eapply Relation_Operators.rt1n_trans; [|apply Relation_Operators.rt1n_refl].
    apply (step_executeClick disconnected alwaysFulfils executedAndExecutable
             proposal2
             {| executeDisabled := false;
                executeTitle := "Execute this proposal to transfer funds";
                executeLabel := "Execute" |}).
    - simpl. right. left. reflexivity.
    - reflexivity.
    - reflexivity. }
  assert (Hlwf : ListSteps.wellFormed listExecutedAndPending).
  { split.
    - simpl. repeat constructor; simpl; intuition discriminate.
    - intros Hopen. discriminate Hopen. }
  assert (Hlsteps : ListSteps.steps listExecutedAndPending
                      (fst (ListView.handleRejectConfirm None
                              (ListView.handleOpenReject "1"
                                 listExecutedAndPending)))).
  { eapply Relation_Operators.rt1n_trans.
    - apply (ListSteps.step_openReject listExecutedAndPending listPending).
      + simpl. right. left. reflexivity.
      + reflexivity.
    - eapply Relation_Operators.rt1n_trans; [|apply Relation_Operators.rt1n_refl].
      apply (ListSteps.step_confirm None). reflexivity. }
  split; [split; assumption|].
  split.
  - apply (proj1 (proj2 (proj2 reject_of_executed_is_ruled_out_by_the_view))
             executedAndExecutable _ Hwf Hsteps).
  - split; [split; assumption|].
    apply (proj2 (proj2 (proj2 (proj2 (proj2
             reject_of_executed_is_ruled_out_by_the_view))))
             listExecutedAndPending _ Hlwf Hlsteps).
Defined.

(** ** Executing a proposal that is not executable *)

Lemma executeButton_rendered (env : Env) (u : Ui) (p : Proposal) :
  status p = Approved ->
  executeButton (renderProposal env u p)
  = Some {| executeDisabled :=
              negb (canExecuteProposal p)
              || (isId (executingId u) (id p) && loading env);
            executeTitle :=
              if getLedgersRemaining p >? 0
              then ("Timelocked — wait " ++ Js.show (getLedgersRemaining p)
                      ++ " more ledgers")%string
              else "Execute this proposal to transfer funds";
            executeLabel :=
              if isId (executingId u) (id p) && loading env then "Executing…"
              else if getLedgersRemaining p >? 0 then "Execute (Locked)"
              else "Execute" |}.
Proof.
  intros Hst. unfold renderProposal; simpl. rewrite Hst. reflexivity.
Qed.

Lemma executeButton_absent (env : Env) (u : Ui) (p : Proposal) :
  status p <> Approved -> executeButton (renderProposal env u p) = None.
Proof.
  intros Hst. unfold renderProposal; simpl.
  now rewrite (Status_eqb_neq _ _ Hst).
Qed.

(** With distinct ids, one user action leaves a proposal as it is, marks it
    Rejected, or marks it Executed when it was executable. *)
Lemma step_executes_executable (w w' : World) :
  NoDup (map id (proposals (ui w))) -> step w w' ->
  Forall2 (fun p p' => p' = p
                       \/ p' = setStatus p Rejected
                       \/ (canExecuteProposal p = true
                           /\ p' = setStatus p Executed))
          (proposals (ui w)) (proposals (ui w')).
Proof.
  assert (Hkeep : forall l : list Proposal,
             Forall2 (fun p p' => p' = p
                                  \/ p' = setStatus p Rejected
                                  \/ (canExecuteProposal p = true
                                      /\ p' = setStatus p Executed)) l l).
  { intros l. apply Forall2_same. intros p _. now left. }
  intros Hnd Hstep.
  destruct Hstep as [env w p b Hin Hb Hen
                    | contract reason w Hopen
                    | w Hopen
                    | env contract w p b Hin Hb Hen].
  - rewrite handleRejectClick_run; simpl. apply Hkeep.
  - destruct (selectedProposal (ui w)) as [i|] eqn:Hs.
    2: { rewrite handleRejectConfirm_nothing_selected by exact Hs. apply Hkeep. }
    destruct (rejectProposal contract i) as [txHash|e] eqn:Hr.
    + rewrite (handleRejectConfirm_fulfilled contract reason w i txHash Hs Hr).
      simpl. unfold markStatus. apply Forall2_map_self. intros q _.
      destruct (id q =? i); [right; now left|now left].
    + rewrite (handleRejectConfirm_throws contract reason w i e Hs Hr).
      simpl. apply Hkeep.
  - rewrite handleRejectCancel_run; simpl. apply Hkeep.
  - destruct (executeButton_enabled env (ui w) p b Hb Hen) as [_ Hcan].
    destruct (executeProposal contract (id p)) as [txHash|e] eqn:Hr.
    + rewrite (handleExecuteClick_fulfilled contract w (id p) txHash Hr).
      simpl. unfold markStatus. apply Forall2_map_self. intros q Hq.
      destruct (Z.eqb_spec (id q) (id p)) as [Hid|_]; [|now left].
      assert (q = p) by now apply (distinct_ids _ q p Hnd).
      subst q. right. right. now split.
    + rewrite (handleExecuteClick_throws contract w (id p) e Hr).
      simpl. apply Hkeep.
Qed.

(** C9, as stated, fails: [handleExecuteClick] checks nothing before it calls
    the collaborator and knows no NotExecutable error.  Run on the third mock
    proposal (threshold 3, approvals 3, unlock ledger 1500, current ledger
    1200), which is not executable, with a collaborator that succeeds, it
    submits the execution, marks the proposal Executed and reports success. *)
Lemma execute_of_timelocked_goes_through :
  canExecuteProposal proposal3 = false
  /\ getLedgersRemaining proposal3 = 300
  /\ map status
         (proposals (ui (exec (handleExecuteClick alwaysFulfils 3) initialWorld)))
     = [Pending; Approved; Executed]
  /\ effects (exec (handleExecuteClick alwaysFulfils 3) initialWorld)
     = [ CallExecuteProposal 3;
         Notify "proposal_executed"
                "Proposal #3 executed — funds transferred successfully" success;
         ConsoleLog "Execution tx hash:" (Some "tx-1") ].
Proof. repeat split; vm_compute; reflexivity. Qed.

(** C9, amended. Executing a proposal that is not executable is ruled out by
    the view, not by the handler.  The Execute button is rendered for approved
    proposals only and is disabled whenever [canExecuteProposal] is false, so
    from a state with pairwise distinct proposal ids a user action leaves a
    proposal as it is, marks it Rejected, or marks it Executed and then it was
    executable.  The view tells the two causes apart by the button's title:
    "Timelocked — wait N more ledgers" when ledgers remain, the plain title
    otherwise.  For threshold 3, approvals 3, unlock ledger 1500, current
    ledger 1200 the button is disabled with the title for 300 ledgers; for
    threshold 3, approvals 1, unlock ledger 0 it is disabled with the plain
    title.  [handleExecuteClick] itself checks nothing, knows no
    NotExecutable error and calls the collaborator first in every run. *)
Theorem execute_is_gated_by_the_view :
  (forall env u p,
      match executeButton (renderProposal env u p) with
      | None => status p <> Approved
      | Some b =>
          status p = Approved
          /\ (canExecuteProposal p = false -> executeDisabled b = true)
          /\ executeTitle b
             = if getLedgersRemaining p >? 0
               then ("Timelocked — wait " ++ Js.show (getLedgersRemaining p)
                       ++ " more ledgers")%string
               else "Execute this proposal to transfer funds"
      end)
  /\ (forall w w',
         NoDup (map id (proposals (ui w))) -> step w w' ->
         Forall2 (fun p p' => p' = p
                              \/ p' = setStatus p Rejected
                              \/ (canExecuteProposal p = true
                                  /\ p' = setStatus p Executed))
                 (proposals (ui w)) (proposals (ui w')))
  /\ (forall env u p,
         status p = Approved -> threshold p = 3 -> approvals p = 3 ->
         unlockLedger p = Some 1500 -> currentLedger p = Some 1200 ->
         canExecuteProposal p = false
         /\ getLedgersRemaining p = 300
         /\ exists b, executeButton (renderProposal env u p) = Some b
                      /\ executeDisabled b = true
                      /\ executeTitle b = "Timelocked — wait 300 more ledgers")
  /\ (forall env u p,
         status p = Approved -> threshold p = 3 -> approvals p = 1 ->
         unlockLedger p = Some 0 ->
         canExecuteProposal p = false
         /\ getLedgersRemaining p = 0
         /\ exists b, executeButton (renderProposal env u p) = Some b
                      /\ executeDisabled b = true
                      /\ executeTitle b = "Execute this proposal to transfer funds")
  /\ (forall contract i w,
         exists rest,
           effects (exec (handleExecuteClick contract i) w)
           = effects w ++ CallExecuteProposal i :: rest).
Proof.
  split; [|split; [|split; [|split]]].
  - intros env u p.
    destruct (Status_eqb (status p) Approved) eqn:Hst.
    + apply Status_eqb_eq in Hst.
      rewrite (executeButton_rendered env u p Hst). simpl.
      split; [exact Hst|]. split; [|reflexivity].
      intros Hcan. rewrite Hcan. reflexivity.
    + assert (Hne : status p <> Approved).
      { intros H. apply Status_eqb_eq in H. congruence. }
      rewrite (executeButton_absent env u p Hne). exact Hne.
  - intros w w' Hnd Hstep. now apply step_executes_executable.
  - intros env u p Hst Hth Hap Hu Hc.
    assert (Hlr : getLedgersRemaining p = 300).
    { rewrite getLedgersRemaining_cases, Hu, Hc. reflexivity. }
    assert (Hcan : canExecuteProposal p = false).
    { unfold canExecuteProposal, isTimelockExpired. rewrite Hlr.
      apply andb_false_r. }
    repeat split; trivial.
    rewrite (executeButton_rendered env u p Hst). rewrite Hlr, Hcan.
    eexists. repeat split; reflexivity.
  - intros env u p Hst Hth Hap Hu.
    assert (Hlr : getLedgersRemaining p = 0).
    { rewrite getLedgersRemaining_cases, Hu. reflexivity. }
    assert (Hcan : canExecuteProposal p = false).
    { unfold canExecuteProposal. rewrite Hth, Hap. simpl.
      now rewrite andb_false_r. }
    repeat split; trivial.
    rewrite (executeButton_rendered env u p Hst). rewrite Hlr, Hcan.
    eexists. repeat split; reflexivity.
  - intros contract i w.
    destruct (executeProposal contract i) as [txHash|e] eqn:Hr.
    + rewrite (handleExecuteClick_fulfilled contract w i txHash Hr).
      simpl. eexists. reflexivity.
    + rewrite (handleExecuteClick_throws contract w i e Hr).
      simpl. eexists. reflexivity.
Qed.

Lemma execute_is_gated_by_the_view_witness :
  (status proposal3 = Approved /\ threshold proposal3 = 3
   /\ approvals proposal3 = 3 /\ unlockLedger proposal3 = Some 1500
   /\ currentLedger proposal3 = Some 1200)
  /\ canExecuteProposal proposal3 = false
  /\ getLedgersRemaining proposal3 = 300
  /\ exists b, executeButton (renderProposal connectedProposer initialUi proposal3)
               = Some b
               /\ executeDisabled b = true
               /\ executeTitle b = "Timelocked — wait 300 more ledgers".
Proof.
  split; [repeat split; reflexivity|].
  apply (proj1 (proj2 (proj2 execute_is_gated_by_the_view))
           connectedProposer initialUi proposal3); reflexivity.
Defined.

(** ** Block-height refresh: properties *)

Lemma refreshBlockHeight_currentBlock (n : Z) (l : Ledger.Ledger) :
  Ledger.currentBlock (Ledger.refreshBlockHeight n l)
  = Z.max (Ledger.currentBlock l) n.
Proof.
  unfold Ledger.refreshBlockHeight.
  destruct (Z.ltb_spec n (Ledger.currentBlock l)); simpl; lia.
Qed.

(** Over a whole feed the stored block height never goes down. *)
Lemma refreshAll_monotone (feed : list Z) (l : Ledger.Ledger) :
  Ledger.currentBlock l <= Ledger.currentBlock (Ledger.refreshAll feed l).
Proof.
  unfold Ledger.refreshAll. revert l.
  induction feed as [|n feed IH]; intros l; simpl; [lia|].
  specialize (IH (Ledger.refreshBlockHeight n l)).
  rewrite refreshBlockHeight_currentBlock in IH. lia.
Qed.

(** C8. [refreshBlockHeight] keeps the stored block height when the new
    value is lower and stores the new value otherwise, so the stored block
    height never decreases, after one refresh or after any feed of them. *)
Theorem refreshBlockHeight_monotone (n : Z) (l : Ledger.Ledger) :
  (n < Ledger.currentBlock l ->
   Ledger.currentBlock (Ledger.refreshBlockHeight n l) = Ledger.currentBlock l)
  /\ (Ledger.currentBlock l <= n ->
      Ledger.currentBlock (Ledger.refreshBlockHeight n l) = n)
  /\ Ledger.currentBlock l
     <= Ledger.currentBlock (Ledger.refreshBlockHeight n l)
  /\ (forall feed,
         Ledger.currentBlock l
         <= Ledger.currentBlock (Ledger.refreshAll feed l)).
Proof.
  rewrite refreshBlockHeight_currentBlock.
  repeat split; try lia. intros feed. apply refreshAll_monotone.
Qed.

Lemma refreshBlockHeight_monotone_witness :
  1100 < Ledger.currentBlock {| Ledger.currentBlock := 1200;
                                Ledger.staleBlockHeights := [] |}
  /\ Ledger.currentBlock
       (Ledger.refreshBlockHeight 1100
          {| Ledger.currentBlock := 1200; Ledger.staleBlockHeights := [] |})
     = 1200.
Proof.
  split; [simpl; lia|].
  apply (proj1 (refreshBlockHeight_monotone 1100
                  {| Ledger.currentBlock := 1200;
                     Ledger.staleBlockHeights := [] |})).
  simpl; lia.
Defined.

(** ** Further facts about the mock setting *)

(** The state the component starts in is well formed. *)
Lemma initialWorld_wellFormed : wellFormed initialWorld.
Proof.
  split.
  - simpl. repeat constructor; simpl; intuition discriminate.
  - intros i q Hsel. discriminate Hsel.
Qed.

(** Hence every state the user can reach from it is well formed. *)
Lemma reachable_wellFormed (w : World) : steps initialWorld w -> wellFormed w.
Proof.
  intros Hsteps.
  now destruct (steps_settled initialWorld w initialWorld_wellFormed Hsteps).
Qed.

(** With the role the source hard-codes, everybody may reject. *)
Lemma canRejectProposal_mock_role (env : Env) (p : Proposal) :
  userRole env = mockUserRole -> canRejectProposal env p = true.
Proof.
  intros Hrole. apply canRejectProposal_true.
  right. right. right. right. exact Hrole.
Qed.

(** A connected wallet that is neither the proposer's nor an admin's may
    not. *)
Example stranger_cannot_reject :
  canRejectProposal connectedStranger proposal1 = false
  /\ rejectButton (renderProposal connectedStranger initialUi proposal1) = None.
Proof. split; reflexivity. Qed.

(** The Execute button of an approved proposal below its threshold: disabled,
    with the plain title and label. *)
Example underThreshold_button :
  executeButton (renderProposal disconnected initialUi underThreshold)
  = Some {| executeDisabled := true;
            executeTitle := "Execute this proposal to transfer funds";
            executeLabel := "Execute" |}.
Proof. reflexivity. Qed.

(** The cards of the three mock proposals, for a disconnected wallet. *)
Example mock_cards :
  map (renderProposal disconnected initialUi) mockProposals
  = [ {| timelockBanner := None; approveButton := true;
         rejectButton := Some {| rejectDisabled := false; rejectLabel := "Reject" |};
         executeButton := None; timelockNote := false |};
      {| timelockBanner := None; approveButton := false;
         rejectButton := None;
         executeButton :=
           Some {| executeDisabled := false;
                   executeTitle := "Execute this proposal to transfer funds";
                   executeLabel := "Execute" |};
         timelockNote := false |};
      {| timelockBanner := Some 300; approveButton := false;
         rejectButton := None;
         executeButton :=
           Some {| executeDisabled := true;
                   executeTitle := "Timelocked — wait 300 more ledgers";
                   executeLabel := "Execute (Locked)" |};
         timelockNote := true |} ].
Proof. reflexivity. Qed.

(** ** The countdown: properties *)

Lemma afterMinute_nonneg (s : Z) :
  0 <= s -> TimelockCountdown.afterMinute s = Z.max 0 (s - 60).
Proof.
  intros Hs. unfold TimelockCountdown.afterMinute,
    TimelockCountdown.intervalArmed, TimelockCountdown.tick.
  destruct (Z.leb_spec s 0); simpl; lia.
Qed.

Lemma afterMinutes_nonneg (n : nat) (s : Z) :
  0 <= s ->
  TimelockCountdown.afterMinutes n s = Z.max 0 (s - 60 * Z.of_nat n).
Proof.
  intros Hs. unfold TimelockCountdown.afterMinutes.
  induction n as [|n IH].
  - simpl. lia.
  - rewrite Nat.iter_succ, IH, afterMinute_nonneg by lia. lia.
Qed.

(** X1. Started from a count of ledgers that is not negative, the countdown
    shows [max(0, 5 * ledgers - 60 * n)] seconds after [n] minutes: it never
    goes below zero, never goes up, and once it is at zero the interval is no
    longer armed and the count stays at zero. *)
Theorem countdown_after_minutes (ledgers : Z) (n : nat) :
  0 <= ledgers ->
  TimelockCountdown.afterMinutes n (TimelockCountdown.totalSeconds ledgers)
  = Z.max 0 (5 * ledgers - 60 * Z.of_nat n)
  /\ TimelockCountdown.afterMinutes (S n) (TimelockCountdown.totalSeconds ledgers)
     <= TimelockCountdown.afterMinutes n (TimelockCountdown.totalSeconds ledgers)
  /\ (5 * ledgers <= 60 * Z.of_nat n ->
      TimelockCountdown.intervalArmed
        (TimelockCountdown.afterMinutes n (TimelockCountdown.totalSeconds ledgers))
      = false
      /\ forall m,
          TimelockCountdown.afterMinutes (m + n)
            (TimelockCountdown.totalSeconds ledgers) = 0).
Proof.
  intros Hl. unfold TimelockCountdown.totalSeconds, SECONDS_PER_LEDGER.
  rewrite !afterMinutes_nonneg by lia.
  split; [f_equal; lia|]. split; [lia|].
  intros Hdone. split.
  - unfold TimelockCountdown.intervalArmed.
    destruct (Z.leb_spec (Z.max 0 (ledgers * 5 - 60 * Z.of_nat n)) 0);
      [reflexivity|lia].
  - intros m. rewrite afterMinutes_nonneg by lia. lia.
Qed.

Lemma countdown_after_minutes_witness :
  0 <= 300
  /\ TimelockCountdown.afterMinutes 7 (TimelockCountdown.totalSeconds 300)
     = Z.max 0 (5 * 300 - 60 * Z.of_nat 7).
Proof.
  split; [lia|].
  apply (proj1 (countdown_after_minutes 300 7 ltac:(lia))).
Defined.

(** X2. For a count of seconds that is not negative, the hours and minutes
    the label shows are the integer split of the seconds: the minutes are
    between 0 and 59 and [3600 * hours + 60 * minutes] is at most the seconds
    left and less than a minute away from them. *)
Theorem countdown_hours_minutes (s : Z) :
  0 <= s ->
  0 <= TimelockCountdown.hours s
  /\ 0 <= TimelockCountdown.minutes s < 60
  /\ 3600 * TimelockCountdown.hours s + 60 * TimelockCountdown.minutes s <= s
  /\ s < 3600 * TimelockCountdown.hours s + 60 * TimelockCountdown.minutes s + 60.
Proof.
  intros Hs. unfold TimelockCountdown.hours, TimelockCountdown.minutes.
  rewrite Z.rem_mod_nonneg by lia.
  pose proof (Z.div_mod s 3600 ltac:(lia)) as Hdm.
  pose proof (Z.mod_pos_bound s 3600 ltac:(lia)) as Hm.
  pose proof (Z.div_mod (s mod 3600) 60 ltac:(lia)) as Hdm'.
  pose proof (Z.mod_pos_bound (s mod 3600) 60 ltac:(lia)) as Hm'.
  assert (0 <= s / 3600) by (apply Z.div_pos; lia).
  assert (0 <= s mod 3600 / 60) by (apply Z.div_pos; lia).
  repeat split; try lia.
Qed.

Lemma countdown_hours_minutes_witness :
  0 <= 1500
  /\ 0 <= TimelockCountdown.hours 1500
  /\ 0 <= TimelockCountdown.minutes 1500 < 60
  /\ 3600 * TimelockCountdown.hours 1500 + 60 * TimelockCountdown.minutes 1500
     <= 1500
  /\ 1500 < 3600 * TimelockCountdown.hours 1500
            + 60 * TimelockCountdown.minutes 1500 + 60.
Proof.
  split; [lia|]. apply (countdown_hours_minutes 1500). lia.
Defined.

Lemma countdown_hours_pos (s : Z) :
  (TimelockCountdown.hours s >? 0) = (3600 <=? s).
Proof.
  unfold TimelockCountdown.hours.
  destruct (Z.leb_spec 3600 s) as [H|H].
  - apply Z.gtb_lt. apply Z.div_str_pos. lia.
  - destruct (Z.gtb_spec (s / 3600) 0) as [Hpos|_]; [|reflexivity].
    exfalso. destruct (Z.le_gt_cases 0 s) as [Hs|Hs].
    + rewrite Z.div_small in Hpos by lia. lia.
    + assert (s / 3600 < 0) by (apply Z.div_lt_upper_bound; lia). lia.
Qed.

Lemma countdown_minutes_pos (s : Z) :
  s < 3600 -> (TimelockCountdown.minutes s >? 0) = (60 <=? s).
Proof.
  intros Hlt. unfold TimelockCountdown.minutes.
  destruct (Z.le_gt_cases 0 s) as [Hs|Hs].
  - rewrite Z.rem_small by lia.
    destruct (Z.leb_spec 60 s) as [H|H].
    + apply Z.gtb_lt. apply Z.div_str_pos. lia.
    + rewrite Z.div_small by lia. reflexivity.
  - pose proof (Z.rem_nonpos s 3600 ltac:(lia) ltac:(lia)) as Hrem.
    destruct (Z.leb_spec 60 s) as [H|_]; [lia|].
    destruct (Z.gtb_spec (Z.rem s 3600 / 60) 0) as [Hpos|_]; [|reflexivity].
    exfalso.
    assert (Z.rem s 3600 / 60 <= 0) by (apply Z.div_le_upper_bound; lia).
    lia.
Qed.

(** X3. The label of the countdown depends on the seconds left as follows,
    for every integer: from one hour on it shows hours and minutes, from one
    minute up to one hour it shows minutes only, and below one minute
    (negative counts included) it reads "Unlocking soon…"; it reads so in no
    other case. *)
Theorem countdown_label_cases (s : Z) :
  (3600 <= s ->
   TimelockCountdown.label s
   = ("Unlocks in " ++ Js.show (TimelockCountdown.hours s) ++ "h "
        ++ Js.show (TimelockCountdown.minutes s) ++ "m")%string)
  /\ (60 <= s < 3600 ->
      TimelockCountdown.label s
      = ("Unlocks in " ++ Js.show (TimelockCountdown.minutes s) ++ "m")%string)
  /\ (TimelockCountdown.label s = "Unlocking soon…" <-> s < 60).
Proof.
  unfold TimelockCountdown.label.
  rewrite countdown_hours_pos.
  destruct (Z.leb_spec 3600 s) as [Hh|Hh].
  - split; [reflexivity|]. split; [lia|].
    split; [|lia]. simpl. discriminate.
  - rewrite countdown_minutes_pos by lia.
    destruct (Z.leb_spec 60 s) as [Hm|Hm].
    + split; [lia|]. split; [reflexivity|].
      split; [|lia]. simpl. discriminate.
    + split; [lia|]. split; [lia|]. split; [lia|reflexivity].
Qed.

Lemma countdown_label_cases_witness :
  60 <= 1500 < 3600
  /\ TimelockCountdown.label 1500 = "Unlocks in 25m".
Proof.
  split; [lia|].
  apply (proj1 (proj2 (countdown_label_cases 1500))). lia.
Defined.

(** ** The card and the handlers: further properties *)

Lemma executeButton_some_approved (env : Env) (u : Ui) (p : Proposal) :
  executeButton (renderProposal env u p) <> None <-> status p = Approved.
Proof.
  split.
  - intros H. destruct (status p) eqn:Hst; try reflexivity;
      exfalso; apply H; apply executeButton_absent; congruence.
  - intros Hst. rewrite (executeButton_rendered env u p Hst). discriminate.
Qed.

(** X4. What a card offers is decided by the status: approve and reject are
    offered on a pending proposal only, execute on an approved one only, so
    never both; a proposal that is executed, rejected or expired gets no
    button, no countdown banner and no timelock note. *)
Theorem card_actions_by_status (env : Env) (u : Ui) (p : Proposal) :
  (approveButton (renderProposal env u p) = true <-> status p = Pending)
  /\ (rejectButton (renderProposal env u p) <> None -> status p = Pending)
  /\ (executeButton (renderProposal env u p) <> None <-> status p = Approved)
  /\ (status p <> Pending -> status p <> Approved ->
      renderProposal env u p
      = {| timelockBanner := None; approveButton := false;
           rejectButton := None; executeButton := None;
           timelockNote := false |}).
Proof.
  split; [|split; [|split]].
  - unfold renderProposal; simpl. apply Status_eqb_eq.
  - intros H. now apply rejectButton_rendered in H.
  - apply executeButton_some_approved.
  - intros Hnp Hna. unfold renderProposal.
    rewrite (Status_eqb_neq _ _ Hnp), (Status_eqb_neq _ _ Hna). reflexivity.
Qed.

Lemma card_actions_by_status_witness :
  (status executedProposal <> Pending /\ status executedProposal <> Approved)
  /\ renderProposal connectedProposer initialUi executedProposal
     = {| timelockBanner := None; approveButton := false;
          rejectButton := None; executeButton := None;
          timelockNote := false |}.
Proof.
  assert (H1 : status executedProposal <> Pending) by discriminate.
  assert (H2 : status executedProposal <> Approved) by discriminate.
  split; [split; assumption|].
  apply (proj2 (proj2 (proj2 (card_actions_by_status
                                connectedProposer initialUi executedProposal)))
           H1 H2).
Defined.

(** X5. The Execute button of an approved proposal is enabled exactly when
    the approvals reach the threshold, no ledger remains and this proposal is
    not being executed while the contract hook is loading.  The countdown
    banner and the timelock note appear together, exactly when ledgers remain,
    and then the button is disabled and labelled as locked unless it shows the
    executing spinner. *)
Theorem execute_button_enabled_iff (env : Env) (u : Ui) (p : Proposal) (b : ExecuteButton) :
  executeButton (renderProposal env u p) = Some b ->
  (executeDisabled b = false <->
     threshold p <= approvals p
     /\ getLedgersRemaining p = 0
     /\ (isId (executingId u) (id p) && loading env) = false)
  /\ (timelockNote (renderProposal env u p) = true <-> 0 < getLedgersRemaining p)
  /\ (timelockBanner (renderProposal env u p)
      = if timelockNote (renderProposal env u p)
        then Some (getLedgersRemaining p) else None)
  /\ (0 < getLedgersRemaining p ->
      executeDisabled b = true
      /\ (executeLabel b = "Execute (Locked)" \/ executeLabel b = "Executing…")).
Proof.
  intros Hb.
  assert (Hst : status p = Approved).
  { apply (executeButton_some_approved env u p). rewrite Hb. discriminate. }
  rewrite (executeButton_rendered env u p Hst) in Hb.
  injection Hb as Hb. subst b. simpl.
  unfold renderProposal; simpl. rewrite Hst; simpl.
  split; [|split; [|split]].
  - rewrite orb_false_iff, negb_false_iff, canExecuteProposal_true.
    unfold isTimelockExpired. rewrite Z.eqb_eq. intuition lia.
  - rewrite Z.gtb_lt. reflexivity.
  - reflexivity.
  - intros Hpos.
    assert (Hcan : canExecuteProposal p = false).
    { unfold canExecuteProposal, isTimelockExpired.
      replace (getLedgersRemaining p =? 0) with false
        by (symmetry; apply Z.eqb_neq; lia).
      apply andb_false_r. }
    rewrite Hcan. split; [reflexivity|].
    replace (getLedgersRemaining p >? 0) with true
      by (symmetry; apply Z.gtb_lt; lia).
    destruct (isId (executingId u) (id p) && loading env); auto.
Qed.

Lemma execute_button_enabled_iff_witness :
  executeButton (renderProposal disconnected initialUi proposal3)
  = Some {| executeDisabled := true;
            executeTitle := "Timelocked — wait 300 more ledgers";
            executeLabel := "Execute (Locked)" |}
  /\ (timelockNote (renderProposal disconnected initialUi proposal3) = true
      <-> 0 < getLedgersRemaining proposal3).
Proof.
  split; [reflexivity|].
  apply (proj1 (proj2 (execute_button_enabled_iff
                         disconnected initialUi proposal3 _ eq_refl))).
Defined.

Lemma setStatus_same (p : Proposal) : setStatus p (status p) = p.
Proof. destruct p; reflexivity. Qed.

Lemma setStatus_setStatus (p : Proposal) (s t : Status) :
  setStatus (setStatus p s) t = setStatus p t.
Proof. reflexivity. Qed.

(** A proposal and a later version of it differ in the status at most. *)
Lemma markStatus_payload (i : Z) (s : Status) (l : list Proposal) :
  Forall2 (fun p p' => setStatus p' (status p) = p) l (markStatus i s l).
Proof.
  unfold markStatus. apply Forall2_map_self. intros p _.
  destruct (id p =? i); [|apply setStatus_same].
  rewrite setStatus_setStatus. apply setStatus_same.
Qed.

Lemma step_payload (w w' : World) :
  step w w' ->
  Forall2 (fun p p' => setStatus p' (status p) = p)
          (proposals (ui w)) (proposals (ui w'))
  /\ exists added, effects w' = effects w ++ added.
Proof.
  assert (Hkeep : forall l : list Proposal,
             Forall2 (fun p p' => setStatus p' (status p) = p) l l).
  { intros l. apply Forall2_same. intros p _. apply setStatus_same. }
  intros Hstep.
  destruct Hstep as [env w p b Hin Hb Hen
                    | contract reason w Hopen
                    | w Hopen
                    | env contract w p b Hin Hb Hen].
  - rewrite handleRejectClick_run; simpl. split; [apply Hkeep|].
    exists []. now rewrite app_nil_r.
  - destruct (selectedProposal (ui w)) as [i|] eqn:Hs.
    2: { rewrite handleRejectConfirm_nothing_selected by exact Hs.
         split; [apply Hkeep|]. exists []. now rewrite app_nil_r. }
    destruct (rejectProposal contract i) as [txHash|e] eqn:Hr.
    + rewrite (handleRejectConfirm_fulfilled contract reason w i txHash Hs Hr).
      simpl. split; [apply markStatus_payload|]. eexists. reflexivity.
    + rewrite (handleRejectConfirm_throws contract reason w i e Hs Hr).
      simpl. split; [apply Hkeep|]. eexists. reflexivity.
  - rewrite handleRejectCancel_run; simpl. split; [apply Hkeep|].
    exists []. now rewrite app_nil_r.
  - destruct (executeProposal contract (id p)) as [txHash|e] eqn:Hr.
    + rewrite (handleExecuteClick_fulfilled contract w (id p) txHash Hr).
      simpl. split; [apply markStatus_payload|]. eexists. reflexivity.
    + rewrite (handleExecuteClick_throws contract w (id p) e Hr).
      simpl. split; [apply Hkeep|]. eexists. reflexivity.
Qed.

(** X6. Whatever the user does, in whatever state, the list of proposals
    keeps its length and order and every proposal keeps all its fields but the
    status: nothing is added, dropped, reordered or edited.  The log of
    outside calls only grows. *)
Theorem user_actions_change_status_only (w w' : World) :
  steps w w' ->
  Forall2 (fun p p' => setStatus p' (status p) = p)
          (proposals (ui w)) (proposals (ui w'))
  /\ map id (proposals (ui w')) = map id (proposals (ui w))
  /\ exists added, effects w' = effects w ++ added.
Proof.
  intros Hsteps.
  assert (H : Forall2 (fun p p' => setStatus p' (status p) = p)
                      (proposals (ui w)) (proposals (ui w'))
              /\ exists added, effects w' = effects w ++ added).
  { induction Hsteps as [w|w w1 w2 Hstep _ IH].
    - split.
      + apply Forall2_same. intros p _. apply setStatus_same.
      + exists []. now rewrite app_nil_r.
    - destruct (step_payload w w1 Hstep) as [H1 [a1 Ha1]].
      destruct IH as [H2 [a2 Ha2]]. split.
      + apply (Forall2_chain _ _ (proposals (ui w1))); [|exact H1|exact H2].
        intros x y z Hxy Hyz. rewrite <- Hxy at 2. rewrite <- Hyz at 1.
        reflexivity.
      + exists (a1 ++ a2). rewrite Ha2, Ha1. now rewrite app_assoc. }
  destruct H as [Hpay Hlog]. split; [exact Hpay|]. split; [|exact Hlog].
  clear Hlog Hsteps. induction Hpay as [|p p' l l' Hp _ IH]; [reflexivity|].
  simpl. rewrite IH. f_equal. rewrite <- Hp. reflexivity.
Qed.

Lemma user_actions_change_status_only_witness :
  steps executedAndExecutable
        (exec (handleExecuteClick alwaysFulfils 2) executedAndExecutable)
  /\ map id (proposals (ui (exec (handleExecuteClick alwaysFulfils 2)
                                 executedAndExecutable)))
     = map id (proposals (ui executedAndExecutable)).
Proof.
  assert (Hsteps : steps executedAndExecutable
                     (exec (handleExecuteClick alwaysFulfils 2)
                           executedAndExecutable)).
  { eapply Relation_Operators.rt1n_trans; [|apply Relation_Operators.rt1n_refl].
    apply (step_executeClick disconnected alwaysFulfils executedAndExecutable
             proposal2
             {| executeDisabled := false;
                executeTitle := "Execute this proposal to transfer funds";
                executeLabel := "Execute" |}).
    - simpl. right. left. reflexivity.
    - reflexivity.
    - reflexivity. }
  split; [exact Hsteps|].
  apply (proj1 (proj2 (user_actions_change_status_only _ _ Hsteps))).
Defined.

(** X7. Confirming a rejection uses up the selection: afterwards nothing is
    selected, so a second confirmation returns at once, changes nothing and
    calls nobody.  Cancelling after a click on Reject likewise leaves the
    proposals and the log as they were, and a confirmation after that is
    without effect. *)
Theorem reject_selection_is_used_once
        (contract contract' : Contract) (reason reason' : option string)
        (w : World) (i : Z) :
  selectedProposal (ui (exec (handleRejectConfirm contract reason) w)) = None
  /\ exec (handleRejectConfirm contract' reason')
          (exec (handleRejectConfirm contract reason) w)
     = exec (handleRejectConfirm contract reason) w
  /\ proposals (ui (exec handleRejectCancel (exec (handleRejectClick i) w)))
     = proposals (ui w)
  /\ effects (exec handleRejectCancel (exec (handleRejectClick i) w))
     = effects w
  /\ exec (handleRejectConfirm contract reason)
          (exec handleRejectCancel (exec (handleRejectClick i) w))
     = exec handleRejectCancel (exec (handleRejectClick i) w).
Proof.
  assert (Hnone : selectedProposal
                    (ui (exec (handleRejectConfirm contract reason) w)) = None).
  { destruct (selectedProposal (ui w)) as [k|] eqn:Hs.
    - destruct (rejectProposal contract k) as [txHash|e] eqn:Hr.
      + now rewrite (handleRejectConfirm_fulfilled contract reason w k txHash).
      + now rewrite (handleRejectConfirm_throws contract reason w k e).
    - now rewrite handleRejectConfirm_nothing_selected. }
  split; [exact Hnone|].
  split; [now apply handleRejectConfirm_nothing_selected|].
  split; [reflexivity|]. split; [reflexivity|].
  now apply handleRejectConfirm_nothing_selected.
Qed.

(** X8. Every run of a submitting handler makes exactly one call to the
    collaborator and reports it with exactly one notification, at level
    success when the call was fulfilled and at level error when it threw; on
    success the status of the proposals with the submitted id is updated.
    [handleExecuteClick] clears [executingId] in both cases and does not
    touch the reject dialog. *)
Theorem one_call_one_notification (contract : Contract) (w : World) (i : Z) :
  (exists message level logs,
      effects (exec (handleExecuteClick contract i) w)
      = effects w ++ CallExecuteProposal i
                  :: Notify "proposal_executed" message level :: logs
      /\ Forall (fun e => exists l a, e = ConsoleLog l a) logs
      /\ (level = success <-> exists h, executeProposal contract i = Fulfilled h)
      /\ (level = error <-> exists e, executeProposal contract i = Throws e)
      /\ proposals (ui (exec (handleExecuteClick contract i) w))
         = match level with
           | success => markStatus i Executed (proposals (ui w))
           | _ => proposals (ui w)
           end)
  /\ executingId (ui (exec (handleExecuteClick contract i) w)) = None
  /\ selectedProposal (ui (exec (handleExecuteClick contract i) w))
     = selectedProposal (ui w)
  /\ showRejectModal (ui (exec (handleExecuteClick contract i) w))
     = showRejectModal (ui w)
  /\ (forall reason,
         selectedProposal (ui w) = Some i ->
         exists message level logs,
           effects (exec (handleRejectConfirm contract reason) w)
           = effects w ++ CallRejectProposal i
                       :: Notify "proposal_rejected" message level :: logs
           /\ Forall (fun e => exists l a, e = ConsoleLog l a) logs
           /\ (level = success <-> exists h, rejectProposal contract i = Fulfilled h)
           /\ (level = error <-> exists e, rejectProposal contract i = Throws e)
           /\ proposals (ui (exec (handleRejectConfirm contract reason) w))
              = match level with
                | success => markStatus i Rejected (proposals (ui w))
                | _ => proposals (ui w)
                end).
Proof.
  split; [|split; [|split; [|split]]].
  - destruct (executeProposal contract i) as [txHash|e] eqn:Hr.
    + rewrite (handleExecuteClick_fulfilled contract w i txHash Hr). simpl.
      eexists _, success, _. split; [reflexivity|]. split.
      * repeat constructor. eexists _, _. reflexivity.
      * split; [split; eauto|]. split; [|reflexivity].
        split; [discriminate|]. intros [e He]. discriminate He.
    + rewrite (handleExecuteClick_throws contract w i e Hr). simpl.
      eexists _, error, []. split; [reflexivity|]. split; [constructor|].
      split; [|split; [split; eauto|reflexivity]].
      split; [discriminate|]. intros [h Hh]. discriminate Hh.
  - destruct (executeProposal contract i) as [txHash|e] eqn:Hr.
    + now rewrite (handleExecuteClick_fulfilled contract w i txHash Hr).
    + now rewrite (handleExecuteClick_throws contract w i e Hr).
  - destruct (executeProposal contract i) as [txHash|e] eqn:Hr.
    + now rewrite (handleExecuteClick_fulfilled contract w i txHash Hr).
    + now rewrite (handleExecuteClick_throws contract w i e Hr).
  - destruct (executeProposal contract i) as [txHash|e] eqn:Hr.
    + now rewrite (handleExecuteClick_fulfilled contract w i txHash Hr).
    + now rewrite (handleExecuteClick_throws contract w i e Hr).
  - intros reason Hsel.
    destruct (rejectProposal contract i) as [txHash|e] eqn:Hr.
    + rewrite (handleRejectConfirm_fulfilled contract reason w i txHash Hsel Hr).
      simpl. eexists _, success, _. split; [reflexivity|]. split.
      * repeat constructor; eexists _, _; reflexivity.
      * split; [split; eauto|]. split; [|reflexivity].
        split; [discriminate|]. intros [e He]. discriminate He.
    + rewrite (handleRejectConfirm_throws contract reason w i e Hsel Hr). simpl.
      eexists _, error, []. split; [reflexivity|]. split; [constructor|].
      split; [|split; [split; eauto|reflexivity]].
      split; [discriminate|]. intros [h Hh]. discriminate Hh.
Qed.

Lemma one_call_one_notification_witness :
  selectedProposal (ui pendingSelected) = Some 1
  /\ exists message level logs,
      effects (exec (handleRejectConfirm alwaysFulfils None) pendingSelected)
      = effects pendingSelected
          ++ CallRejectProposal 1
             :: Notify "proposal_rejected" message level :: logs
      /\ Forall (fun e => exists l a, e = ConsoleLog l a) logs
      /\ (level = success <-> exists h, rejectProposal alwaysFulfils 1 = Fulfilled h)
      /\ (level = error <-> exists e, rejectProposal alwaysFulfils 1 = Throws e)
      /\ proposals (ui (exec (handleRejectConfirm alwaysFulfils None) pendingSelected))
         = match level with
           | success => markStatus 1 Rejected (proposals (ui pendingSelected))
           | _ => proposals (ui pendingSelected)
           end.
Proof.
  split; [reflexivity|].
  apply (proj2 (proj2 (proj2 (proj2
           (one_call_one_notification alwaysFulfils pendingSelected 1))))
           None eq_refl).
Defined.

(** ** The list component: properties *)

Lemma includes_empty (s : string) : ListFilter.includes s EmptyString = true.
Proof. destruct s; reflexivity. Qed.

Lemma filteredProposals_In (toLowerCase : string -> string)
      (f : ListFilter.FilterState) (ps : list ListView.Proposal)
      (p : ListView.Proposal) :
  In p (ListFilter.filteredProposals toLowerCase f ps) ->
  In p ps
  /\ (ListFilter.statuses f <> [] ->
      In (ListView.status p) (ListFilter.statuses f)).
Proof.
  intros Hin. unfold ListFilter.filteredProposals in Hin.
  apply filter_In in Hin. destruct Hin as [Hin Hm]. split; [exact Hin|].
  intros Hne. unfold ListFilter.matches in Hm.
  apply andb_true_iff in Hm. destruct Hm as [_ Hm].
  apply orb_true_iff in Hm. destruct Hm as [Hm|Hm].
  - destruct (ListFilter.statuses f); [contradiction|discriminate Hm].
  - apply existsb_exists in Hm. destruct Hm as [s [Hs Heq]].
    apply String.eqb_eq in Heq. now rewrite Heq.
Qed.

(** X9. The list shown depends on the search text and the chosen statuses
    only: the date range, the amount range and the sort order of the filter
    state are ignored.  The shown proposals are proposals of the list, each
    matching the filter, and with statuses chosen every one of them has a
    chosen status.  With an empty search and no status chosen (and a
    [toLowerCase] that maps the empty string to itself) the whole list is
    shown. *)
Theorem filteredProposals_uses_search_and_status
        (toLowerCase : string -> string)
        (f f' : ListFilter.FilterState) (ps : list ListView.Proposal) :
  (ListFilter.search f = ListFilter.search f' ->
   ListFilter.statuses f = ListFilter.statuses f' ->
   ListFilter.filteredProposals toLowerCase f ps
   = ListFilter.filteredProposals toLowerCase f' ps)
  /\ (forall p, In p (ListFilter.filteredProposals toLowerCase f ps) ->
                In p ps
                /\ (ListFilter.statuses f <> [] ->
                    In (ListView.status p) (ListFilter.statuses f)))
  /\ (toLowerCase EmptyString = EmptyString ->
      ListFilter.search f = EmptyString -> ListFilter.statuses f = [] ->
      ListFilter.filteredProposals toLowerCase f ps = ps).
Proof.
  split; [|split].
  - intros Hs Hst. unfold ListFilter.filteredProposals. apply filter_ext.
    intros p. unfold ListFilter.matches. now rewrite Hs, Hst.
  - intros p. apply filteredProposals_In.
  - intros Hlow Hs Hst. unfold ListFilter.filteredProposals.
    induction ps as [|p ps IH]; [reflexivity|]. simpl.
    unfold ListFilter.matches at 1.
    rewrite Hs, Hst, Hlow, !includes_empty. simpl. now rewrite IH.
Qed.

Lemma filteredProposals_uses_search_and_status_witness :
  (lowerAscii EmptyString = EmptyString
   /\ ListFilter.search ListFilter.initialFilters = EmptyString
   /\ ListFilter.statuses ListFilter.initialFilters = [])
  /\ ListFilter.filteredProposals lowerAscii ListFilter.initialFilters
       [listPending; listExecuted]
     = [listPending; listExecuted].
Proof.
  split; [repeat split; reflexivity|].
  apply (proj2 (proj2 (filteredProposals_uses_search_and_status
                         lowerAscii ListFilter.initialFilters
                         ListFilter.initialFilters
                         [listPending; listExecuted])));
    reflexivity.
Defined.

(** X10. In the list component a confirmed rejection takes the proposal out
    of the pending view: after [handleRejectConfirm] no proposal with the
    rejected id is shown under the status filter "Pending", none of them has
    a Reject button, the dialog is closed and the id is cleared, so a second
    confirmation changes nothing. *)
Theorem list_reject_leaves_pending_view
        (toLowerCase : string -> string) (reason : option string)
        (u : ListView.Ui) (i : string) (f : ListFilter.FilterState) :
  ListView.rejectingId u = Some i -> i <> EmptyString ->
  ListFilter.statuses f = ["Pending"] ->
  (forall p,
      In p (ListView.proposals (fst (ListView.handleRejectConfirm reason u))) ->
      ListView.id p = i ->
      ListView.status p = "Rejected"
      /\ ListView.rejectButtonRendered p = false
      /\ ~ In p (ListFilter.filteredProposals toLowerCase f
                   (ListView.proposals
                      (fst (ListView.handleRejectConfirm reason u)))))
  /\ ListView.showRejectModal (fst (ListView.handleRejectConfirm reason u)) = false
  /\ ListView.rejectingId (fst (ListView.handleRejectConfirm reason u)) = None
  /\ (forall reason',
         ListView.handleRejectConfirm reason'
           (fst (ListView.handleRejectConfirm reason u))
         = (fst (ListView.handleRejectConfirm reason u), [])).
Proof.
  intros Hi Hne Hst.
  assert (Hrun : fst (ListView.handleRejectConfirm reason u)
                 = {| ListView.proposals :=
                        map (fun p => if String.eqb (ListView.id p) i
                                      then ListView.setStatus p "Rejected"
                                      else p)
                            (ListView.proposals u);
                      ListView.showRejectModal := false;
                      ListView.rejectingId := None |}).
  { unfold ListView.handleRejectConfirm. rewrite Hi. simpl.
    destruct (String.eqb_spec i EmptyString); [contradiction|reflexivity]. }
  rewrite Hrun. simpl.
  split; [|split; [reflexivity|split; reflexivity]].
  intros p Hin Hid.
  assert (Hrej : ListView.status p = "Rejected").
  { apply in_map_iff in Hin. destruct Hin as [q [Hq _]].
    destruct (String.eqb_spec (ListView.id q) i) as [_|Hneq].
    - subst p. reflexivity.
    - subst p. contradiction. }
  split; [exact Hrej|]. split.
  - unfold ListView.rejectButtonRendered. now rewrite Hrej.
  - intros Hshown.
    apply filteredProposals_In in Hshown.
    destruct Hshown as [_ Hs]. rewrite Hst, Hrej in Hs.
    destruct Hs as [Hs|[]]; [discriminate|discriminate].
Qed.

Lemma list_reject_leaves_pending_view_witness :
  (ListView.rejectingId listPendingSelected = Some "1"
   /\ "1" <> EmptyString
   /\ ListFilter.statuses pendingOnly = ["Pending"])
  /\ ListFilter.filteredProposals lowerAscii pendingOnly
       (ListView.proposals
          (fst (ListView.handleRejectConfirm None listPendingSelected)))
     = []
  /\ ListView.rejectingId
       (fst (ListView.handleRejectConfirm None listPendingSelected)) = None.
Proof.
  assert (H1 : ListView.rejectingId listPendingSelected = Some "1")
    by reflexivity.
  assert (H2 : "1" <> EmptyString) by discriminate.
  assert (H3 : ListFilter.statuses pendingOnly = ["Pending"]) by reflexivity.
  split; [repeat split; assumption|].
  split; [reflexivity|].
  apply (proj1 (proj2 (proj2 (list_reject_leaves_pending_view
                                lowerAscii None listPendingSelected "1"
                                pendingOnly H1 H2 H3)))).
Defined.

(** X11. The new-proposal form behaves as a record of four independent
    fields: after [handleFormChange field value] the field reads [value] and
    the three others read as before, and the last write to a field wins.
    [applyTemplate] overwrites all four fields whatever was typed, uses
    "NATIVE" when the template has no token or an empty one, records the
    template's name and closes the selector.  [handleCreateProposal] closes
    the dialog but keeps the typed form. *)
Theorem form_fields_are_independent
        (field other : ListForm.Field) (value value' : string)
        (template : ListForm.ProposalTemplate) (c : ListForm.Cells) :
  ListForm.get (ListForm.newProposalForm
                  (ListForm.handleFormChange field value c)) field = value
  /\ (other <> field ->
      ListForm.get (ListForm.newProposalForm
                      (ListForm.handleFormChange field value c)) other
      = ListForm.get (ListForm.newProposalForm c) other)
  /\ ListForm.handleFormChange field value'
       (ListForm.handleFormChange field value c)
     = ListForm.handleFormChange field value' c
  /\ ListForm.applyTemplate template (ListForm.handleFormChange field value c)
     = ListForm.applyTemplate template c
  /\ (ListForm.templateToken template = None
      \/ ListForm.templateToken template = Some EmptyString ->
      ListForm.token (ListForm.newProposalForm
                        (ListForm.applyTemplate template c)) = "NATIVE")
  /\ (forall t, t <> EmptyString -> ListForm.templateToken template = Some t ->
                ListForm.token (ListForm.newProposalForm
                                  (ListForm.applyTemplate template c)) = t)
  /\ ListForm.showTemplateSelector (ListForm.applyTemplate template c) = false
  /\ ListForm.newProposalForm (ListForm.handleCreateProposal c)
     = ListForm.newProposalForm c
  /\ ListForm.showNewProposalModal (ListForm.handleCreateProposal c) = false.
Proof.
  split; [destruct field; reflexivity|].
  split; [destruct field, other; simpl; congruence|].
  split; [destruct field; reflexivity|].
  split; [reflexivity|].
  split.
  { intros [H|H]; simpl; rewrite H; reflexivity. }
  split.
  { intros t Hne H. simpl. rewrite H. unfold Js.or_string; simpl.
    destruct (String.eqb_spec t EmptyString); [contradiction|reflexivity]. }
  repeat split.
Qed.

Lemma form_fields_are_independent_witness :
  ListForm.FToken <> ListForm.FAmount
  /\ ListForm.get (ListForm.newProposalForm
                     (ListForm.handleFormChange ListForm.FAmount "250"
                        ListForm.initialCells)) ListForm.FToken
     = ListForm.get (ListForm.newProposalForm ListForm.initialCells)
                    ListForm.FToken.
Proof.
  assert (H : ListForm.FToken <> ListForm.FAmount) by discriminate.
  split; [exact H|].
  apply (proj1 (proj2 (form_fields_are_independent
                         ListForm.FAmount ListForm.FToken "250" "250"
                         (ListForm.mkTemplate "t" "r" None "1" "m")
                         ListForm.initialCells)) H).
Defined.

(** ** CSV export: properties *)

Section CsvProperties.

Import ExportAnalytics CsvReader.

Lemma append_nil_r (s : string) : (s ++ EmptyString)%string = s.
Proof. induction s as [|c s IH]; simpl; [reflexivity|now rewrite IH]. Qed.

Lemma append_assoc (a b c : string) :
  ((a ++ b) ++ c)%string = (a ++ (b ++ c))%string.
Proof. induction a as [|x a IH]; simpl; [reflexivity|now rewrite IH]. Qed.

Lemma snoc_append (cell : string) (c : ascii) (rest : string) :
  (snoc cell c ++ rest)%string = (cell ++ String c rest)%string.
Proof. unfold snoc. now rewrite append_assoc. Qed.

Lemma isSpecial_false (c : ascii) :
  isSpecial c = false ->
  Ascii.eqb c dquote = false /\ Ascii.eqb c comma = false
  /\ Ascii.eqb c lf = false /\ Ascii.eqb c cr = false.
Proof.
  unfold isSpecial. intros H.
  repeat (apply orb_false_iff in H; destruct H as [H ?]). auto.
Qed.

Lemma read_Start_boundary (cell : string) (row : list string) (k : string) :
  atBoundary k -> read Start cell row k = read Bare cell row k.
Proof. intros [->|[[k' ->]|[k' ->]]]; reflexivity. Qed.

Lemma read_QuoteSeen_boundary (cell : string) (row : list string) (k : string) :
  atBoundary k -> read QuoteSeen cell row k = read Bare cell row k.
Proof. intros [->|[[k' ->]|[k' ->]]]; reflexivity. Qed.

Lemma read_Bare_plain (x : string) :
  test x = false ->
  forall cell row k,
    read Bare cell row (x ++ k) = read Bare (cell ++ x) row k.
Proof.
  induction x as [|c x IH]; intros Hx cell row k; simpl.
  - now rewrite append_nil_r.
  - simpl in Hx. apply orb_false_iff in Hx. destruct Hx as [Hc Hx].
    destruct (isSpecial_false c Hc) as [Hq [Hco [_ Hcr]]].
    rewrite Hq, Hco, Hcr. rewrite (IH Hx). now rewrite snoc_append.
Qed.

Lemma read_Start_plain (x : string) (row : list string) (k : string) :
  test x = false -> atBoundary k ->
  read Start EmptyString row (x ++ k) = read Bare x row k.
Proof.
  intros Hx Hk. destruct x as [|c x].
  - simpl. now apply read_Start_boundary.
  - assert (Hsame : read Start EmptyString row (String c x ++ k)
                    = read Bare EmptyString row (String c x ++ k)).
    { simpl in Hx. apply orb_false_iff in Hx. destruct Hx as [Hc _].
      destruct (isSpecial_false c Hc) as [Hq _]. simpl. now rewrite Hq. }
    rewrite Hsame. now rewrite read_Bare_plain.
Qed.

Lemma read_Quoted_cell (x : string) :
  forall cell row k,
    read Quoted cell row (replaceQuotes x ++ String dquote k)
    = read QuoteSeen (cell ++ x) row k.
Proof.
  induction x as [|c x IH]; intros cell row k; simpl.
  - now rewrite append_nil_r.
  - destruct (Ascii.eqb c dquote) eqn:Hc.
    + apply Ascii.eqb_eq in Hc. subst c. simpl.
      rewrite IH. now rewrite snoc_append.
    + simpl. rewrite Hc. rewrite IH. now rewrite snoc_append.
Qed.

(** One written cell, read back. *)
Lemma read_cell (x : string) (row : list string) (k : string) :
  atBoundary k ->
  read Start EmptyString row (escapeCsvCell x ++ k) = read Bare x row k.
Proof.
  intros Hk. unfold escapeCsvCell. destruct (test x) eqn:Hx.
  - simpl. rewrite append_assoc. simpl.
    rewrite read_Quoted_cell. simpl. now apply read_QuoteSeen_boundary.
  - now apply read_Start_plain.
Qed.

Lemma formatRow_cons (x y : string) (l : list string) :
  formatRow (x :: y :: l)
  = (escapeCsvCell x ++ String comma (formatRow (y :: l)))%string.
Proof. reflexivity. Qed.

(** One written row, read back up to its end. *)
Lemma read_row (cells : list string) :
  forall cell0 row k,
    k = EmptyString \/ (exists k', k = String cr k') ->
    read Start EmptyString row (formatRow (cell0 :: cells) ++ k)
    = read Bare (last (cell0 :: cells) EmptyString)
           (row ++ removelast (cell0 :: cells)) k.
Proof.
  induction cells as [|y l IH]; intros x row k Hk.
  - unfold formatRow. simpl. rewrite app_nil_r. apply read_cell.
    destruct Hk as [->|Hk]; [now left|now right; right].
  - rewrite formatRow_cons, append_assoc.
    rewrite read_cell by (right; left; eexists; reflexivity).
    change (read Bare x row (String comma (formatRow (y :: l)) ++ k))
      with (read Start EmptyString (row ++ [x]) (formatRow (y :: l) ++ k)).
    rewrite (IH y (row ++ [x]) k Hk).
    change (removelast (x :: y :: l)) with (x :: removelast (y :: l)).
    change (last (x :: y :: l) EmptyString) with (last (y :: l) EmptyString).
    now rewrite <- app_assoc.
Qed.

Lemma read_row_end (row : list string) (k : string) :
  k = EmptyString \/ (exists k', k = String cr k') ->
  read Start EmptyString [] (formatRow row ++ k)
  = read Bare (last (asRead row) EmptyString) (removelast (asRead row)) k.
Proof.
  intros Hk. destruct row as [|x l].
  - simpl. apply read_Start_boundary.
    destruct Hk as [->|Hk]; [now left|now right; right].
  - now rewrite read_row.
Qed.

Lemma asRead_split (row : list string) :
  removelast (asRead row) ++ [last (asRead row) EmptyString] = asRead row.
Proof.
  symmetry. apply app_removelast_last. destruct row; discriminate.
Qed.

Lemma readCsv_formatCsv (rows : list (list string)) :
  rows <> [] -> readCsv (formatCsv rows) = map asRead rows.
Proof.
  unfold readCsv. intros Hne.
  destruct rows as [|r rs]; [contradiction|clear Hne].
  revert r. induction rs as [|r2 rs IH]; intros r.
  - unfold formatCsv. simpl.
    rewrite <- (append_nil_r (formatRow r)).
    rewrite read_row_end by now left.
    simpl. now rewrite asRead_split.
  - change (formatCsv (r :: r2 :: rs))
      with (formatRow r ++ (crlf ++ formatCsv (r2 :: rs)))%string.
    rewrite read_row_end by (right; eexists; reflexivity).
    simpl. rewrite asRead_split. f_equal. apply IH.
Qed.

Lemma length_append (a b : string) :
  String.length (a ++ b) = (String.length a + String.length b)%nat.
Proof. induction a as [|c a IH]; simpl; [reflexivity|now rewrite IH]. Qed.

Lemma length_replaceQuotes (s : string) :
  (String.length s <= String.length (replaceQuotes s))%nat.
Proof.
  induction s as [|c s IH]; simpl; [lia|].
  destruct (Ascii.eqb c dquote); simpl; lia.
Qed.

(** X12. [escapeCsvCell] returns a cell without double quote, comma, LF and
    CR as it is, and only such a cell; any other cell comes back between
    double quotes with its own double quotes doubled, at least two characters
    longer.  Two different cells are never written the same way. *)
Theorem escapeCsvCell_faithful (s t : string) :
  (escapeCsvCell s = s <-> test s = false)
  /\ (test s = true ->
      escapeCsvCell s
      = String dquote (replaceQuotes s ++ String dquote EmptyString)
      /\ (String.length s + 2 <= String.length (escapeCsvCell s))%nat)
  /\ (escapeCsvCell s = escapeCsvCell t -> s = t).
Proof.
  assert (Hlong : test s = true ->
                  (String.length s + 2 <= String.length (escapeCsvCell s))%nat).
  { intros Hs. unfold escapeCsvCell. rewrite Hs. simpl.
    rewrite length_append. simpl.
    pose proof (length_replaceQuotes s). lia. }
  split; [|split].
  - split.
    + intros Heq. destruct (test s) eqn:Hs; [|reflexivity].
      specialize (Hlong eq_refl). rewrite Heq in Hlong. lia.
    + intros Hs. unfold escapeCsvCell. now rewrite Hs.
  - intros Hs. split; [|now apply Hlong].
    unfold escapeCsvCell. now rewrite Hs.
  - intros Heq.
    assert (H : readCsv (formatCsv [[s]]) = readCsv (formatCsv [[t]])).
    { unfold formatCsv, formatRow. simpl. now rewrite Heq. }
    rewrite !readCsv_formatCsv in H by discriminate.
    simpl in H. congruence.
Qed.

Lemma escapeCsvCell_faithful_witness :
  test "Ops, Q1" = true
  /\ escapeCsvCell "Ops, Q1"
     = String dquote ("Ops, Q1" ++ String dquote EmptyString).
Proof.
  split; [reflexivity|].
  apply (proj1 (proj2 (escapeCsvCell_faithful "Ops, Q1" "Ops, Q1"))).
  reflexivity.
Defined.

(** X13. The text written for a table can be read back: for a table with at
    least one row, reading the CSV text gives the same rows with the same
    cells, whatever characters the cells hold; a row without cells, written
    as an empty line, reads as a row of one empty cell.  In particular a
    single written row reads as that one row and a single written cell as
    that one cell. *)
Theorem csv_reads_back (rows : list (list string)) :
  rows <> [] ->
  readCsv (formatCsv rows) = map asRead rows
  /\ (forall row, readCsv (formatRow row) = [asRead row])
  /\ (forall cell, readCsv (escapeCsvCell cell) = [[cell]]).
Proof.
  intros Hne. split; [now apply readCsv_formatCsv|].
  assert (Hrow : forall row, readCsv (formatRow row) = [asRead row]).
  { intros row.
    change (formatRow row) with (formatCsv [row]).
    now rewrite readCsv_formatCsv. }
  split; [exact Hrow|].
  intros cell. apply (Hrow [cell]).
Qed.

Lemma csv_reads_back_witness :
  [["a,b"; "c"]; []; ["d"]] <> []
  /\ readCsv (formatCsv [["a,b"; "c"]; []; ["d"]])
     = [["a,b"; "c"]; [EmptyString]; ["d"]].
Proof.
  split; [discriminate|].
  apply (proj1 (csv_reads_back [["a,b"; "c"]; []; ["d"]] ltac:(discriminate))).
Defined.

(** X14. Two tables are written as the same CSV text only if they have the
    same rows, provided each has at least one row and no row without cells:
    no cell content can shift, merge or split cells or rows.  Without the
    proviso the text is ambiguous: a row without cells and a row of one empty
    cell are both written as an empty line. *)
Theorem formatCsv_injective (rows rows' : list (list string)) :
  (rows <> [] -> rows' <> [] ->
   Forall (fun r => r <> []) rows -> Forall (fun r => r <> []) rows' ->
   formatCsv rows = formatCsv rows' -> rows = rows')
  /\ formatCsv [[]] = formatCsv [[EmptyString]].
Proof.
  split; [|reflexivity].
  intros Hne Hne' Hall Hall' Heq.
  assert (Hid : forall l : list (list string),
             Forall (fun r => r <> []) l -> map asRead l = l).
  { intros l Hl. induction Hl as [|r l Hr _ IH]; [reflexivity|].
    simpl. rewrite IH. destruct r; [contradiction|reflexivity]. }
  rewrite <- (Hid rows Hall), <- (Hid rows' Hall').
  rewrite <- !readCsv_formatCsv by assumption. now rewrite Heq.
Qed.

Lemma formatCsv_injective_witness :
  ([["a"; "b"]] <> [] /\ [["a"; "b"]] <> []
   /\ Forall (fun r : list string => r <> []) [["a"; "b"]]
   /\ formatCsv [["a"; "b"]] = formatCsv [["a"; "b"]])
  /\ [["a"; "b"]] = [["a"; "b"]].
Proof.
  assert (H1 : [["a"; "b"]] <> []) by discriminate.
  assert (H2 : Forall (fun r : list string => r <> []) [["a"; "b"]]).
  { constructor; [discriminate|constructor]. }
  split; [repeat split; trivial|].
  apply (proj1 (formatCsv_injective [["a"; "b"]] [["a"; "b"]]) H1 H1 H2 H2 eq_refl).
Defined.

(** X15. The exported file, read back as CSV, is the analytics table: the
    two heading rows, one row of four cells per proposal trend, a blank row,
    the two headings of the spending table, one row of three cells per token
    with [0] where the count is missing, a blank row, the heading of the
    statistics and its six rows; [13 + trends + tokens] rows in all, whatever
    characters the
    dates, names, signer and recipient hold.  The file is named
    [vault-analytics.csv] unless a name is given. *)
Theorem export_reads_back
        (number : Type) (numberToString : number -> string) (zero : number)
        (analytics : AggregatedAnalytics number) (filename : option string) :
  readCsv (content (exportAnalyticsToCsv number numberToString zero
                                         analytics filename))
  = [ ["Proposal trends"; EmptyString];
      ["Date"; "Created"; "Approved"; "Executed"] ]
    ++ map (fun p => [ date number p;
                       numberToString (created number p);
                       numberToString (approved number p);
                       numberToString (executed number p) ])
           (proposalTrends number analytics)
    ++ [ [EmptyString];
         ["Spending by token"; EmptyString];
         ["Token"; "Value"; "Count"] ]
    ++ map (fun s => [ name number s;
                       numberToString (value number s);
                       match count number s with
                       | Some c => numberToString c
                       | None => numberToString zero
                       end ])
           (spendingByToken number analytics)
    ++ [ [EmptyString];
         ["Stats"; EmptyString];
         ["Approval rate (%)"; numberToString (approvalRate number analytics)];
         ["Average approval time (hours)";
          numberToString (averageApprovalTimeHours number analytics)];
         ["Most active signer"; mostActiveSigner number analytics];
         ["Top recipient"; topRecipient number analytics];
         ["Total volume"; numberToString (totalVolume number analytics)];
         ["Pending proposals"; numberToString (pendingCount number analytics)] ]
  /\ List.length (readCsv (content (exportAnalyticsToCsv number numberToString
                                      zero analytics filename)))
     = (13 + List.length (proposalTrends number analytics)
           + List.length (spendingByToken number analytics))%nat
  /\ fileName (exportAnalyticsToCsv number numberToString zero analytics filename)
     = match filename with
       | Some f => f
       | None => "vault-analytics.csv"
       end.
Proof.
  assert (Hread : readCsv (content (exportAnalyticsToCsv number numberToString
                                      zero analytics filename))
                  = map asRead (rowsOf number numberToString zero analytics)).
  { simpl. apply readCsv_formatCsv. discriminate. }
  split; [|split].
  - rewrite Hread. unfold rowsOf. rewrite !map_app.
    assert (Ht : forall l,
               map asRead (map (trendRow number numberToString) l)
               = map (fun p => [ date number p;
                                 numberToString (created number p);
                                 numberToString (approved number p);
                                 numberToString (executed number p) ]) l).
    { intros l. rewrite map_map. apply map_ext. reflexivity. }
    assert (Hs : forall l,
               map asRead (map (spendingRow number numberToString zero) l)
               = map (fun s => [ name number s;
                                 numberToString (value number s);
                                 match count number s with
                                 | Some c => numberToString c
                                 | None => numberToString zero
                                 end ]) l).
    { intros l. rewrite map_map. apply map_ext. intros s.
      unfold spendingRow, Js.nullish. simpl.
      destruct (count number s); reflexivity. }
    rewrite Ht, Hs. reflexivity.
  - rewrite Hread, length_map. unfold rowsOf.
    rewrite !length_app, !length_map. simpl. lia.
  - destruct filename; reflexivity.
Qed.

End CsvProperties.

(** ** The toast provider: properties *)

Lemma show_injective (a b : Z) : Js.show a = Js.show b -> a = b.
Proof.
  unfold Js.show. intros H.
  assert (Hok : forall z, NilZero.int_of_string
                            (NilZero.string_of_int (Z.to_int z))
                          = Some (Z.to_int z)).
  { intros z. apply NilZero.isi; destruct z; simpl; try discriminate;
      intros [= Hnil]; now apply Unsigned.to_uint_nonnil in Hnil. }
  assert (Hint : Some (Z.to_int a) = Some (Z.to_int b)).
  { rewrite <- !Hok. now rewrite H. }
  injection Hint as Hint.
  rewrite <- (DecimalZ.of_to a), <- (DecimalZ.of_to b). now rewrite Hint.
Qed.

Lemma toastId_injective (a b : Z) : Toasts.toastId a = Toasts.toastId b -> a = b.
Proof.
  unfold Toasts.toastId. simpl. intros H.
  injection H as H. now apply show_injective.
Qed.

Lemma numbered_bounds (ns : list Z) :
  forall low high, Toasts.numbered low ns high ->
                   low <= high /\ Forall (fun n => low < n <= high) ns.
Proof.
  induction ns as [|n ns IH]; intros low high H; simpl in H.
  - split; [exact H|constructor].
  - destruct H as [Hlt Hrest]. destruct (IH n high Hrest) as [Hle Hall].
    split; [lia|]. constructor; [lia|].
    eapply Forall_impl; [|exact Hall]. simpl. intros x Hx. lia.
Qed.

Lemma numbered_weaken (ns : list Z) (low low' high : Z) :
  low <= low' -> Toasts.numbered low' ns high -> Toasts.numbered low ns high.
Proof.
  destruct ns as [|n ns]; simpl; [lia|]. intros Hle [Hlt H]. split; [lia|exact H].
Qed.

Lemma numbered_snoc (ns : list Z) :
  forall low high n, Toasts.numbered low ns high -> high < n ->
                     Toasts.numbered low (ns ++ [n]) n.
Proof.
  induction ns as [|m ns IH]; intros low high n H Hn; simpl in *.
  - split; lia.
  - destruct H as [Hlt H]. split; [exact Hlt|]. now apply (IH m high).
Qed.

Lemma numbered_NoDup (ns : list Z) :
  forall low high, Toasts.numbered low ns high ->
                   NoDup (map Toasts.toastId ns).
Proof.
  induction ns as [|n ns IH]; intros low high H; simpl in *.
  - constructor.
  - destruct H as [_ H]. constructor; [|now apply (IH n high)].
    intros Hin. apply in_map_iff in Hin. destruct Hin as [m [Hm Hin]].
    apply toastId_injective in Hm. subst m.
    destruct (numbered_bounds ns n high H) as [_ Hall].
    rewrite Forall_forall in Hall. specialize (Hall n Hin). lia.
Qed.

Lemma numbered_filter (f : Toasts.ToastItem -> bool) (ts : list Toasts.ToastItem) :
  forall ns low high,
    map Toasts.id ts = map Toasts.toastId ns ->
    Toasts.numbered low ns high ->
    exists ns', map Toasts.id (filter f ts) = map Toasts.toastId ns'
                /\ Toasts.numbered low ns' high.
Proof.
  induction ts as [|t ts IH]; intros ns low high Hmap Hnum.
  - exists []. destruct ns; [|discriminate]. split; [reflexivity|exact Hnum].
  - destruct ns as [|n ns]; [discriminate|].
    simpl in Hmap. injection Hmap as Hid Hmap. destruct Hnum as [Hlt Hnum].
    destruct (IH ns n high Hmap Hnum) as [ns' [Hmap' Hnum']].
    simpl. destruct (f t).
    + exists (n :: ns'). simpl. split; [now rewrite Hid, Hmap'|now split].
    + exists ns'. split; [exact Hmap'|].
      apply (numbered_weaken ns' low n); [lia|exact Hnum'].
Qed.

Lemma showToast_invariant (msg : string) (lvl : option ToastLevel) (st : Toasts.State) :
  Toasts.invariant st -> Toasts.invariant (Toasts.showToast msg lvl st).
Proof.
  intros [Htimers [[ns [Hmap Hnum]] Hpend]].
  split; [exact Htimers|]. split.
  - exists (ns ++ [Toasts.toastIdCounter st + 1]). simpl. split.
    + rewrite !map_app. simpl. now rewrite Hmap.
    + apply (numbered_snoc ns 0 (Toasts.toastIdCounter st)); [exact Hnum|lia].
  - simpl. rewrite !map_app. simpl. now rewrite Hpend.
Qed.

Lemma timerFires_oldest (st : Toasts.State) :
  Toasts.invariant st ->
  Toasts.toasts (Toasts.timerFires st) = tl (Toasts.toasts st)
  /\ Toasts.pending (Toasts.timerFires st) = tl (Toasts.pending st)
  /\ Toasts.toastIdCounter (Toasts.timerFires st) = Toasts.toastIdCounter st.
Proof.
  intros [Htimers [[ns [Hmap Hnum]] Hpend]].
  unfold Toasts.timerFires.
  destruct (Toasts.pending st) as [|[h toast] rest] eqn:Hp.
  - rewrite Hp. simpl in Hpend. apply map_eq_nil in Hpend.
    rewrite Hpend. repeat split.
  - unfold Toasts.dismissToast; simpl. rewrite Htimers; simpl.
    split; [|split; reflexivity].
    destruct (Toasts.toasts st) as [|t ts] eqn:Hts; [discriminate|].
    simpl in Hpend. injection Hpend as Hid Hrest.
    simpl. rewrite Hid, String.eqb_refl. simpl.
    assert (Hnd : NoDup (map Toasts.id (t :: ts))).
    { rewrite Hmap. now apply (numbered_NoDup ns 0 (Toasts.toastIdCounter st)). }
    simpl in Hnd. apply NoDup_cons_iff in Hnd. destruct Hnd as [Hnotin _].
    clear - Hnotin Hid. rewrite Hid in Hnotin.
    induction ts as [|x xs IH]; [reflexivity|]. simpl in *.
    destruct (String.eqb_spec (Toasts.id x) toast) as [He|_].
    + exfalso. apply Hnotin. now left.
    + simpl. f_equal. apply IH. intros H. apply Hnotin. now right.
Qed.

Lemma timerFires_invariant (st : Toasts.State) :
  Toasts.invariant st -> Toasts.invariant (Toasts.timerFires st).
Proof.
  intros Hinv. destruct (timerFires_oldest st Hinv) as [Ht [Hp Hc]].
  destruct Hinv as [Htimers [[ns [Hmap Hnum]] Hpend]].
  split; [|split].
  - unfold Toasts.timerFires. destruct (Toasts.pending st) as [|[h k] rest];
      [exact Htimers|exact Htimers].
  - rewrite Ht, Hc. destruct (Toasts.toasts st) as [|t ts].
    + exists []. destruct ns; [|discriminate]. split; [reflexivity|exact Hnum].
    + destruct ns as [|n ns]; [discriminate|]. exists ns. simpl.
      simpl in Hmap. injection Hmap as _ Hmap. split; [exact Hmap|].
      destruct Hnum as [Hlt Hnum].
      apply (numbered_weaken ns 0 n); [lia|exact Hnum].
  - rewrite Ht, Hp.
    destruct (Toasts.toasts st), (Toasts.pending st); simpl in *;
      try discriminate; [reflexivity|]. now injection Hpend.
Qed.

Lemma run_invariant (e : Toasts.Event) (st : Toasts.State) :
  Toasts.invariant st -> Toasts.invariant (Toasts.run e st).
Proof.
  intros Hinv. destruct e as [frequency eventType msg lvl| |]; simpl.
  - unfold Toasts.notify. destruct (String.eqb frequency "off");
      [exact Hinv|now apply showToast_invariant].
  - now apply showToast_invariant.
  - now apply timerFires_invariant.
Qed.

Lemma runAll_invariant (events : list Toasts.Event) (st : Toasts.State) :
  Toasts.invariant st -> Toasts.invariant (Toasts.runAll events st).
Proof.
  unfold Toasts.runAll. revert st.
  induction events as [|e events IH]; intros st Hinv; simpl; [exact Hinv|].
  apply IH. now apply run_invariant.
Qed.

Lemma initial_invariant : Toasts.invariant Toasts.initial.
Proof.
  split; [reflexivity|]. split; [|reflexivity].
  exists []. split; [reflexivity|]. simpl. lia.
Qed.

(** X16. Whatever sequence of notifications, test notifications and timer
    expiries the provider goes through, the toasts on screen have pairwise
    distinct ids (so distinct React keys), no timer handle is ever stored in
    the map of [dismissTimersRef], so that [dismissToast] never cancels a
    timer, and the toasts on screen are exactly those whose timer has not
    fired yet, in the same order. *)
Theorem toast_ids_are_unique (events : list Toasts.Event) :
  NoDup (map Toasts.id (Toasts.toasts (Toasts.runAll events Toasts.initial)))
  /\ Toasts.dismissTimers (Toasts.runAll events Toasts.initial) = []
  /\ map Toasts.id (Toasts.toasts (Toasts.runAll events Toasts.initial))
     = map snd (Toasts.pending (Toasts.runAll events Toasts.initial))
  /\ (forall toast,
         Toasts.pending (Toasts.dismissToast toast
                           (Toasts.runAll events Toasts.initial))
         = Toasts.pending (Toasts.runAll events Toasts.initial)).
Proof.
  destruct (runAll_invariant events Toasts.initial initial_invariant)
    as [Htimers [[ns [Hmap Hnum]] Hpend]].
  split; [|split; [exact Htimers|split; [exact Hpend|]]].
  - rewrite Hmap. now apply (numbered_NoDup ns 0 _ Hnum).
  - intros toast. unfold Toasts.dismissToast; simpl.
    now rewrite Htimers.
Qed.

(** X17. In every state the provider reaches, an expiring timer removes
    exactly the oldest toast and nothing else, so toasts leave in the order
    they came; once all pending timers have fired no toast is left. *)
Theorem toasts_leave_in_order (events : list Toasts.Event) :
  Toasts.toasts (Toasts.timerFires (Toasts.runAll events Toasts.initial))
  = tl (Toasts.toasts (Toasts.runAll events Toasts.initial))
  /\ Toasts.toasts
       (Nat.iter (List.length (Toasts.pending (Toasts.runAll events Toasts.initial)))
                 Toasts.timerFires
                 (Toasts.runAll events Toasts.initial))
     = [].
Proof.
  pose proof (runAll_invariant events Toasts.initial initial_invariant) as Hinv.
  split; [now apply timerFires_oldest|].
  remember (Toasts.runAll events Toasts.initial) as st eqn:Hst. clear Hst events.
  remember (List.length (Toasts.pending st)) as n eqn:Hn.
  revert st Hinv Hn. induction n as [|n IH]; intros st Hinv Hn.
  - simpl. destruct Hinv as [_ [_ Hpend]].
    destruct (Toasts.pending st); [|discriminate].
    simpl in Hpend. now apply map_eq_nil in Hpend.
  - rewrite Nat.iter_succ_r. apply IH.
    + now apply timerFires_invariant.
    + destruct (timerFires_oldest st Hinv) as [_ [Hp _]]. rewrite Hp.
      destruct (Toasts.pending st); [discriminate|]. simpl in *. lia.
Qed.




(** ** The wallet provider: properties *)

Lemma differs_false (a b : option string) : Wallet.differs a b = false <-> a = b.
Proof.
  destruct a as [x|], b as [y|]; simpl; split; try congruence; try reflexivity.
  - intros H. apply negb_false_iff in H. apply String.eqb_eq in H. congruence.
  - intros [= ->]. now rewrite String.eqb_refl.
Qed.

Lemma validateNetwork_consistent (seen : bool) (fr : Wallet.Freighter) (st : Wallet.State) :
  Wallet.consistent st ->
  Wallet.consistent (snd (Wallet.validateNetwork seen fr st)).
Proof.
  intros Hc. unfold Wallet.validateNetwork.
  destruct (Wallet.getNetwork fr) as [n|]; [|exact Hc].
  destruct (Wallet.differs n (Wallet.networkRef st)); [|exact Hc].
  destruct Hc as [Ha [_ [Hon Hoff]]].
  destruct (negb (Js.not_string n) && Wallet.differs n (Some "TESTNET") && seen);
    simpl; repeat split; assumption.
Qed.

Lemma validateNetwork_keeps (seen : bool) (fr : Wallet.Freighter) (st : Wallet.State) :
  Wallet.connected (snd (Wallet.validateNetwork seen fr st)) = Wallet.connected st
  /\ Wallet.address (snd (Wallet.validateNetwork seen fr st)) = Wallet.address st
  /\ Wallet.walletConnected (snd (Wallet.validateNetwork seen fr st))
     = Wallet.walletConnected st
  /\ Wallet.isInstalled (snd (Wallet.validateNetwork seen fr st))
     = Wallet.isInstalled st
  /\ Wallet.log (snd (Wallet.validateNetwork seen fr st)) = Wallet.log st.
Proof.
  unfold Wallet.validateNetwork.
  destruct (Wallet.getNetwork fr) as [n|]; [|repeat split].
  destruct (Wallet.differs n (Wallet.networkRef st)); [|repeat split].
  destruct (negb (Js.not_string n) && Wallet.differs n (Some "TESTNET") && seen);
    repeat split.
Qed.

Lemma dropConnection_consistent (st : Wallet.State) :
  Wallet.consistent st -> Wallet.consistent (Wallet.dropConnection st).
Proof.
  intros [_ [Hn _]]. repeat split; simpl; try assumption; discriminate.
Qed.

Lemma out_consistent (o : Wallet.Out) (st : Wallet.State) :
  Wallet.consistent st -> Wallet.consistent (Wallet.out o st).
Proof. intros H. exact H. Qed.

Lemma updateWalletState_consistent (seen : bool) (fr : Wallet.Freighter) (st : Wallet.State) :
  Wallet.consistent st ->
  Wallet.consistent (snd (Wallet.updateWalletState seen fr st)).
Proof.
  intros Hc. unfold Wallet.updateWalletState. cbv zeta.
  destruct (Wallet.isAllowed fr) as [[|]|]; cbn [snd];
    [|now apply dropConnection_consistent|exact Hc].
  destruct (Wallet.getUserInfo fr) as [k|]; cbn [snd]; [|exact Hc].
  destruct (Js.not_string k) eqn:Hk; cbn [snd];
    [now apply dropConnection_consistent|].
  apply validateNetwork_consistent.
  destruct (Wallet.differs (Some (Js.nullish k EmptyString)) (Wallet.addressRef st));
    [|exact Hc].
  destruct Hc as [_ [Hn _]]. repeat split; simpl; try assumption;
    try discriminate.
  intros _. exists (Js.nullish k EmptyString). split; [reflexivity|].
  destruct k as [v|]; [|discriminate]. simpl in *.
  intros ->. discriminate.
Qed.

Lemma checkInstallation_consistent (fr : Wallet.Freighter) (st : Wallet.State) :
  Wallet.consistent st -> Wallet.consistent (snd (Wallet.checkInstallation fr st)).
Proof.
  intros Hc. unfold Wallet.checkInstallation.
  destruct (Wallet.isConnected fr); exact Hc.
Qed.

Lemma run_consistent (e : Wallet.Event) (st : Wallet.State) :
  Wallet.consistent st -> Wallet.consistent (Wallet.run e st).
Proof.
  intros Hc. destruct e as [fr|fr|fr| |]; simpl.
  - unfold Wallet.init.
    pose proof (checkInstallation_consistent fr st Hc) as H1.
    destruct (Wallet.checkInstallation fr st) as [installed st1]. simpl in H1.
    destruct (installed && negb (Wallet.differs (Wallet.walletConnected st1)
                                                (Some "true")));
      [now apply updateWalletState_consistent|exact H1].
  - unfold Wallet.poll. destruct (Wallet.isConnected fr) as [[|]|];
      [now apply updateWalletState_consistent|exact Hc|exact Hc].
  - unfold Wallet.connect.
    assert (H1 : Wallet.consistent
                   (snd (if Wallet.isInstalled st then (true, st)
                         else Wallet.checkInstallation fr st))).
    { destruct (Wallet.isInstalled st);
        [exact Hc|now apply checkInstallation_consistent]. }
    destruct (if Wallet.isInstalled st then (true, st)
              else Wallet.checkInstallation fr st) as [found st1].
    simpl in H1. destruct found; simpl; [|exact H1].
    destruct (Wallet.setAllowed fr) as [[|]|]; [|exact H1|exact H1].
    pose proof (updateWalletState_consistent (Wallet.connected st) fr st1 H1) as H2.
    destruct (Wallet.updateWalletState (Wallet.connected st) fr st1)
      as [updated st2]. simpl in H2.
    destruct updated; exact H2.
  - repeat split; simpl; discriminate.
  - exact Hc.
Qed.

Lemma runAll_consistent (events : list Wallet.Event) (st : Wallet.State) :
  Wallet.consistent st -> Wallet.consistent (Wallet.runAll events st).
Proof.
  unfold Wallet.runAll. revert st.
  induction events as [|e events IH]; intros st Hc; simpl; [exact Hc|].
  apply IH. now apply run_consistent.
Qed.

(** X19. Whatever the Freighter API answers or throws, through any sequence
    of mounts, polls, connects, disconnects and toast dismissals, the
    provider's cells stay consistent: the two refs mirror [address] and
    [network], and [connected] is true exactly when there is an address,
    which is then not empty.  For the dashboard this means that the demo
    mode of [canRejectProposal] is in force exactly when the wallet is not
    connected. *)
Theorem wallet_cells_stay_consistent
        (stored : option string) (events : list Wallet.Event)
        (role : UserRole) (busy : bool) (p : Proposal) :
  Wallet.consistent (Wallet.runAll events (Wallet.initial stored))
  /\ (canRejectProposal
        (Wallet.envOf (Wallet.runAll events (Wallet.initial stored)) role busy) p
      = true
      <-> Wallet.connected (Wallet.runAll events (Wallet.initial stored)) = false
          \/ Wallet.address (Wallet.runAll events (Wallet.initial stored))
             = Some (proposer p)
          \/ role = Admin).
Proof.
  assert (Hc : Wallet.consistent (Wallet.runAll events (Wallet.initial stored))).
  { apply runAll_consistent. repeat split; simpl; try discriminate. }
  split; [exact Hc|].
  destruct Hc as [_ [_ [Hon Hoff]]].
  rewrite canRejectProposal_true. unfold Wallet.envOf; simpl.
  destruct (Wallet.connected (Wallet.runAll events (Wallet.initial stored)))
    eqn:Hconn.
  - destruct (Hon eq_refl) as [pk [Hpk Hne]]. rewrite Hpk. split.
    + intros [H|[H|[H|[H|H]]]]; try discriminate; auto.
      injection H as H. contradiction.
    + intros [H|[H|H]]; [discriminate|auto|auto].
  - split; auto.
Qed.

Lemma poll_cases (fr : Wallet.Freighter) (st : Wallet.State) :
  Wallet.isConnected fr = Wallet.Returns true ->
  Wallet.poll fr st = snd (Wallet.updateWalletState (Wallet.connected st) fr st).
Proof. intros H. unfold Wallet.poll. now rewrite H. Qed.

(** X20. A poll in which the Freighter API throws ([isAllowed] or
    [getUserInfo]) or reports that the extension is not there leaves the
    connection as it is: [connected], [address], [network] and the stored
    flag are unchanged.  A poll in which the extension answers that the site
    is not allowed, or gives no public key, drops the connection and removes
    the stored flag. *)
Theorem poll_errors_keep_connection (fr : Wallet.Freighter) (st : Wallet.State) :
  (Wallet.isConnected fr <> Wallet.Returns true
   \/ Wallet.isAllowed fr = Wallet.Fails
   \/ (Wallet.isAllowed fr = Wallet.Returns true
       /\ Wallet.getUserInfo fr = Wallet.Fails) ->
   Wallet.connected (Wallet.poll fr st) = Wallet.connected st
   /\ Wallet.address (Wallet.poll fr st) = Wallet.address st
   /\ Wallet.network (Wallet.poll fr st) = Wallet.network st
   /\ Wallet.walletConnected (Wallet.poll fr st) = Wallet.walletConnected st)
  /\ (Wallet.isConnected fr = Wallet.Returns true ->
      Wallet.isAllowed fr = Wallet.Returns false
      \/ (Wallet.isAllowed fr = Wallet.Returns true
          /\ (Wallet.getUserInfo fr = Wallet.Returns None
              \/ Wallet.getUserInfo fr = Wallet.Returns (Some EmptyString))) ->
      Wallet.connected (Wallet.poll fr st) = false
      /\ Wallet.address (Wallet.poll fr st) = None
      /\ Wallet.walletConnected (Wallet.poll fr st) = None).
Proof.
  split.
  - intros H. unfold Wallet.poll.
    destruct (Wallet.isConnected fr) as [[|]|] eqn:Hi; try (repeat split; fail).
    destruct H as [H|[H|[H1 H2]]]; [contradiction| |];
      unfold Wallet.updateWalletState.
    + rewrite H. repeat split.
    + rewrite H1, H2. repeat split.
  - intros Hi H. rewrite (poll_cases fr st Hi).
    unfold Wallet.updateWalletState.
    destruct H as [H|[H1 [H2|H2]]].
    + rewrite H. repeat split.
    + rewrite H1, H2. repeat split.
    + rewrite H1, H2. repeat split.
Qed.

Lemma poll_errors_keep_connection_witness :
  Wallet.isAllowed (Wallet.mkFreighter (Wallet.Returns true) Wallet.Fails
                      Wallet.Fails Wallet.Fails Wallet.Fails) = Wallet.Fails
  /\ Wallet.connected
       (Wallet.poll (Wallet.mkFreighter (Wallet.Returns true) Wallet.Fails
                       Wallet.Fails Wallet.Fails Wallet.Fails)
          (Wallet.setConnectedAs "GABC...XYZ1" (Wallet.initial None)))
     = true.
Proof.
  split; [reflexivity|].
  apply (proj1 (poll_errors_keep_connection
                  (Wallet.mkFreighter (Wallet.Returns true) Wallet.Fails
                     Wallet.Fails Wallet.Fails Wallet.Fails)
                  (Wallet.setConnectedAs "GABC...XYZ1" (Wallet.initial None)))).
  right. left. reflexivity.
Defined.

(** X21. Disconnecting clears the address, the network and the stored flag,
    but it does not last: at the next poll in which the extension still
    allows the site and gives a public key, the wallet is connected again
    with that key, although the stored flag stays removed. *)
Theorem disconnect_is_undone_by_poll
        (fr : Wallet.Freighter) (st : Wallet.State) (pk : string) :
  Wallet.isConnected fr = Wallet.Returns true ->
  Wallet.isAllowed fr = Wallet.Returns true ->
  Wallet.getUserInfo fr = Wallet.Returns (Some pk) ->
  pk <> EmptyString ->
  (Wallet.connected (Wallet.disconnect st) = false
   /\ Wallet.address (Wallet.disconnect st) = None
   /\ Wallet.network (Wallet.disconnect st) = None
   /\ Wallet.walletConnected (Wallet.disconnect st) = None)
  /\ Wallet.connected (Wallet.poll fr (Wallet.disconnect st)) = true
  /\ Wallet.address (Wallet.poll fr (Wallet.disconnect st)) = Some pk
  /\ Wallet.walletConnected (Wallet.poll fr (Wallet.disconnect st)) = None.
Proof.
  intros Hi Ha Hu Hne. split; [repeat split|].
  rewrite (poll_cases fr _ Hi). unfold Wallet.updateWalletState.
  rewrite Ha, Hu. simpl.
  destruct (String.eqb_spec pk EmptyString) as [He|_]; [contradiction|].
  simpl.
  destruct (validateNetwork_keeps false fr
              (Wallet.setConnectedAs pk (Wallet.disconnect st)))
    as [Hc [Hadr [Hw _]]].
  simpl in Hc, Hadr, Hw. rewrite Hc, Hadr, Hw. repeat split.
Qed.

Lemma disconnect_is_undone_by_poll_witness :
  (Wallet.isConnected (Wallet.mkFreighter (Wallet.Returns true)
       (Wallet.Returns true) Wallet.Fails (Wallet.Returns (Some "GABC...XYZ1"))
       (Wallet.Returns (Some "PUBLIC"))) = Wallet.Returns true
   /\ "GABC...XYZ1" <> EmptyString)
  /\ Wallet.connected
       (Wallet.poll (Wallet.mkFreighter (Wallet.Returns true)
            (Wallet.Returns true) Wallet.Fails
            (Wallet.Returns (Some "GABC...XYZ1"))
            (Wallet.Returns (Some "PUBLIC")))
          (Wallet.disconnect (Wallet.initial (Some "true")))) = true.
Proof.
  assert (Hne : "GABC...XYZ1" <> EmptyString) by discriminate.
  split; [split; [reflexivity|exact Hne]|].
  apply (proj1 (proj2 (disconnect_is_undone_by_poll
                         (Wallet.mkFreighter (Wallet.Returns true)
                            (Wallet.Returns true) Wallet.Fails
                            (Wallet.Returns (Some "GABC...XYZ1"))
                            (Wallet.Returns (Some "PUBLIC")))
                         (Wallet.initial (Some "true")) "GABC...XYZ1"
                         eq_refl eq_refl eq_refl Hne))).
Defined.

Lemma validateNetwork_unseen (fr : Wallet.Freighter) (st : Wallet.State) :
  Wallet.toast (snd (Wallet.validateNetwork false fr st)) = Wallet.toast st.
Proof.
  unfold Wallet.validateNetwork.
  destruct (Wallet.getNetwork fr) as [n|]; [|reflexivity].
  destruct (Wallet.differs n (Wallet.networkRef st)); [|reflexivity].
  rewrite andb_false_r. reflexivity.
Qed.

Lemma updateWalletState_unseen (fr : Wallet.Freighter) (st : Wallet.State) :
  Wallet.toast (snd (Wallet.updateWalletState false fr st)) = Wallet.toast st.
Proof.
  unfold Wallet.updateWalletState. cbv zeta.
  destruct (Wallet.isAllowed fr) as [[|]|]; cbn [snd]; try reflexivity.
  destruct (Wallet.getUserInfo fr) as [k|]; cbn [snd]; try reflexivity.
  destruct (Js.not_string k); cbn [snd]; try reflexivity.
  rewrite validateNetwork_unseen.
  destruct (Wallet.differs (Some (Js.nullish k EmptyString)) (Wallet.addressRef st));
    reflexivity.
Qed.

Lemma checkInstallation_toast (fr : Wallet.Freighter) (st : Wallet.State) :
  Wallet.toast (snd (Wallet.checkInstallation fr st)) = Wallet.toast st.
Proof.
  unfold Wallet.checkInstallation. destruct (Wallet.isConnected fr); reflexivity.
Qed.

(** X22. The warning "Please switch to Stellar Testnet in Freighter" is tied
    to the value of [connected] that the callback closed over.  A wallet that
    becomes connected during a mount, a poll or a connect gets no warning,
    whatever network Freighter reports: those handlers started with
    [connected] false.  The warning is raised at a poll of an already
    connected wallet whose network changes to a non-empty name other than
    TESTNET, and it is not raised again while the network stays the same. *)
Theorem testnet_warning_needs_prior_connection
        (fr : Wallet.Freighter) (st : Wallet.State) (pk n : string) :
  (Wallet.connected st = false ->
   Wallet.toast (Wallet.poll fr st) = Wallet.toast st
   /\ Wallet.toast (Wallet.init fr st) = Wallet.toast st
   /\ (Wallet.toast (Wallet.connect fr st)
       = Some ("Please switch to Stellar Testnet in Freighter", "warning") ->
       Wallet.toast st
       = Some ("Please switch to Stellar Testnet in Freighter", "warning")))
  /\ (Wallet.consistent st ->
      Wallet.connected st = true -> Wallet.address st = Some pk ->
      Wallet.isConnected fr = Wallet.Returns true ->
      Wallet.isAllowed fr = Wallet.Returns true ->
      Wallet.getUserInfo fr = Wallet.Returns (Some pk) ->
      Wallet.getNetwork fr = Wallet.Returns (Some n) ->
      n <> EmptyString -> n <> "TESTNET" ->
      (Wallet.network st <> Some n ->
       Wallet.toast (Wallet.poll fr st)
       = Some ("Please switch to Stellar Testnet in Freighter", "warning")
       /\ Wallet.network (Wallet.poll fr st) = Some n)
      /\ (Wallet.network st = Some n ->
          Wallet.poll fr st = st)).
Proof.
  split.
  - intros Hoff. split; [|split].
    + unfold Wallet.poll. rewrite Hoff.
      destruct (Wallet.isConnected fr) as [[|]|]; try reflexivity.
      apply updateWalletState_unseen.
    + unfold Wallet.init. rewrite Hoff.
      pose proof (checkInstallation_toast fr st) as Ht.
      destruct (Wallet.checkInstallation fr st) as [installed st1].
      simpl in Ht.
      destruct (installed && negb (Wallet.differs (Wallet.walletConnected st1)
                                                  (Some "true")));
        [|exact Ht].
      now rewrite updateWalletState_unseen.
    + unfold Wallet.connect. rewrite Hoff.
      assert (Ht : Wallet.toast
                     (snd (if Wallet.isInstalled st then (true, st)
                           else Wallet.checkInstallation fr st))
                   = Wallet.toast st).
      { destruct (Wallet.isInstalled st);
          [reflexivity|apply checkInstallation_toast]. }
      destruct (if Wallet.isInstalled st then (true, st)
                else Wallet.checkInstallation fr st) as [found st1].
      simpl in Ht. destruct found; simpl; [|discriminate].
      destruct (Wallet.setAllowed fr) as [[|]|]; simpl;
        [|now rewrite Ht|discriminate].
      pose proof (updateWalletState_unseen fr st1) as Hu.
      destruct (Wallet.updateWalletState false fr st1) as [updated st2].
      simpl in Hu. destruct updated; simpl; [discriminate|].
      now rewrite Hu, Ht.
  - intros [Haddr [Hnet [Hconn _]]] Hon Hadr Hi Ha Hu Hg Hne Htest.
    assert (Hpk : pk <> EmptyString).
    { destruct (Hconn Hon) as [k [Hk Hkne]]. congruence. }
    rewrite (poll_cases fr st Hi). unfold Wallet.updateWalletState.
    rewrite Ha, Hu, Hon. cbv zeta. simpl Js.not_string.
    destruct (String.eqb_spec pk EmptyString) as [He|_]; [contradiction|].
    cbn [Js.nullish snd fst].
    assert (Hsame : Wallet.differs (Some pk) (Wallet.addressRef st) = false).
    { apply differs_false. now rewrite Haddr, Hadr. }
    rewrite Hsame. unfold Wallet.validateNetwork. rewrite Hg.
    split.
    + intros Hchg.
      assert (Hd : Wallet.differs (Some n) (Wallet.networkRef st) = true).
      { destruct (Wallet.differs (Some n) (Wallet.networkRef st)) eqn:E;
          [reflexivity|]. apply differs_false in E. rewrite Hnet in E.
        exfalso. apply Hchg. now rewrite E. }
      rewrite Hd. simpl.
      destruct (String.eqb_spec n EmptyString); [contradiction|].
      destruct (String.eqb_spec n "TESTNET"); [contradiction|].
      simpl. split; reflexivity.
    + intros Hkeep.
      assert (Hd : Wallet.differs (Some n) (Wallet.networkRef st) = false).
      { apply differs_false. now rewrite Hnet, Hkeep. }
      rewrite Hd. reflexivity.
Qed.

Lemma testnet_warning_needs_prior_connection_witness :
  Wallet.connected (Wallet.initial None) = false
  /\ Wallet.toast
       (Wallet.poll (Wallet.mkFreighter (Wallet.Returns true)
            (Wallet.Returns true) Wallet.Fails
            (Wallet.Returns (Some "GABC...XYZ1"))
            (Wallet.Returns (Some "PUBLIC")))
          (Wallet.initial None))
     = Wallet.toast (Wallet.initial None).
Proof.
  split; [reflexivity|].
  apply (proj1 (proj1 (testnet_warning_needs_prior_connection
                         (Wallet.mkFreighter (Wallet.Returns true)
                            (Wallet.Returns true) Wallet.Fails
                            (Wallet.Returns (Some "GABC...XYZ1"))
                            (Wallet.Returns (Some "PUBLIC")))
                         (Wallet.initial None) "GABC...XYZ1" "PUBLIC")
                      eq_refl)).
Defined.

Lemma connect_found (fr : Wallet.Freighter) (st : Wallet.State) :
  Wallet.isInstalled st = true \/ Wallet.isConnected fr = Wallet.Returns true ->
  exists st1,
    Wallet.connect fr st
    = match Wallet.setAllowed fr with
      | Wallet.Fails => Wallet.showToast "Connection failed" "error" st1
      | Wallet.Returns false => st1
      | Wallet.Returns true =>
          if fst (Wallet.updateWalletState (Wallet.connected st) fr st1)
          then Wallet.showToast "Wallet connected!" "success"
                 (Wallet.storeConnected
                    (snd (Wallet.updateWalletState (Wallet.connected st) fr st1)))
          else snd (Wallet.updateWalletState (Wallet.connected st) fr st1)
      end
    /\ Wallet.connected st1 = Wallet.connected st
    /\ Wallet.address st1 = Wallet.address st
    /\ Wallet.addressRef st1 = Wallet.addressRef st
    /\ Wallet.walletConnected st1 = Wallet.walletConnected st
    /\ Wallet.toast st1 = Wallet.toast st
    /\ Wallet.log st1 = Wallet.log st.
Proof.
  intros H. unfold Wallet.connect.
  assert (H1 : exists st1,
             (if Wallet.isInstalled st then (true, st)
              else Wallet.checkInstallation fr st) = (true, st1)
             /\ Wallet.connected st1 = Wallet.connected st
             /\ Wallet.address st1 = Wallet.address st
             /\ Wallet.addressRef st1 = Wallet.addressRef st
             /\ Wallet.walletConnected st1 = Wallet.walletConnected st
             /\ Wallet.toast st1 = Wallet.toast st
             /\ Wallet.log st1 = Wallet.log st).
  { destruct (Wallet.isInstalled st) eqn:Hinst.
    - exists st. repeat split.
    - destruct H as [H|H]; [discriminate|].
      unfold Wallet.checkInstallation. rewrite H.
      eexists. split; [reflexivity|]. repeat split. }
  destruct H1 as [st1 [Heq Hrest]]. exists st1. split; [|exact Hrest].
  rewrite Heq. simpl.
  destruct (Wallet.setAllowed fr) as [[|]|]; try reflexivity.
  destruct (Wallet.updateWalletState (Wallet.connected st) fr st1)
    as [updated st2]. reflexivity.
Qed.

(** X23. The outcomes of [connect], all of them.  (1) Without the extension
    (not known as installed, and [isConnected()] not answering true) it shows
    the error toast "Freighter wallet not found.", opens the Freighter site
    and leaves the connection untouched.  Otherwise: (2) when [setAllowed()]
    throws it shows "Connection failed" and leaves the connection untouched;
    (3) when [setAllowed()] answers false nothing is shown and the connection
    is untouched; (4) when [isAllowed()] or [getUserInfo()] throws, only
    "Failed to update wallet state" is written to the console; (5) when the
    site is not allowed or no public key comes back, the wallet is
    disconnected and the stored flag removed, without a toast; (6) when a
    public key comes back, the toast reads "Wallet connected!", the flag
    [wallet_connected] is stored as "true" and, the cells being consistent
    before, the wallet is connected with that key. *)
Theorem connect_outcomes (fr : Wallet.Freighter) (st : Wallet.State) :
  (Wallet.isInstalled st = false
   /\ Wallet.isConnected fr <> Wallet.Returns true
   /\ Wallet.toast (Wallet.connect fr st)
      = Some ("Freighter wallet not found.", "error")
   /\ (exists l, Wallet.log (Wallet.connect fr st)
                 = l ++ [Wallet.WindowOpen "https://www.freighter.app/" "_blank"])
   /\ Wallet.connected (Wallet.connect fr st) = Wallet.connected st
   /\ Wallet.address (Wallet.connect fr st) = Wallet.address st
   /\ Wallet.walletConnected (Wallet.connect fr st) = Wallet.walletConnected st)
  \/ ((Wallet.isInstalled st = true
       \/ Wallet.isConnected fr = Wallet.Returns true)
      /\ ((Wallet.setAllowed fr = Wallet.Fails
           /\ Wallet.toast (Wallet.connect fr st)
              = Some ("Connection failed", "error")
           /\ Wallet.log (Wallet.connect fr st) = Wallet.log st
           /\ Wallet.connected (Wallet.connect fr st) = Wallet.connected st
           /\ Wallet.address (Wallet.connect fr st) = Wallet.address st
           /\ Wallet.walletConnected (Wallet.connect fr st)
              = Wallet.walletConnected st)
          \/ (Wallet.setAllowed fr = Wallet.Returns false
              /\ Wallet.toast (Wallet.connect fr st) = Wallet.toast st
              /\ Wallet.log (Wallet.connect fr st) = Wallet.log st
              /\ Wallet.connected (Wallet.connect fr st) = Wallet.connected st
              /\ Wallet.address (Wallet.connect fr st) = Wallet.address st
              /\ Wallet.walletConnected (Wallet.connect fr st)
                 = Wallet.walletConnected st)
          \/ (Wallet.setAllowed fr = Wallet.Returns true
              /\ (Wallet.isAllowed fr = Wallet.Fails
                  \/ (Wallet.isAllowed fr = Wallet.Returns true
                      /\ Wallet.getUserInfo fr = Wallet.Fails))
              /\ Wallet.toast (Wallet.connect fr st) = Wallet.toast st
              /\ Wallet.log (Wallet.connect fr st)
                 = Wallet.log st
                   ++ [Wallet.ConsoleError "Failed to update wallet state"]
              /\ Wallet.connected (Wallet.connect fr st) = Wallet.connected st
              /\ Wallet.address (Wallet.connect fr st) = Wallet.address st
              /\ Wallet.walletConnected (Wallet.connect fr st)
                 = Wallet.walletConnected st)
          \/ (Wallet.setAllowed fr = Wallet.Returns true
              /\ (Wallet.isAllowed fr = Wallet.Returns false
                  \/ (Wallet.isAllowed fr = Wallet.Returns true
                      /\ (Wallet.getUserInfo fr = Wallet.Returns None
                          \/ Wallet.getUserInfo fr
                             = Wallet.Returns (Some EmptyString))))
              /\ Wallet.toast (Wallet.connect fr st) = Wallet.toast st
              /\ Wallet.log (Wallet.connect fr st) = Wallet.log st
              /\ Wallet.connected (Wallet.connect fr st) = false
              /\ Wallet.address (Wallet.connect fr st) = None
              /\ Wallet.walletConnected (Wallet.connect fr st) = None)
          \/ (Wallet.setAllowed fr = Wallet.Returns true
              /\ Wallet.isAllowed fr = Wallet.Returns true
              /\ exists pk,
                  Wallet.getUserInfo fr = Wallet.Returns (Some pk)
                  /\ pk <> EmptyString
                  /\ Wallet.toast (Wallet.connect fr st)
                     = Some ("Wallet connected!", "success")
                  /\ Wallet.log (Wallet.connect fr st) = Wallet.log st
                  /\ Wallet.walletConnected (Wallet.connect fr st)
                     = Some "true"
                  /\ (Wallet.consistent st ->
                      Wallet.connected (Wallet.connect fr st) = true
                      /\ Wallet.address (Wallet.connect fr st) = Some pk)))).
Proof.
  assert (Hdec : (Wallet.isInstalled st = false
                  /\ Wallet.isConnected fr <> Wallet.Returns true)
                 \/ (Wallet.isInstalled st = true
                     \/ Wallet.isConnected fr = Wallet.Returns true)).
  { destruct (Wallet.isInstalled st); [right; now left|].
    destruct (Wallet.isConnected fr) as [[|]|];
      [right; now right|left; split; [reflexivity|discriminate]
      |left; split; [reflexivity|discriminate]]. }
  destruct Hdec as [[Hinst Hno]|Hthere].
  - left. split; [exact Hinst|]. split; [exact Hno|].
    unfold Wallet.connect. rewrite Hinst. unfold Wallet.checkInstallation.
    destruct (Wallet.isConnected fr) as [[|]|]; [contradiction| |]; simpl;
      (split; [reflexivity|]; split; [eexists; reflexivity|repeat split]).
  - right. split; [exact Hthere|].
    destruct (connect_found fr st Hthere)
      as [st1 [Heq [Hc [Ha [Har [Hw [Ht Hl]]]]]]].
    rewrite Heq. clear Heq.
    destruct (Wallet.setAllowed fr) as [[|]|].
    + (* the site is allowed: the wallet state is updated *)
      right. right. unfold Wallet.updateWalletState. cbv zeta.
      destruct (Wallet.isAllowed fr) as [[|]|]; cbn [fst snd].
      * destruct (Wallet.getUserInfo fr) as [k|]; cbn [fst snd].
        -- destruct k as [pk|]; simpl Js.not_string.
           ++ destruct (String.eqb_spec pk EmptyString) as [He|Hne].
              ** subst pk. right. left. simpl.
                 split; [reflexivity|]. split; [right; split; [reflexivity|now right]|].
                 rewrite Ht, Hl. repeat split.
              ** right. right. split; [reflexivity|]. split; [reflexivity|].
                 exists pk. split; [reflexivity|]. split; [exact Hne|].
                 cbn [Js.nullish fst snd].
                 set (st1' := if Wallet.differs (Some pk) (Wallet.addressRef st1)
                              then Wallet.setConnectedAs pk st1 else st1).
                 destruct (validateNetwork_keeps (Wallet.connected st) fr st1')
                   as [Hvc [Hva [_ [_ Hvl]]]].
                 simpl. rewrite Hvc, Hva, Hvl.
                 split; [reflexivity|]. split.
                 { subst st1'.
                   destruct (Wallet.differs (Some pk) (Wallet.addressRef st1));
                     simpl; exact Hl. }
                 split; [reflexivity|].
                 intros [Hrefs [_ [_ Hoff]]]. subst st1'.
                 destruct (Wallet.differs (Some pk) (Wallet.addressRef st1)) eqn:Hd.
                 { split; reflexivity. }
                 apply differs_false in Hd.
                 assert (Hadr : Wallet.address st = Some pk) by congruence.
                 rewrite Hc, Ha. split; [|exact Hadr].
                 destruct (Wallet.connected st) eqn:Hconn; [reflexivity|].
                 rewrite (Hoff eq_refl) in Hadr. discriminate.
           ++ right. left. simpl.
              split; [reflexivity|]. split; [right; split; [reflexivity|now left]|].
              rewrite Ht, Hl. repeat split.
        -- left. simpl. split; [reflexivity|].
           split; [right; split; reflexivity|].
           rewrite Ht, Hl, Hc, Ha, Hw. repeat split.
      * right. left. simpl. split; [reflexivity|]. split; [now left|].
        rewrite Ht, Hl. repeat split.
      * left. simpl. split; [reflexivity|]. split; [now left|].
        rewrite Ht, Hl, Hc, Ha, Hw. repeat split.
    + right. left. rewrite Ht, Hl, Hc, Ha, Hw. repeat split.
    + left. simpl. rewrite Hl, Hc, Ha, Hw. repeat split.
Qed.

(** ** The balance card: properties *)

Lemma overview_runAll_snoc (events : list Overview.Event) (e : Overview.Event)
      (st : Overview.State) :
  Overview.runAll (events ++ [e]) st
  = Overview.run e (Overview.runAll events st).
Proof. unfold Overview.runAll. now rewrite fold_left_app. Qed.

Lemma overview_runAll_app (l1 l2 : list Overview.Event) (st : Overview.State) :
  Overview.runAll (l1 ++ l2) st = Overview.runAll l2 (Overview.runAll l1 st).
Proof. unfold Overview.runAll. apply fold_left_app. Qed.

Lemma lastFetched_snoc (events : list Overview.Event) (e : Overview.Event) :
  forall found,
    Overview.lastFetched (events ++ [e]) found
    = match e with
      | Overview.Settles (Overview.Fetched b) t => Some (b, t)
      | _ => Overview.lastFetched events found
      end.
Proof.
  induction events as [|x events IH]; intros found; simpl.
  - destruct e as [|[b|] t]; reflexivity.
  - destruct x as [|[b|] t]; apply IH.
Qed.

Lemma failedSinceStart_snoc (events : list Overview.Event) (e : Overview.Event) :
  forall failed,
    Overview.failedSinceStart (events ++ [e]) failed
    = match e with
      | Overview.Starts => false
      | Overview.Settles Overview.FetchFails _ => true
      | Overview.Settles (Overview.Fetched _) _ =>
          Overview.failedSinceStart events failed
      end.
Proof.
  induction events as [|x events IH]; intros failed; simpl.
  - destruct e as [|[b|] t]; reflexivity.
  - destruct x as [|[b|] t]; apply IH.
Qed.

(** X24. The balance card under any interleaving of refreshes, overlapping
    ones included.  After any sequence of starts and settlements the balance
    and the time stamp are those of the last successful settlement (the
    initial "0" and no time stamp when there was none), and the error is set
    exactly when a run has failed since the last start: a start clears it, a
    success does not.  So a refresh that starts and settles with nothing in
    between shows its amount when it succeeds and the error text when it
    fails; but when two refreshes overlap and the first to settle fails, the
    card keeps showing the error although the latest settlement succeeded,
    with the fresh amount stored behind it. *)
Theorem balance_card_after_refreshes
        (events : list Overview.Event) (outcome : Overview.Fetch)
        (b : string) (t t' : Z) :
  Overview.balance (Overview.runAll events Overview.initial)
  = match Overview.lastFetched events None with
    | Some (amount, _) => amount
    | None => "0"
    end
  /\ Overview.lastUpdated (Overview.runAll events Overview.initial)
     = option_map snd (Overview.lastFetched events None)
  /\ Overview.balanceError (Overview.runAll events Overview.initial)
     = (if Overview.failedSinceStart events false
        then Some "Failed to load balance" else None)
  /\ Overview.shown
       (Overview.runAll (events ++ [Overview.Starts; Overview.Settles outcome t])
          Overview.initial)
     = match outcome with
       | Overview.Fetched amount => Overview.ShowAmount amount
       | Overview.FetchFails => Overview.ShowError "Failed to load balance"
       end
  /\ Overview.shown
       (Overview.runAll
          (events ++ [ Overview.Starts; Overview.Starts;
                       Overview.Settles Overview.FetchFails t;
                       Overview.Settles (Overview.Fetched b) t' ])
          Overview.initial)
     = Overview.ShowError "Failed to load balance"
  /\ Overview.balance
       (Overview.runAll
          (events ++ [ Overview.Starts; Overview.Starts;
                       Overview.Settles Overview.FetchFails t;
                       Overview.Settles (Overview.Fetched b) t' ])
          Overview.initial)
     = b.
Proof.
  assert (Hcells : forall l,
             Overview.balance (Overview.runAll l Overview.initial)
             = match Overview.lastFetched l None with
               | Some (amount, _) => amount
               | None => "0"
               end
             /\ Overview.lastUpdated (Overview.runAll l Overview.initial)
                = option_map snd (Overview.lastFetched l None)
             /\ Overview.balanceError (Overview.runAll l Overview.initial)
                = if Overview.failedSinceStart l false
                  then Some "Failed to load balance" else None).
  { intros l. induction l as [|x l IH] using rev_ind;
      [repeat split; reflexivity|].
    rewrite overview_runAll_snoc, lastFetched_snoc, failedSinceStart_snoc.
    destruct IH as [Hb [Ht He]].
    destruct x as [|[amount|] now]; simpl; repeat split; assumption. }
  destruct (Hcells events) as [Hb [Ht He]].
  split; [exact Hb|]. split; [exact Ht|]. split; [exact He|].
  rewrite !overview_runAll_app.
  split; [destruct outcome; reflexivity|]. split; reflexivity.
Qed.
